(** * chatwithdoc: conversation state, streaming and citation rendering

    A shallow embedding of the parts of the chat application that carry
    its state logic:

    - [services/geminiService.ts]: the credential check, the streaming
      generator and the suggestion fetcher;
    - [components/MessageItem.tsx]: citation markers and footnote
      numbering in [renderMessageContent];
    - the knowledge-base panel ([KnowledgeBaseManager]): the guards of
      [handleAddUrlClick] and [handleFilesSelected];
    - [components/ChatInterface.tsx]: the attachment list and its
      updaters ([handleFiles], [handleCapture], [removeAttachment]),
      and what the composer hands to the controller;
    - [components/MessageItem.tsx], [components/FeedbackModal.tsx]: the
      feedback controls and the saving of an edit;
    - [contexts/LanguageContext.tsx]: the translation function [t], and
      the application controller ([App.tsx]) that the file carries after
      it: the conversation list, the knowledge base of the active
      conversation, sending, editing and regenerating, the response
      loop, suggestions, summaries, saved state and export.

    The module [Types] follows [types.ts], which the same file carries;
    [Repository] holds the [Conversation] record and the updater of
    [handleAddUrl]; the modules [App], [Response], [Summary],
    [Persistence] and [ExportFile] follow the source of the controller,
    and [ContextAdd] composes the panel's guards with the controller's
    updaters.

    JavaScript strings are sequences of UTF-16 code units; they are
    embedded as [string], one character per code unit, so that every
    index below is a code-unit offset as in the source. *)

From Stdlib Require Import List String Ascii ZArith Lia Bool Arith PeanoNat.
From Stdlib Require Import DecimalString Sorted Permutation.
Import ListNotations.

Local Open Scope list_scope.
Local Open Scope string_scope.

(* ===================================================================== *)
(** ** JavaScript string and array primitives used by the sources        *)
(* ===================================================================== *)

Module Js.

(** The double-quote and line-feed code units. *)
Definition dq : string := String (ascii_of_nat 34) EmptyString.
Definition nl : string := String (ascii_of_nat 10) EmptyString.

(** Truthiness of a string value: only the empty string is falsy. *)
Definition truthy (s : string) : bool :=
  match s with EmptyString => false | String _ _ => true end.

(** Truthiness of a possibly-undefined string. *)
Definition truthy_opt (o : option string) : bool :=
  match o with None => false | Some s => truthy s end.

(** Relative index resolution shared by [slice]: a negative index counts
    from the end, and the result is clamped to [0, len]. *)
Definition clampIndex (len i : Z) : Z :=
  if (i <? 0)%Z then Z.max (len + i) 0 else Z.min i len.

(** [String.prototype.slice(start, end)]; [None] is an omitted [end]. *)
Definition slice (s : string) (start : Z) (stop : option Z) : string :=
  let len := Z.of_nat (String.length s) in
  let from := clampIndex len start in
  let upto := match stop with None => len | Some e => clampIndex len e end in
  substring (Z.to_nat from) (Z.to_nat (Z.max (upto - from) 0)) s.

(** [String.prototype.includes(sub)]. *)
Fixpoint includes (sub s : string) : bool :=
  if prefix sub s then true
  else match s with
       | EmptyString => false
       | String _ rest => includes sub rest
       end.

(** [Array.prototype.includes] on an array of strings. *)
Fixpoint arrayIncludes (x : string) (l : list string) : bool :=
  match l with
  | [] => false
  | y :: rest => if String.eqb y x then true else arrayIncludes x rest
  end.

(** White space and line terminators removed by [String.prototype.trim],
    restricted to the code units below 256. *)
Definition isWhite (c : ascii) : bool :=
  let n := nat_of_ascii c in
  existsb (Nat.eqb n) [9; 10; 11; 12; 13; 32; 160]%nat.

Fixpoint trimStart (s : string) : string :=
  match s with
  | EmptyString => EmptyString
  | String c rest => if isWhite c then trimStart rest else s
  end.

(** [s.trim()] is empty exactly when [s] consists of white space, which
    is all the sources ask of it; the end is trimmed for completeness. *)
Fixpoint trimEnd (s : string) : string :=
  match s with
  | EmptyString => EmptyString
  | String c rest =>
      match trimEnd rest with
      | EmptyString => if isWhite c then EmptyString else String c EmptyString
      | r => String c r
      end
  end.

Definition trim (s : string) : string := trimEnd (trimStart s).

(** Decimal rendering of a non-negative integer inside a template. *)
Definition numberToString (n : nat) : string :=
  NilZero.string_of_uint (Nat.to_uint n).

(** [Array.prototype.sort] with a comparator: the sort is stable, so for
    a comparator that is a consistent ordering its result is the one of
    a stable insertion sort. [after a b] is the sign test [compare(a,b) > 0],
    that is, "a must come after b". *)
Section Sort.
Context {A : Type} (after : A -> A -> bool).

Fixpoint insertSorted (x : A) (l : list A) : list A :=
    match l with
    | [] => [x]
    | y :: rest => if after x y then y :: insertSorted x rest else x :: l
    end.

Definition sort (l : list A) : list A :=
    fold_right insertSorted [] l.
End Sort.

End Js.

(* ===================================================================== *)
(** ** Data model                                                         *)
(* ===================================================================== *)

Module Types.

(** The shared type declarations ([types.ts], which
    [contexts/LanguageContext.tsx] carries after the language context).
    A field the sources test against [undefined] is an [option]. *)
Inductive MessageSender : Type := USER | MODEL | SYSTEM.

Inductive AttachmentStatus : Type := StLoading | StLoaded | StError.

Record Attachment : Type := mkAttachment {
  att_id : string;
  att_name : string;
  att_type : string;
  att_data : option string;
  att_status : AttachmentStatus;
  att_errorMessage : option string
}.

Record CitationSource : Type := mkCitation {
  startIndex : option Z;
  endIndex : option Z;
  uri : option string;
  license : option string
}.

Record UrlContextMetadataItem : Type := mkUrlItem {
  retrievedUrl : string;
  urlRetrievalStatus : string
}.

Record ChatMessage : Type := mkMessage {
  msg_id : string;
  msg_text : string;
  msg_sender : MessageSender;
  msg_timestamp : Z;
  msg_isLoading : option bool;
  msg_attachments : option (list Attachment);
  msg_citations : option (list CitationSource);
  msg_urlContext : option (list UrlContextMetadataItem)
}.

Definition sender_eqb (a b : MessageSender) : bool :=
  match a, b with
  | USER, USER | MODEL, MODEL | SYSTEM, SYSTEM => true
  | _, _ => false
  end.

Definition status_eqb (a b : AttachmentStatus) : bool :=
  match a, b with
  | StLoading, StLoading | StLoaded, StLoaded | StError, StError => true
  | _, _ => false
  end.

End Types.

(* ===================================================================== *)
(** ** services/geminiService.ts                                          *)
(* ===================================================================== *)

Module Gemini.
Import Types.

Inductive Language : Type := ar | en.

(** The client object; its only state is the key it was built with. *)
Record GoogleGenAI : Type := mkClient { apiKey : string }.

(** What a [throw] can carry: an [Error] (with the [type] tag the catch
    blocks look at) or any other value. *)
Record JsError : Type := mkJsError { message : string; errType : option string }.

Inductive Thrown : Type :=
| ThrownError (e : JsError)
| ThrownOther.

Definition newError (msg : string) : Thrown :=
  ThrownError {| message := msg; errType := None |}.

Inductive Outcome (A : Type) : Type :=
| Returned (a : A)
| Threw (t : Thrown).
Arguments Returned {A} a.
Arguments Threw {A} t.

Definition MODEL_NAME : string := "gemini-2.5-flash".

(** [getAiInstance]: the module variable [ai] is threaded as state. The
    key is read from the environment and may be undefined; [!API_KEY]
    holds for an undefined and for an empty key. *)
Definition getAiInstance (API_KEY : option string) (ai : option GoogleGenAI)
  : Outcome GoogleGenAI * option GoogleGenAI :=
  match API_KEY with
  | Some key =>
      if Js.truthy key then
        match ai with
        | Some client => (Returned client, ai)
        | None => let client := {| apiKey := key |} in (Returned client, Some client)
        end
      else (Threw (newError "Gemini API Key not configured. Set process.env.API_KEY."), ai)
  | None => (Threw (newError "Gemini API Key not configured. Set process.env.API_KEY."), ai)
  end.

Definition safetySettings : list (string * string) :=
  [ ("HARM_CATEGORY_HARASSMENT", "BLOCK_MEDIUM_AND_ABOVE");
    ("HARM_CATEGORY_HATE_SPEECH", "BLOCK_MEDIUM_AND_ABOVE");
    ("HARM_CATEGORY_SEXUALLY_EXPLICIT", "BLOCK_MEDIUM_AND_ABOVE");
    ("HARM_CATEGORY_DANGEROUS_CONTENT", "BLOCK_MEDIUM_AND_ABOVE") ].

(** Request payload. *)
Inductive Part : Type :=
| TextPart (text : string)
| InlineData (mimeType data : string).

Record Content : Type := mkContent { role : string; parts : list Part }.

Record Request : Type := mkRequest {
  req_model : string;
  req_contents : list Content;
  req_systemInstruction : option string;
  req_tools : option (list (list string));
  req_safetySettings : list (string * string);
  req_responseMimeType : option string
}.

(** Response chunks, with the optional chains the generator walks. *)
Record CitationMetadata : Type := mkCitationMetadata {
  citationSources : option (list CitationSource)
}.

Record UrlContextMetadata : Type := mkUrlContextMetadata {
  urlMetadata : option (list UrlContextMetadataItem)
}.

Record Candidate : Type := mkCandidate {
  citationMetadata : option CitationMetadata;
  cand_urlContextMetadata : option UrlContextMetadata
}.

Record GenerateContentResponse : Type := mkResponse {
  resp_text : option string;
  candidates : option (list Candidate)
}.

(** The backend is an external collaborator: a stream is the chunks it
    delivers followed, possibly, by a failure; a stream that fails before
    its first chunk also stands for a rejected call. *)
Record BackendStream : Type := mkStream {
  chunks : list GenerateContentResponse;
  failure : option Thrown
}.

Record Backend : Type := mkBackend {
  generateContentStream : GoogleGenAI -> Request -> BackendStream;
  generateContent : GoogleGenAI -> Request -> Outcome GenerateContentResponse
}.

(** Module state and the log of backend calls made so far. *)
Record World : Type := mkWorld {
  ai : option GoogleGenAI;
  calls : list (GoogleGenAI * Request)
}.

(** The external decoders used by [createPartFromAttachment]; [None] is a
    thrown exception. *)
Record Decoders : Type := mkDecoders {
  atob : string -> option string;
  extractRawText : string -> option string;
  sheetsToCsv : string -> option (list (string * string))
}.

Definition fileBlock (prefix name body : string) : Part :=
  TextPart (Js.nl ++ Js.nl ++ "--- " ++ prefix ++ " Content from file: " ++ name
            ++ " ---" ++ Js.nl ++ body ++ Js.nl ++ "--- End of file: " ++ name
            ++ " ---" ++ Js.nl).

Definition fileError (name : string) : Part :=
  TextPart (Js.nl ++ Js.nl ++ "--- Error processing file: " ++ name
            ++ ". The file could not be read or is corrupted. ---" ++ Js.nl).

Definition supportedInlineTypes : list string :=
  ["image/jpeg"; "image/png"; "image/webp"; "application/pdf"].

Definition createPartFromAttachment (dec : Decoders) (attachment : Attachment)
    (prefix : string) : option Part :=
  let name := att_name attachment in
  let type := att_type attachment in
  match att_data attachment with
  | None => None
  | Some data =>
    if negb (Js.truthy data) then None
    else if String.prefix "text/" type then
      match atob dec data with
      | Some textContent => Some (fileBlock prefix name textContent)
      | None => Some (fileError name)
      end
    else if String.eqb type
        "application/vnd.openxmlformats-officedocument.wordprocessingml.document" then
      match atob dec data with
      | Some bytes =>
          match extractRawText dec bytes with
          | Some value => Some (fileBlock prefix name value)
          | None => Some (fileError name)
          end
      | None => Some (fileError name)
      end
    else if String.eqb type
        "application/vnd.openxmlformats-officedocument.spreadsheetml.sheet" then
      match sheetsToCsv dec data with
      | Some sheets =>
          let fullText :=
            fold_left (fun acc sheet =>
                         acc ++ Js.nl ++ Js.nl ++ "--- Sheet: " ++ fst sheet ++ " ---"
                             ++ Js.nl ++ snd sheet) sheets "" in
          Some (fileBlock prefix name fullText)
      | None => Some (fileError name)
      end
    else if Js.arrayIncludes type supportedInlineTypes then
      Some (InlineData type data)
    else None
  end.

Definition partTexts (ps : list (option Part)) : string :=
  String.concat ""
    (flat_map (fun p => match p with Some (TextPart t) => [t] | _ => [] end) ps).

Definition partData (ps : list (option Part)) : list Part :=
  flat_map (fun p => match p with Some (InlineData m d) => [InlineData m d] | _ => [] end) ps.

Definition isTrue (o : option bool) : bool :=
  match o with Some true => true | _ => false end.

(** The history loop: [isFirstUserMessage] is the threaded flag. *)
Fixpoint mapHistory (dec : Decoders) (contextTextContent : string)
    (isFirstUserMessage : bool) (history : list ChatMessage) : list Content :=
  match history with
  | [] => []
  | m :: rest =>
    if sender_eqb (msg_sender m) SYSTEM || isTrue (msg_isLoading m) then
      mapHistory dec contextTextContent isFirstUserMessage rest
    else
      let role := if sender_eqb (msg_sender m) USER then "user" else "model" in
      let resolved :=
        map (fun a => createPartFromAttachment dec a "User Upload")
            (filter (fun a => status_eqb (att_status a) StLoaded)
                    (match msg_attachments m with Some l => l | None => [] end)) in
      let attachmentTextContent := partTexts resolved in
      let dataParts := partData resolved in
      let prepend :=
        String.eqb role "user" && isFirstUserMessage && Js.truthy contextTextContent in
      let combined0 :=
        if prepend then contextTextContent ++ Js.nl ++ msg_text m else msg_text m in
      let combinedText :=
        if Js.truthy attachmentTextContent
        then combined0 ++ Js.nl ++ attachmentTextContent else combined0 in
      let ps :=
        ((if Js.truthy (Js.trim combinedText) then [TextPart combinedText] else [])
         ++ dataParts)%list in
      let rest' :=
        mapHistory dec contextTextContent
                   (if prepend then false else isFirstUserMessage) rest in
      match ps with
      | [] => rest'
      | _ => {| role := role; parts := ps |} :: rest'
      end
  end.

Definition systemInstruction (language : Language) : string :=
  "You are a helpful and precise assistant. Your primary function is to answer questions based *only* on the provided context from documentation URLs and knowledge base files."
  ++ Js.nl ++
  "- Your knowledge is strictly limited to the provided materials. Do not use any external knowledge."
  ++ Js.nl ++
  "- If the answer is not found in the context, you MUST state that the information is not available in the knowledge base."
  ++ Js.nl ++
  "- For every statement or fact you provide, you MUST cite the source from the context. Place a citation marker immediately after the statement it supports."
  ++ Js.nl ++
  "- Respond in " ++ (match language with ar => "Arabic" | en => "English" end)
  ++ ", matching the user's prompt language.".

Definition streamRequest (dec : Decoders) (history : list ChatMessage)
    (contextUrls : list string) (contextFiles : list Attachment)
    (language : Language) : Request :=
  let contextTextContent :=
    partTexts (map (fun f => createPartFromAttachment dec f "Knowledge Base") contextFiles) in
  {| req_model := MODEL_NAME;
     req_contents := mapHistory dec contextTextContent true history;
     req_systemInstruction := Some (systemInstruction language);
     req_tools := Some (match contextUrls with [] => [] | _ => [contextUrls] end);
     req_safetySettings := safetySettings;
     req_responseMimeType := None |}.

(** Items the generator yields. *)
Record StreamItem : Type := mkItem {
  textChunk : option string;
  urlContextMetadata : option (list UrlContextMetadataItem);
  citations : option (list CitationSource)
}.

Definition textItem (chunk : GenerateContentResponse) : StreamItem :=
  {| textChunk := resp_text chunk; urlContextMetadata := None; citations := None |}.

(** The item built from [finalResponse] after the loop:
    [candidates?.[0]], [citationMetadata?.citationSources] and the guarded
    [urlContextMetadata.urlMetadata] (an array is truthy even when empty). *)
Definition terminalItem (finalResponse : GenerateContentResponse) : StreamItem :=
  let candidate :=
    match candidates finalResponse with
    | Some (c :: _) => Some c
    | _ => None
    end in
  let cites :=
    match candidate with
    | Some c => match citationMetadata c with
                | Some md => citationSources md
                | None => None
                end
    | None => None
    end in
  let extractedUrlContextMetadata :=
    match candidate with
    | Some c => match cand_urlContextMetadata c with
                | Some md => urlMetadata md
                | None => None
                end
    | None => None
    end in
  {| textChunk := None;
     urlContextMetadata := extractedUrlContextMetadata;
     citations := cites |}.

(** The text deltas of a sequence of chunks: the texts that are neither
    undefined nor empty, in arrival order. *)
Definition deltasOf (cs : list GenerateContentResponse) : list string :=
  flat_map (fun chunk =>
              match resp_text chunk with
              | Some t => if Js.truthy t then [t] else []
              | None => []
              end) cs.

Definition deltaItem (t : string) : StreamItem :=
  {| textChunk := Some t; urlContextMetadata := None; citations := None |}.

(** The last chunk received, if any. *)
Definition lastChunk (cs : list GenerateContentResponse) : option GenerateContentResponse :=
  List.last (map Some cs) None.

(** The items that carry no text delta. *)
Definition terminalItems (items : list StreamItem) : list StreamItem :=
  filter (fun item => match textChunk item with Some _ => false | None => true end) items.

(** The catch block of the generator. *)
Definition rethrowStream (t : Thrown) : Thrown :=
  match t with
  | ThrownError e =>
      let msg := message e in
      if Js.truthy msg && Js.includes "API key not valid" msg then
        newError "Invalid API Key. Please check your GEMINI_API_KEY environment variable."
      else if Js.truthy msg && Js.includes "quota" msg then
        newError "API quota exceeded. Please check your Gemini API quota."
      else if
        match errType e with
        | Some ty => String.eqb ty "GoogleGenAIError"
        | None => false
        end && Js.truthy msg
      then newError ("Gemini API Error: " ++ msg)
      else newError ("Failed to get response from AI: " ++ msg)
  | ThrownOther => newError "Failed to get response from AI due to an unknown error."
  end.

(** The generator as a resumable computation. [GenFresh] is the generator
    object before its first [next()]; [GenLoop] is suspended at the
    [yield] inside the [for await] loop, holding the chunks not yet
    received and [finalResponse]; [GenTail] is suspended at the terminal
    [yield]; [GenClosed] has returned or thrown. *)
Inductive GenState : Type :=
| GenFresh
| GenLoop (rest : list GenerateContentResponse) (fail : option Thrown)
          (finalResponse : option GenerateContentResponse)
| GenTail
| GenClosed.

Inductive StepResult : Type :=
| Yielded (item : StreamItem)
| Done
| Raised (t : Thrown).

(** Run the loop from its current position up to the next suspension. *)
Fixpoint pump (rest : list GenerateContentResponse) (fail : option Thrown)
    (finalResponse : option GenerateContentResponse) : GenState * StepResult :=
  match rest with
  | chunk :: rest' =>
      if Js.truthy_opt (resp_text chunk)
      then (GenLoop rest' fail (Some chunk), Yielded (textItem chunk))
      else pump rest' fail (Some chunk)
  | [] =>
      match fail with
      | Some err => (GenClosed, Raised (rethrowStream err))
      | None =>
          match finalResponse with
          | Some final => (GenTail, Yielded (terminalItem final))
          | None => (GenClosed, Done)
          end
      end
  end.

(** The items the loop yields from a suspension point on when the stream
    ends without a failure, and the text items among them. *)
Fixpoint loopItems (rest : list GenerateContentResponse)
    (final : option GenerateContentResponse) : list StreamItem :=
  match rest with
  | [] => match final with Some f => [terminalItem f] | None => [] end
  | chunk :: rest' =>
      if Js.truthy_opt (resp_text chunk)
      then textItem chunk :: loopItems rest' (Some chunk)
      else loopItems rest' (Some chunk)
  end.

Fixpoint loopDeltas (rest : list GenerateContentResponse) : list StreamItem :=
  match rest with
  | [] => []
  | chunk :: rest' =>
      if Js.truthy_opt (resp_text chunk)
      then textItem chunk :: loopDeltas rest'
      else loopDeltas rest'
  end.

Section Generator.
Variable dec : Decoders.
Variable API_KEY : option string.
Variable backend : Backend.
Variable history : list ChatMessage.
Variable contextUrls : list string.
Variable contextFiles : list Attachment.
Variable language : Language.

(** One [next()] on [generateContentStreamWithUrlContext(...)]. *)
Definition next (w : World) (g : GenState) : World * GenState * StepResult :=
  match g with
  | GenFresh =>
      match getAiInstance API_KEY (ai w) with
      | (Threw t, ai') => ({| ai := ai'; calls := calls w |}, GenClosed, Raised t)
      | (Returned currentAi, ai') =>
          let req := streamRequest dec history contextUrls contextFiles language in
          let stream := generateContentStream backend currentAi req in
          let w' := {| ai := ai'; calls := (calls w ++ [(currentAi, req)])%list |} in
          let '(g', r) := pump (chunks stream) (failure stream) None in
          (w', g', r)
      end
  | GenLoop rest fail final =>
      let '(g', r) := pump rest fail final in (w, g', r)
  | GenTail => (w, GenClosed, Done)
  | GenClosed => (w, GenClosed, Done)
  end.

(** Number of [next()] calls that can still yield, used to drive the
    generator to its end. *)
Definition budget (w : World) (g : GenState) : nat :=
  match g with
  | GenFresh =>
      match getAiInstance API_KEY (ai w) with
      | (Returned currentAi, _) =>
          S (List.length (chunks (generateContentStream backend currentAi
                (streamRequest dec history contextUrls contextFiles language))))
      | _ => 0
      end
  | GenLoop rest _ _ => S (List.length rest)
  | GenTail => 0
  | GenClosed => 0
  end.

(** A consumer's [for await]: call [next] until it reports [Done] or
    throws, collecting the yielded items. *)
Fixpoint drive (fuel : nat) (w : World) (g : GenState)
  : World * list StreamItem * option (Outcome unit) :=
  match next w g with
  | (w', _, Done) => (w', [], Some (Returned tt))
  | (w', _, Raised t) => (w', [], Some (Threw t))
  | (w', g', Yielded item) =>
      match fuel with
      | O => (w', [item], None)
      | S fuel' =>
          let '(w'', items, out) := drive fuel' w' g' in
          (w'', item :: items, out)
      end
  end.

Definition forAwait (w : World) : World * list StreamItem * option (Outcome unit) :=
  drive (budget w GenFresh) w GenFresh.

(** The stream the backend hands back to the first [next()], when the
    credential check passes. *)
Definition streamOf (w : World) : option BackendStream :=
  match getAiInstance API_KEY (ai w) with
  | (Returned currentAi, _) =>
      Some (generateContentStream backend currentAi
              (streamRequest dec history contextUrls contextFiles language))
  | (Threw _, _) => None
  end.

End Generator.

(** [getInitialSuggestions]. *)
#[local] Unset Elimination Schemes.
Inductive Json : Type :=
| JString (s : string)
| JArray (items : list Json)
| JObject (fields : list (string * Json)).
#[local] Set Elimination Schemes.

Definition hexDigit (n : nat) : string :=
  String (ascii_of_nat (if n <? 10 then 48 + n else 87 + n)%nat) EmptyString.

Definition escapeChar (c : ascii) : string :=
  let n := nat_of_ascii c in
  if (n =? 34)%nat then "\" ++ Js.dq
  else if (n =? 92)%nat then "\\"
  else if (n =? 8)%nat then "\b"
  else if (n =? 12)%nat then "\f"
  else if (n =? 10)%nat then "\n"
  else if (n =? 13)%nat then "\r"
  else if (n =? 9)%nat then "\t"
  else if (n <? 32)%nat then "\u00" ++ hexDigit (n / 16) ++ hexDigit (n mod 16)
  else String c EmptyString.

Fixpoint escapeString (s : string) : string :=
  match s with
  | EmptyString => EmptyString
  | String c rest => escapeChar c ++ escapeString rest
  end.

Definition quoteString (s : string) : string := Js.dq ++ escapeString s ++ Js.dq.

(** [JSON.stringify] without indentation. *)
Fixpoint stringify (j : Json) : string :=
  match j with
  | JString s => quoteString s
  | JArray items => "[" ++ String.concat "," (map stringify items) ++ "]"
  | JObject fields =>
      "{" ++ String.concat ","
               (map (fun kv => quoteString (fst kv) ++ ":" ++ stringify (snd kv)) fields)
          ++ "}"
  end.

Definition placeholderSuggestions : Json :=
  JObject [("suggestions", JArray [JString "Add some URLs to get topic suggestions."])].

Definition suggestionPrompt (urls : list string) (language : Language) : string :=
  "Based on the content of the following documentation URLs, provide 3-4 concise and actionable questions a developer might ask to explore these documents. These questions should be suitable as quick-start prompts. Return ONLY a JSON object with a key "
  ++ Js.dq ++ "suggestions" ++ Js.dq ++
  " containing an array of these question strings. Respond in "
  ++ (match language with ar => "Arabic" | en => "English" end)
  ++ ". For example: {" ++ Js.dq ++ "suggestions" ++ Js.dq ++ ": ["
  ++ Js.dq ++ "What are the rate limits?" ++ Js.dq ++ ", "
  ++ Js.dq ++ "How do I get an API key?" ++ Js.dq ++ ", "
  ++ Js.dq ++ "Explain model X." ++ Js.dq ++ "]}"
  ++ Js.nl ++ Js.nl ++ "Relevant URLs:" ++ Js.nl ++ String.concat Js.nl urls.

(** The catch block of [getInitialSuggestions]. *)
Definition rethrowSuggestions (t : Thrown) : Thrown :=
  match t with
  | ThrownError e =>
      let msg := message e in
      if Js.truthy msg && Js.includes "API key not valid" msg then
        newError "Invalid API Key for suggestions. Please check your GEMINI_API_KEY environment variable."
      else if Js.truthy msg
              && Js.includes "Tool use with a response mime type: 'application/json' is unsupported" msg then
        newError "Configuration error: Cannot use tools with JSON response type for suggestions. This should be fixed in the code."
      else newError ("Failed to get initial suggestions from AI: " ++ msg)
  | ThrownOther =>
      newError "Failed to get initial suggestions from AI due to an unknown error."
  end.

(** The resolved value is [{ text }]; [response.text] may be undefined. *)
Definition getInitialSuggestions (API_KEY : option string) (backend : Backend)
    (w : World) (urls : list string) (language : Language)
  : World * Outcome (option string) :=
  match urls with
  | [] => (w, Returned (Some (stringify placeholderSuggestions)))
  | _ =>
      match getAiInstance API_KEY (ai w) with
      | (Threw t, ai') => ({| ai := ai'; calls := calls w |}, Threw t)
      | (Returned currentAi, ai') =>
          let req :=
            {| req_model := MODEL_NAME;
               req_contents :=
                 [ {| role := "user";
                      parts := [TextPart (suggestionPrompt urls language)] |} ];
               req_systemInstruction := None;
               req_tools := None;
               req_safetySettings := safetySettings;
               req_responseMimeType := Some "application/json" |} in
          let w' := {| ai := ai'; calls := (calls w ++ [(currentAi, req)])%list |} in
          match generateContent backend currentAi req with
          | Returned response => (w', Returned (resp_text response))
          | Threw err => (w', Threw (rethrowSuggestions err))
          end
      end
  end.

End Gemini.

(* ===================================================================== *)
(** ** components/MessageItem.tsx: [renderMessageContent]                 *)
(* ===================================================================== *)

Module MessageItem.
Import Types.

(** [sourceMap] is a [Map<string, number>]; its entries are kept in
    insertion order, which is the order [sourcesList] is rendered in. *)
Definition SourceMap : Type := list (string * nat).

Fixpoint mapGet (m : SourceMap) (key : string) : option nat :=
  match m with
  | [] => None
  | (k, v) :: rest => if String.eqb k key then Some v else mapGet rest key
  end.

Definition mapHas (m : SourceMap) (key : string) : bool :=
  match mapGet m key with Some _ => true | None => false end.

(** The two variables the closure [getSourceNumber] captures. *)
Record Numbering : Type := mkNumbering {
  sourceMap : SourceMap;
  sourceCounter : nat
}.

Definition initialNumbering : Numbering :=
  {| sourceMap := []; sourceCounter := 1 |}.

Definition getSourceNumber (st : Numbering) (uri : string) : Numbering * option nat :=
  let st' :=
    if mapHas (sourceMap st) uri then st
    else {| sourceMap := (sourceMap st ++ [(uri, sourceCounter st)])%list;
            sourceCounter := S (sourceCounter st) |} in
  (st', mapGet (sourceMap st') uri).

(** A citation that passed the filter
    [c.startIndex !== undefined && c.endIndex !== undefined && c.uri],
    with the three fields the loop body destructures. *)
Record Cite : Type := mkCite {
  cStart : Z;
  cEnd : Z;
  cUri : string
}.

Definition keepCitation (c : CitationSource) : list Cite :=
  match startIndex c, endIndex c, uri c with
  | Some s, Some e, Some u =>
      if Js.truthy u then [ {| cStart := s; cEnd := e; cUri := u |} ] else []
  | _, _, _ => []
  end.

(** The comparator [(a, b) => b.startIndex - a.startIndex] is positive,
    placing [a] after [b], exactly when [a] starts before [b]. *)
Definition startsBefore (a b : Cite) : bool := (cStart a <? cStart b)%Z.

Definition sortedCitations (citations : list CitationSource) : list Cite :=
  Js.sort startsBefore (flat_map keepCitation citations).

Definition showSourceNum (n : option nat) : string :=
  match n with
  | Some k => Js.numberToString k
  | None => "undefined"
  end.

Definition injection (uri : string) (sourceNum : option nat) : string :=
  "<sup><a href=" ++ Js.dq ++ uri ++ Js.dq
  ++ " target=" ++ Js.dq ++ "_blank" ++ Js.dq
  ++ " rel=" ++ Js.dq ++ "noopener noreferrer" ++ Js.dq
  ++ " title=" ++ Js.dq ++ uri ++ Js.dq
  ++ " class=" ++ Js.dq ++ "text-[#79B8FF] no-underline font-semibold" ++ Js.dq
  ++ ">[" ++ showSourceNum sourceNum ++ "]</a></sup>".

(** [processedText.slice(0, endIndex) + injection + processedText.slice(endIndex)]. *)
Definition insertAt (processedText : string) (endIndex : Z) (inj : string) : string :=
  Js.slice processedText 0 (Some endIndex) ++ inj ++ Js.slice processedText endIndex None.

(** State of the [forEach] over [sortedCitations]. *)
Record RenderState : Type := mkRenderState {
  numbering : Numbering;
  processedText : string
}.

Definition applyCitation (st : RenderState) (citation : Cite) : RenderState :=
  let '(nb, sourceNum) := getSourceNumber (numbering st) (cUri citation) in
  {| numbering := nb;
     processedText :=
       insertAt (processedText st) (cEnd citation) (injection (cUri citation) sourceNum) |}.

Definition processCitations (text : string) (sorted : list Cite) : RenderState :=
  fold_left applyCitation sorted
            {| numbering := initialNumbering; processedText := text |}.

(** What [renderMessageContent] hands to the markdown renderer or to the
    DOM; [marked.parse] itself is an external collaborator. *)
Inductive Rendered : Type :=
| WithCitations (markdownInput : string) (sourcesList : list (string * nat))
| ModelMarkdown (markdownInput : string)
| PlainText (text : string)
| Nothing.

Definition nonEmpty {A : Type} (o : option (list A)) : bool :=
  match o with Some (_ :: _) => true | _ => false end.

Definition renderMessageContent (message : ChatMessage) : Rendered :=
  let text := msg_text message in
  let isModel := sender_eqb (msg_sender message) MODEL in
  if isModel && nonEmpty (msg_citations message) && Js.truthy text then
    let st :=
      processCitations text
        (sortedCitations (match msg_citations message with Some l => l | None => [] end)) in
    WithCitations (processedText st) (sourceMap (numbering st))
  else if isModel then ModelMarkdown text
  else if negb (Js.truthy text) && nonEmpty (msg_attachments message) then Nothing
  else PlainText text.

(** The accumulated string a citation is inserted into: the text after
    the citations before it were applied. *)
Definition textBefore (text : string) (processed : list Cite) : string :=
  processedText (processCitations text processed).

(** The source number the loop body obtains for [citation] when the
    citations in [processed] were applied before it. *)
Definition numberAt (text : string) (processed : list Cite) (citation : Cite) : option nat :=
  snd (getSourceNumber (numbering (processCitations text processed)) (cUri citation)).

(** The insertion offset [endIndex] still designates the position it had
    in the original text when everything in front of it is unchanged. *)
Definition offsetIntact (text accumulated : string) (endIndex : Z) : Prop :=
  Js.slice accumulated 0 (Some endIndex) = Js.slice text 0 (Some endIndex).

(** Reference numbering, first-seen order: the distinct uris in order of
    first occurrence, and the position of a uri in that list. *)
Fixpoint firstSeenFrom (seen : list string) (uris : list string) : list string :=
  match uris with
  | [] => seen
  | u :: rest =>
      if Js.arrayIncludes u seen then firstSeenFrom seen rest
      else firstSeenFrom (seen ++ [u])%list rest
  end.

Definition firstSeen (uris : list string) : list string := firstSeenFrom [] uris.

Fixpoint indexOf (u : string) (l : list string) : option nat :=
  match l with
  | [] => None
  | x :: rest =>
      if String.eqb x u then Some 0
      else match indexOf u rest with Some i => Some (S i) | None => None end
  end.

(** Processing order: descending [startIndex]. *)
Definition startsNoLater (a b : Cite) : Prop := (cStart b <= cStart a)%Z.

(** The numbering state after the uris in [seen] were met, in that order. *)
Definition Numbered (seen : list string) (nb : Numbering) : Prop :=
  sourceMap nb = combine seen (seq 1 (List.length seen))
  /\ sourceCounter nb = S (List.length seen).

End MessageItem.

(* ===================================================================== *)
(** ** Conversation repository                                            *)
(* ===================================================================== *)

Module Repository.
Import Types.

(** The [Conversation] record of [types.ts]. *)
Record Conversation : Type := mkConversation {
  conv_id : string;
  conv_name : string;
  conv_urls : list string;
  conv_files : list Attachment;
  conv_messages : list ChatMessage;
  conv_lastUpdated : Z
}.

Definition itemCount (c : Conversation) : nat :=
  List.length (conv_urls c) + List.length (conv_files c).

(** A file handed over by the browser ([File]): the sources read its
    name and MIME type. *)
Record File : Type := mkFile {
  file_name : string;
  file_type : string
}.

(** The updater of [handleAddUrl] ([App.tsx]): the conversation is left
    as it is when the combined count has reached [maxContextItems] or
    the url is already in the list, by [Array.includes]; otherwise the
    url is appended and [lastUpdated] is set to [Date.now()]. The test
    [count < max && !includes] is written as its two refusals;
    [App.addUrlUpdater] below is the same function written as the source
    has it. *)
Definition addUrl (maxContextItems : nat) (now : Z) (url : string)
    (c : Conversation) : Conversation :=
  if (maxContextItems <=? itemCount c)%nat then c
  else if Js.arrayIncludes url (conv_urls c) then c
  else {| conv_id := conv_id c;
          conv_name := conv_name c;
          conv_urls := (conv_urls c ++ [url])%list;
          conv_files := conv_files c;
          conv_messages := conv_messages c;
          conv_lastUpdated := now |}.

(** [conversations.findIndex(c => c.id === id)]; [None] is -1. *)
Fixpoint findIndex (id : string) (l : list Conversation) : option nat :=
  match l with
  | [] => None
  | c :: rest =>
      if String.eqb (conv_id c) id then Some 0%nat
      else match findIndex id rest with Some i => Some (S i) | None => None end
  end.

(** The list without its element at index [i]. *)
Definition removeAt {A : Type} (i : nat) (l : list A) : list A :=
  (firstn i l ++ skipn (S i) l)%list.

End Repository.

(* ===================================================================== *)
(** ** Knowledge-base panel ([KnowledgeBaseManager])                      *)
(* ===================================================================== *)

Module KnowledgeBase.
Import Types Repository.

(** The localized messages the panel can show, by translation key and
    parameters. *)
Inductive ErrorText : Type :=
| errorUrlEmpty
| errorUrlInvalid
| errorMaxItemsReached (maxItems : nat)
| errorUrlExists
| errorCannotAddAllFiles (maxItems : nat)
| errorFileUnsupported (fileName : string)
| errorFileExists (fileName : string).

(** Local state of the component that the two handlers touch. *)
Record Panel : Type := mkPanel {
  currentUrlInput : string;
  error : option ErrorText
}.

Definition supportedTypes : list string :=
  [ "image/jpeg"; "image/png"; "image/webp";
    "text/plain"; "text/markdown"; "application/pdf";
    "application/vnd.openxmlformats-officedocument.wordprocessingml.document";
    "application/vnd.openxmlformats-officedocument.spreadsheetml.sheet" ].

Section Handlers.
(** [isValidUrl] wraps the platform URL parser, an external collaborator. *)
Variable isValidUrl : string -> bool.
(** Props: the url and file lists of the active conversation and the limit. *)
Variable urls : list string.
Variable files : list Attachment.
Variable maxItems : nat.

Definition totalItems : nat := List.length urls + List.length files.

(** [handleAddUrlClick]: the new panel state and the argument of the
    [onAddUrl] call, if it is made. *)
Definition handleAddUrlClick (p : Panel) : Panel * option string :=
  let input := currentUrlInput p in
  if negb (Js.truthy (Js.trim input)) then
    ({| currentUrlInput := input; error := Some errorUrlEmpty |}, None)
  else if negb (isValidUrl input) then
    ({| currentUrlInput := input; error := Some errorUrlInvalid |}, None)
  else if (maxItems <=? totalItems)%nat then
    ({| currentUrlInput := input; error := Some (errorMaxItemsReached maxItems) |}, None)
  else if Js.arrayIncludes input urls then
    ({| currentUrlInput := input; error := Some errorUrlExists |}, None)
  else ({| currentUrlInput := ""; error := None |}, Some input).

(** The [forEach] of [handleFilesSelected]: the last error set and the
    files kept. *)
Definition checkFile (acc : option ErrorText * list File) (file : File)
  : option ErrorText * list File :=
  let '(err, filesToProcess) := acc in
  if negb (Js.arrayIncludes (file_type file) supportedTypes) then
    (Some (errorFileUnsupported (file_name file)), filesToProcess)
  else if existsb (fun existingFile => String.eqb (att_name existingFile) (file_name file)) files then
    (Some (errorFileExists (file_name file)), filesToProcess)
  else (err, (filesToProcess ++ [file])%list).

(** [handleFilesSelected]: the new panel state and the argument of the
    [onAddFiles] call, if it is made. [None] is a null [FileList]. *)
Definition handleFilesSelected (p : Panel) (selectedFiles : option (list File))
  : Panel * option (list File) :=
  match selectedFiles with
  | None => ({| currentUrlInput := currentUrlInput p; error := None |}, None)
  | Some selected =>
      if (maxItems <? totalItems + List.length selected)%nat then
        ({| currentUrlInput := currentUrlInput p;
            error := Some (errorCannotAddAllFiles maxItems) |}, None)
      else
        let '(err, filesToProcess) := fold_left checkFile selected (None, []) in
        ({| currentUrlInput := currentUrlInput p; error := err |},
         match filesToProcess with
         | [] => None
         | _ => Some filesToProcess
         end)
  end.

End Handlers.

(** The panel after an accepted click and after a click refused for
    the limit. *)
Definition acceptedPanel : Panel := {| currentUrlInput := ""; error := None |}.

Definition limitPanel (maxItems : nat) (input : string) : Panel :=
  {| currentUrlInput := input; error := Some (errorMaxItemsReached maxItems) |}.

Definition emptyConversation : Conversation :=
  {| conv_id := "conv";
     conv_name := "New Conversation";
     conv_urls := [];
     conv_files := [];
     conv_messages := [];
     conv_lastUpdated := 0 |}.

End KnowledgeBase.

(* ===================================================================== *)
(** ** components/ChatInterface.tsx: the attachment list                  *)
(* ===================================================================== *)

Module ChatInterface.
Import Types Repository.

(** The updater functions handed to [setAttachments]. *)
Inductive Update : Type :=
| UAppend (added : list Attachment)
| UMarkError (id : string) (errorMessage : string)
| UMarkLoaded (id : string) (data : string)
| URemove (id : string)
| UClear.

Definition setError (errorMessage : string) (att : Attachment) : Attachment :=
  {| att_id := att_id att;
     att_name := att_name att;
     att_type := att_type att;
     att_data := att_data att;
     att_status := StError;
     att_errorMessage := Some errorMessage |}.

Definition setLoaded (data : string) (att : Attachment) : Attachment :=
  {| att_id := att_id att;
     att_name := att_name att;
     att_type := att_type att;
     att_data := Some data;
     att_status := StLoaded;
     att_errorMessage := att_errorMessage att |}.

Definition applyUpdate (u : Update) (prev : list Attachment) : list Attachment :=
  match u with
  | UAppend added => (prev ++ added)%list
  | UMarkError id errorMessage =>
      map (fun att => if String.eqb (att_id att) id then setError errorMessage att else att) prev
  | UMarkLoaded id data =>
      map (fun att => if String.eqb (att_id att) id then setLoaded data att else att) prev
  | URemove idToRemove =>
      filter (fun att => negb (String.eqb (att_id att) idToRemove)) prev
  | UClear => []
  end.

(** The placeholder [handleFiles] builds for a file; [now] is the clock
    reading taken while mapping over that file. *)
Definition filePlaceholder (file : File) (now : nat) : Attachment :=
  {| att_id := "att-" ++ file_name file ++ "-" ++ Js.numberToString now;
     att_name := file_name file;
     att_type := file_type file;
     att_data := None;
     att_status := StLoading;
     att_errorMessage := None |}.

Definition isSupported (a : Attachment) : bool :=
  Js.arrayIncludes (att_type a) KnowledgeBase.supportedTypes.

(** [handleFiles]: the updates it queues, in order, and the ids of the
    placeholders for which a [FileReader] was started. *)
Definition handleFiles (files : list (File * nat)) : list Update * list string :=
  let newPlaceholders := map (fun fn => filePlaceholder (fst fn) (snd fn)) files in
  (UAppend newPlaceholders
     :: flat_map (fun ph => if isSupported ph then []
                            else [UMarkError (att_id ph) "Unsupported file type"])
                 newPlaceholders,
   map att_id (filter isSupported newPlaceholders)).

(** [s.split(',')[1]]: the text between the first and the second comma. *)
Fixpoint untilComma (s : string) : string :=
  match s with
  | EmptyString => EmptyString
  | String c rest => if Ascii.eqb c ","%char then EmptyString else String c (untilComma rest)
  end.

Fixpoint splitSecond (s : string) : option string :=
  match s with
  | EmptyString => None
  | String c rest => if Ascii.eqb c ","%char then Some (untilComma rest) else splitSecond rest
  end.

(** [reader.onload]: [result] is the data URL, possibly null. *)
Definition readerOnload (placeholderId : string) (result : option string) : Update :=
  match match result with Some r => splitSecond r | None => None end with
  | Some base64Data =>
      if Js.truthy base64Data then UMarkLoaded placeholderId base64Data
      else UMarkError placeholderId "Failed to read file"
  | None => UMarkError placeholderId "Failed to read file"
  end.

Definition readerOnerror (placeholderId : string) : Update :=
  UMarkError placeholderId "Failed to read file".

(** The attachment [EmbeddedCameraView.handleCapture] hands to
    [onCapture]; [base64Data] is [dataUrl.split(',')[1]]. *)
Definition captureAttachment (now : nat) (base64Data : option string) : Attachment :=
  {| att_id := "capture-" ++ Js.numberToString now;
     att_name := "capture.jpg";
     att_type := "image/jpeg";
     att_data := base64Data;
     att_status := StLoaded;
     att_errorMessage := None |}.

(** What can happen to the attachment list. *)
Inductive Event : Type :=
| EvFiles (files : list (File * nat))
| EvReaderLoad (placeholderId : string) (result : option string)
| EvReaderError (placeholderId : string)
| EvRemove (id : string)
| EvCapture (now : nat) (dataUrl : string)
| EvSend.

(** The attachment list and the placeholders whose reader has not fired. *)
Record State : Type := mkState {
  attachments : list Attachment;
  readers : list string
}.

Definition initial : State := {| attachments := []; readers := [] |}.

Fixpoint removeOne (id : string) (l : list string) : list string :=
  match l with
  | [] => []
  | x :: rest => if String.eqb x id then rest else x :: removeOne id rest
  end.

(** The updates an event queues and the readers left in flight. A reader
    fires [onload] or [onerror] once, for the placeholder it was started
    for. *)
Definition react (s : State) (e : Event) : list Update * list string :=
  match e with
  | EvFiles files =>
      let '(us, started) := handleFiles files in (us, (readers s ++ started)%list)
  | EvReaderLoad id result => ([readerOnload id result], removeOne id (readers s))
  | EvReaderError id => ([readerOnerror id], removeOne id (readers s))
  | EvRemove id => ([URemove id], readers s)
  | EvCapture now dataUrl =>
      ([UAppend [captureAttachment now (splitSecond dataUrl)]], readers s)
  | EvSend => ([UClear], readers s)
  end.

Definition step (s : State) (e : Event) : State :=
  let '(us, rs) := react s e in
  {| attachments := fold_left (fun prev u => applyUpdate u prev) us (attachments s);
     readers := rs |}.



Definition ids (atts : list Attachment) : list string := map att_id atts.





(** Ids given to new attachments are distinct from each other and from
    every id in use. *)
Definition freshIds (s : State) (new : list string) : Prop :=
  NoDup new
  /\ forall id, In id new -> ~ In id (ids (attachments s)) /\ ~ In id (readers s).

(** Events that can occur in a state: a reader fires only if it was
    started and has not fired yet; new attachments get fresh ids. *)
Definition allowed (s : State) (e : Event) : Prop :=
  match e with
  | EvFiles files =>
      freshIds s (ids (map (fun fn => filePlaceholder (fst fn) (snd fn)) files))
  | EvReaderLoad id _ => In id (readers s)
  | EvReaderError id => In id (readers s)
  | EvCapture now dataUrl =>
      freshIds s [att_id (captureAttachment now (splitSecond dataUrl))]
  | EvRemove _ => True
  | EvSend => True
  end.






End ChatInterface.

(* ===================================================================== *)
(** ** Language context ([LanguageContext.tsx]): the translation function *)
(* ===================================================================== *)

Module Language.

(** Position of the first occurrence of [pattern] in [s], as the text
    before it and the text after it. *)
Fixpoint splitAtFirst (pattern s : string) : option (string * string) :=
  if String.prefix pattern s
  then Some (EmptyString, substring (String.length pattern)
                                    (String.length s - String.length pattern) s)
  else match s with
       | EmptyString => None
       | String c rest =>
           match splitAtFirst pattern rest with
           | Some (before, after) => Some (String c before, after)
           | None => None
           end
       end.

(** Expansion of a replacement template for a string pattern, which has
    no capture groups: [$$] is a dollar sign, [$&] the matched text,
    [$`] the text before the match and [$'] the text after it; any other
    use of the dollar sign stands for itself. *)
Fixpoint getSubstitution (matched before after template : string) : string :=
  match template with
  | EmptyString => EmptyString
  | String c rest =>
      if Ascii.eqb c "$"%char then
        match rest with
        | String d rest' =>
            if Ascii.eqb d "$"%char
            then "$" ++ getSubstitution matched before after rest'
            else if Ascii.eqb d "&"%char
            then matched ++ getSubstitution matched before after rest'
            else if Ascii.eqb d "`"%char
            then before ++ getSubstitution matched before after rest'
            else if Ascii.eqb d "'"%char
            then after ++ getSubstitution matched before after rest'
            else String c (getSubstitution matched before after rest)
        | EmptyString => String c EmptyString
        end
      else String c (getSubstitution matched before after rest)
  end.

(** [s.replace(pattern, replacement)] with a string pattern: only the
    first occurrence is replaced. *)
Definition replace (pattern replacement s : string) : string :=
  match splitAtFirst pattern s with
  | Some (before, after) =>
      before ++ getSubstitution pattern before after replacement ++ after
  | None => s
  end.

(** [t(key, replacements)]. [langTranslations] is the dictionary of the
    current language, [None] while the translation files are not loaded;
    a dictionary is a lookup function (the keys the application uses
    name no inherited member of the object). [replacements] lists the
    entries of the replacements object in the order of [Object.keys],
    their values already converted by [String(...)]; [None] is an
    omitted argument. *)
Definition t (langTranslations : option (string -> option string)) (key : string)
    (replacements : option (list (string * string))) : string :=
  match langTranslations with
  | None => key
  | Some dictionary =>
      let translation :=
        match dictionary key with
        | Some text => if Js.truthy text then text else key
        | None => key
        end in
      match replacements with
      | Some entries =>
          fold_left (fun translation entry =>
                       replace ("{" ++ fst entry ++ "}") (snd entry) translation)
                    entries translation
      | None => translation
      end
  end.

End Language.

(* ===================================================================== *)
(** ** The application controller ([App.tsx])                             *)
(* ===================================================================== *)

Module App.
Import Types Repository.

(** The state the controller keeps with [useState]. *)
Record State : Type := mkState {
  conversations : list Conversation;
  activeConversationId : string;
  maxContextItems : nat;
  isLoading : bool;
  isFetchingSuggestions : bool;
  initialQuerySuggestions : list string
}.

Definition setConversations (cs : list Conversation) (s : State) : State :=
  {| conversations := cs;
     activeConversationId := activeConversationId s;
     maxContextItems := maxContextItems s;
     isLoading := isLoading s;
     isFetchingSuggestions := isFetchingSuggestions s;
     initialQuerySuggestions := initialQuerySuggestions s |}.

Definition setActiveConversationId (id : string) (s : State) : State :=
  {| conversations := conversations s;
     activeConversationId := id;
     maxContextItems := maxContextItems s;
     isLoading := isLoading s;
     isFetchingSuggestions := isFetchingSuggestions s;
     initialQuerySuggestions := initialQuerySuggestions s |}.

Definition setIsLoading (b : bool) (s : State) : State :=
  {| conversations := conversations s;
     activeConversationId := activeConversationId s;
     maxContextItems := maxContextItems s;
     isLoading := b;
     isFetchingSuggestions := isFetchingSuggestions s;
     initialQuerySuggestions := initialQuerySuggestions s |}.

Definition setIsFetchingSuggestions (b : bool) (s : State) : State :=
  {| conversations := conversations s;
     activeConversationId := activeConversationId s;
     maxContextItems := maxContextItems s;
     isLoading := isLoading s;
     isFetchingSuggestions := b;
     initialQuerySuggestions := initialQuerySuggestions s |}.

Definition setInitialQuerySuggestions (l : list string) (s : State) : State :=
  {| conversations := conversations s;
     activeConversationId := activeConversationId s;
     maxContextItems := maxContextItems s;
     isLoading := isLoading s;
     isFetchingSuggestions := isFetchingSuggestions s;
     initialQuerySuggestions := l |}.

(** Spreads of a conversation with one or two fields replaced. *)
Definition withName (name : string) (lastUpdated : Z) (c : Conversation) : Conversation :=
  {| conv_id := conv_id c; conv_name := name; conv_urls := conv_urls c;
     conv_files := conv_files c; conv_messages := conv_messages c;
     conv_lastUpdated := lastUpdated |}.

Definition withUrls (urls : list string) (lastUpdated : Z) (c : Conversation) : Conversation :=
  {| conv_id := conv_id c; conv_name := conv_name c; conv_urls := urls;
     conv_files := conv_files c; conv_messages := conv_messages c;
     conv_lastUpdated := lastUpdated |}.

Definition withFiles (files : list Attachment) (lastUpdated : Z) (c : Conversation)
  : Conversation :=
  {| conv_id := conv_id c; conv_name := conv_name c; conv_urls := conv_urls c;
     conv_files := files; conv_messages := conv_messages c;
     conv_lastUpdated := lastUpdated |}.

Definition withMessages (messages : list ChatMessage) (lastUpdated : Z) (c : Conversation)
  : Conversation :=
  {| conv_id := conv_id c; conv_name := conv_name c; conv_urls := conv_urls c;
     conv_files := conv_files c; conv_messages := messages;
     conv_lastUpdated := lastUpdated |}.

(** [conversations.find(c => c.id === activeConversationId) || conversations[0]]. *)
Definition activeConversation (s : State) : option Conversation :=
  match List.find (fun c => String.eqb (conv_id c) (activeConversationId s))
                  (conversations s) with
  | Some c => Some c
  | None => hd_error (conversations s)
  end.

Definition chatMessages (s : State) : list ChatMessage :=
  match activeConversation s with Some c => conv_messages c | None => [] end.

Definition contextUrls (s : State) : list string :=
  match activeConversation s with Some c => conv_urls c | None => [] end.

Definition contextFiles (s : State) : list Attachment :=
  match activeConversation s with
  | Some c => filter (fun f => status_eqb (att_status f) StLoaded) (conv_files c)
  | None => []
  end.

(** The updater [updateActiveConversation] hands to [setConversations];
    [id] is the [activeConversationId] of the render the caller belongs
    to. *)
Definition updateConversation (id : string) (updater : Conversation -> Conversation)
    (prev : list Conversation) : list Conversation :=
  map (fun c => if String.eqb (conv_id c) id then updater c else c) prev.

Definition updateActiveConversation (updater : Conversation -> Conversation) (s : State)
  : State :=
  setConversations (updateConversation (activeConversationId s) updater (conversations s)) s.

(** The comparator [(a, b) => b.lastUpdated - a.lastUpdated] places [a]
    after [b] when [a] was updated earlier. *)
Definition updatedEarlier (a b : Conversation) : bool :=
  (conv_lastUpdated a <? conv_lastUpdated b)%Z.

Definition systemMessage (id text : string) (timestamp : Z) : ChatMessage :=
  {| msg_id := id; msg_text := text; msg_sender := SYSTEM; msg_timestamp := timestamp;
     msg_isLoading := None; msg_attachments := None; msg_citations := None;
     msg_urlContext := None |}.

(** [handleNewConversation]: [welcome] is the translated text of the
    welcome message for the trimmed name; the three clock readings are
    the two calls of [Date.now()] and the [new Date()]. *)
Definition handleNewConversation (welcome : string -> string) (name : string)
    (idClock updatedClock : nat) (timestamp : Z) (s : State) : State :=
  if negb (Js.truthy (Js.trim name)) then s
  else
    let newId := "conv-" ++ Js.numberToString idClock in
    let newConversation :=
      {| conv_id := newId;
         conv_name := Js.trim name;
         conv_urls := [];
         conv_files := [];
         conv_messages :=
           [systemMessage ("system-welcome-" ++ newId) (welcome (Js.trim name)) timestamp];
         conv_lastUpdated := Z.of_nat updatedClock |} in
    setActiveConversationId newId
      (setConversations
         (Js.sort updatedEarlier (conversations s ++ [newConversation])%list) s).

(** [handleDeleteConversation]; [findIndex] gives -1 when no conversation
    has the active id. *)
Definition handleDeleteConversation (s : State) : State :=
  if (List.length (conversations s) <=? 1)%nat then s
  else
    let activeIndex : Z :=
      match findIndex (activeConversationId s) (conversations s) with
      | Some i => Z.of_nat i
      | None => (-1)%Z
      end in
    let newConversations :=
      filter (fun c => negb (String.eqb (conv_id c) (activeConversationId s)))
             (conversations s) in
    let nextActiveIndex0 := if (0 <? activeIndex)%Z then (activeIndex - 1)%Z else 0%Z in
    let nextActiveIndex :=
      if (Z.of_nat (List.length newConversations) <=? nextActiveIndex0)%Z
      then (Z.of_nat (List.length newConversations) - 1)%Z
      else nextActiveIndex0 in
    let nextActiveId :=
      if (nextActiveIndex <? 0)%Z then ""
      else match nth_error newConversations (Z.to_nat nextActiveIndex) with
           | Some c => conv_id c
           | None => ""
           end in
    setActiveConversationId nextActiveId (setConversations newConversations s).

Definition handleRenameConversation (newName : string) (now : Z) (s : State) : State :=
  if negb (Js.truthy (Js.trim newName)) then s
  else updateActiveConversation (withName (Js.trim newName) now) s.

Definition addUrlUpdater (maxItems : nat) (url : string) (now : Z) (c : Conversation)
  : Conversation :=
  if (List.length (conv_urls c) + List.length (conv_files c) <? maxItems)%nat
     && negb (Js.arrayIncludes url (conv_urls c))
  then withUrls (conv_urls c ++ [url])%list now c
  else c.

Definition handleAddUrl (url : string) (now : Z) (s : State) : State :=
  updateActiveConversation (addUrlUpdater (maxContextItems s) url now) s.

Definition handleRemoveUrl (urlToRemove : string) (now : Z) (s : State) : State :=
  updateActiveConversation
    (fun c => withUrls (filter (fun url => negb (String.eqb url urlToRemove)) (conv_urls c))
                       now c) s.

(** The placeholder [handleAddFiles] builds for a file; [now] is the
    clock reading taken while mapping over that file. *)
Definition kbPlaceholder (file : File) (now : nat) : Attachment :=
  {| att_id := "file-" ++ file_name file ++ "-" ++ Js.numberToString now;
     att_name := file_name file;
     att_type := file_type file;
     att_data := None;
     att_status := StLoading;
     att_errorMessage := None |}.

(** The synchronous part of [handleAddFiles]: the placeholders are
    appended and [lastUpdated] is left alone. One reader is started per
    file. *)
Definition addFilesUpdater (files : list (File * nat)) (c : Conversation) : Conversation :=
  withFiles (conv_files c ++ map (fun fn => kbPlaceholder (fst fn) (snd fn)) files)%list
            (conv_lastUpdated c) c.

Definition handleAddFiles (files : list (File * nat)) (s : State) : State :=
  updateActiveConversation (addFilesUpdater files) s.

(** [handleUpdateFile], as called from a reader started while the
    conversation [id] was active. *)
Definition handleUpdateFile (id : string) (updatedFile : Attachment) (now : Z)
    (prev : list Conversation) : list Conversation :=
  updateConversation id
    (fun c => withFiles
                (map (fun f => if String.eqb (att_id f) (att_id updatedFile)
                               then updatedFile else f) (conv_files c))
                now c) prev.

(** [reader.onload] of [handleAddFiles]: [{...placeholder, status:
    'loaded', data: base64Data}]; the data is whatever follows the first
    comma of the result, possibly undefined. *)
Definition kbLoaded (placeholder : Attachment) (result : string) : Attachment :=
  {| att_id := att_id placeholder;
     att_name := att_name placeholder;
     att_type := att_type placeholder;
     att_data := ChatInterface.splitSecond result;
     att_status := StLoaded;
     att_errorMessage := att_errorMessage placeholder |}.

(** [reader.onerror] of [handleAddFiles]. *)
Definition kbFailed (placeholder : Attachment) : Attachment :=
  {| att_id := att_id placeholder;
     att_name := att_name placeholder;
     att_type := att_type placeholder;
     att_data := att_data placeholder;
     att_status := StError;
     att_errorMessage := Some "Failed to read file." |}.

Definition handleRemoveFile (fileIdToRemove : string) (now : Z) (s : State) : State :=
  updateActiveConversation
    (fun c => withFiles
                (filter (fun file => negb (String.eqb (att_id file) fileIdToRemove))
                        (conv_files c))
                now c) s.

End App.

(* ===================================================================== *)
(** ** Add operations: the panel's guard followed by the controller      *)
(* ===================================================================== *)

Module ContextAdd.
Import Types Repository KnowledgeBase.

(** A URL-add operation: the click handler run against the active
    conversation, followed by the updater of [handleAddUrl] when the
    handler calls [onAddUrl]. *)
Definition urlAdd (isValidUrl : string -> bool) (maxItems : nat) (now : Z)
    (c : Conversation) (p : Panel) : Conversation * Panel :=
  match handleAddUrlClick isValidUrl (conv_urls c) (conv_files c) maxItems p with
  | (p', Some url) => (addUrl maxItems now url c, p')
  | (p', None) => (c, p')
  end.

(** The files handed to [handleAddFiles], each with the reading of
    [Date.now()] taken while it is mapped to its placeholder; [clock i]
    is the reading for the file at index [i]. *)
Definition stamped (clock : nat -> nat) (files : list File) : list (File * nat) :=
  combine files (map clock (seq 0 (List.length files))).

(** A file-add operation: the selection handler run against the active
    conversation, followed by the updater of [handleAddFiles] when the
    handler calls [onAddFiles]. *)
Definition fileAdd (clock : nat -> nat) (maxItems : nat)
    (c : Conversation) (p : Panel) (selectedFiles : option (list File))
  : Conversation * Panel :=
  match handleFilesSelected (conv_urls c) (conv_files c) maxItems p selectedFiles with
  | (p', Some filesToProcess) => (App.addFilesUpdater (stamped clock filesToProcess) c, p')
  | (p', None) => (c, p')
  end.

(** Typing each url of a list into the input and clicking Add, in turn;
    the panel states after each click are collected. *)
Fixpoint addUrls (isValidUrl : string -> bool) (maxItems : nat) (now : Z)
    (c : Conversation) (inputs : list string) : Conversation * list Panel :=
  match inputs with
  | [] => (c, [])
  | input :: rest =>
      let '(c', p') :=
        urlAdd isValidUrl maxItems now c {| currentUrlInput := input; error := None |} in
      let '(c'', ps) := addUrls isValidUrl maxItems now c' rest in
      (c'', p' :: ps)
  end.

End ContextAdd.

(* ===================================================================== *)
(** ** The application controller: sending and streaming ([App.tsx])      *)
(* ===================================================================== *)

Module Response.
Import Types Repository App.

(** What the asynchronous part of [_triggerModelResponse] keeps from the
    render it was called in: the id of the conversation that was active,
    the placeholder, and the arguments of the generator. *)
Record Pending : Type := mkPending {
  pendingConversation : string;
  placeholder : ChatMessage;
  pendingHistory : list ChatMessage;
  pendingUrls : list string;
  pendingFiles : list Attachment
}.

Definition modelPlaceholderMessage (idClock : nat) (timestamp : Z) : ChatMessage :=
  {| msg_id := "model-response-" ++ Js.numberToString idClock;
     msg_text := "";
     msg_sender := MODEL;
     msg_timestamp := timestamp;
     msg_isLoading := Some true;
     msg_attachments := None;
     msg_citations := None;
     msg_urlContext := None |}.

Definition apiKeyError (idClock : nat) (timestamp : Z) : ChatMessage :=
  systemMessage ("error-apikey-" ++ Js.numberToString idClock)
    "ERROR: API Key (process.env.API_KEY) is not configured. Please set it up to send messages."
    timestamp.

Definition appendMessage (m : ChatMessage) (lastUpdated : Z) (c : Conversation)
  : Conversation :=
  withMessages (conv_messages c ++ [m])%list lastUpdated c.

(** The synchronous part of [_triggerModelResponse(historyForApi)], up to
    the creation of the generator. [idClock] and [timestamp] are the
    clock readings for the message that is appended, [updated] the one
    for [lastUpdated]. *)
Definition triggerModelResponse (API_KEY : option string)
    (historyForApi : list ChatMessage) (idClock : nat) (timestamp updated : Z)
    (s : State) : State * option Pending :=
  if isLoading s || isFetchingSuggestions s then (s, None)
  else if negb (Js.truthy_opt API_KEY) then
    (updateActiveConversation
       (fun c => appendMessage (apiKeyError idClock timestamp) (conv_lastUpdated c) c) s,
     None)
  else
    let ph := modelPlaceholderMessage idClock timestamp in
    (updateActiveConversation (appendMessage ph updated)
       (setInitialQuerySuggestions [] (setIsLoading true s)),
     Some {| pendingConversation := activeConversationId s;
             placeholder := ph;
             pendingHistory := historyForApi;
             pendingUrls := contextUrls s;
             pendingFiles := contextFiles s |}).

(** The three local variables of the [for await] loop. *)
Record Progress : Type := mkProgress {
  fullText : string;
  finalCitations : option (list CitationSource);
  finalUrlContext : option (list UrlContextMetadataItem)
}.

Definition noProgress : Progress :=
  {| fullText := ""; finalCitations := None; finalUrlContext := None |}.

(** Updates of the message whose id is the placeholder's, inside the
    conversation that was active when the response was triggered. *)
Definition updatePlaceholder (p : Pending) (f : ChatMessage -> ChatMessage)
    (prev : list Conversation) : list Conversation :=
  updateConversation (pendingConversation p)
    (fun c => withMessages
                (map (fun msg => if String.eqb (msg_id msg) (msg_id (placeholder p))
                                 then f msg else msg) (conv_messages c))
                (conv_lastUpdated c) c)
    prev.

Definition withTextOf (text : string) (msg : ChatMessage) : ChatMessage :=
  {| msg_id := msg_id msg; msg_text := text; msg_sender := msg_sender msg;
     msg_timestamp := msg_timestamp msg; msg_isLoading := msg_isLoading msg;
     msg_attachments := msg_attachments msg; msg_citations := msg_citations msg;
     msg_urlContext := msg_urlContext msg |}.

(** One iteration of the loop on a yielded item. *)
Definition onChunk (p : Pending) (acc : Progress * list Conversation)
    (chunk : Gemini.StreamItem) : Progress * list Conversation :=
  let '(progress, prev) := acc in
  let text :=
    match Gemini.textChunk chunk with
    | Some delta => if Js.truthy delta then fullText progress ++ delta else fullText progress
    | None => fullText progress
    end in
  let convs :=
    if Js.truthy_opt (Gemini.textChunk chunk)
    then updatePlaceholder p (withTextOf text) prev
    else prev in
  ({| fullText := text;
      finalCitations :=
        match Gemini.citations chunk with
        | Some cs => Some cs
        | None => finalCitations progress
        end;
      finalUrlContext :=
        match Gemini.urlContextMetadata chunk with
        | Some us => Some us
        | None => finalUrlContext progress
        end |},
   convs).

(** The update after the loop. *)
Definition finalized (progress : Progress) (msg : ChatMessage) : ChatMessage :=
  {| msg_id := msg_id msg; msg_text := fullText progress; msg_sender := msg_sender msg;
     msg_timestamp := msg_timestamp msg; msg_isLoading := Some false;
     msg_attachments := msg_attachments msg;
     msg_citations := finalCitations progress;
     msg_urlContext := finalUrlContext progress |}.

(** [e.message || 'Failed to get response from AI.'] *)
Definition errorMessageOf (thrown : Gemini.Thrown) : string :=
  match thrown with
  | Gemini.ThrownError e =>
      if Js.truthy (Gemini.message e) then Gemini.message e
      else "Failed to get response from AI."
  | Gemini.ThrownOther => "Failed to get response from AI."
  end.

(** The message the catch block puts in place of the placeholder. *)
Definition failedMessage (p : Pending) (thrown : Gemini.Thrown) : ChatMessage :=
  {| msg_id := msg_id (placeholder p);
     msg_text := "Error: " ++ errorMessageOf thrown;
     msg_sender := SYSTEM;
     msg_timestamp := msg_timestamp (placeholder p);
     msg_isLoading := Some false;
     msg_attachments := msg_attachments (placeholder p);
     msg_citations := msg_citations (placeholder p);
     msg_urlContext := msg_urlContext (placeholder p) |}.

(** The asynchronous part of [_triggerModelResponse], run without other
    events in between: the generator is driven to its end, every item is
    applied, then the final or the error update, and [isLoading] is
    reset. *)
Definition completeResponse (dec : Gemini.Decoders) (API_KEY : option string)
    (backend : Gemini.Backend) (lang : Gemini.Language) (p : Pending)
    (w : Gemini.World) (s : State) : Gemini.World * State :=
  let '(w', items, out) :=
    Gemini.forAwait dec API_KEY backend (pendingHistory p) (pendingUrls p)
                    (pendingFiles p) lang w in
  let '(progress, convs) := fold_left (onChunk p) items (noProgress, conversations s) in
  match out with
  | Some (Gemini.Returned _) =>
      (w', setIsLoading false
             (setConversations (updatePlaceholder p (finalized progress) convs) s))
  | Some (Gemini.Threw thrown) =>
      (w', setIsLoading false
             (setConversations
                (updatePlaceholder p (fun _ => failedMessage p thrown) convs) s))
  | None => (w', setConversations convs s)
  end.

Definition userMessage (query : string) (attachments : list Attachment)
    (idClock : nat) (timestamp : Z) : ChatMessage :=
  {| msg_id := "user-" ++ Js.numberToString idClock;
     msg_text := query;
     msg_sender := USER;
     msg_timestamp := timestamp;
     msg_isLoading := None;
     msg_attachments :=
       Some (filter (fun a => status_eqb (att_status a) StLoaded) attachments);
     msg_citations := None;
     msg_urlContext := None |}.

(** [handleSendMessage]: the first two clock readings are for the user
    message, the last three for [_triggerModelResponse]. *)
Definition handleSendMessage (API_KEY : option string) (query : string)
    (attachments : list Attachment) (userClock : nat) (userTimestamp : Z)
    (idClock : nat) (timestamp updated : Z) (s : State) : State * option Pending :=
  if (negb (Js.truthy (Js.trim query)) && (List.length attachments =? 0)%nat)
     || isLoading s || isFetchingSuggestions s
  then (s, None)
  else
    let newHistory :=
      (chatMessages s ++ [userMessage query attachments userClock userTimestamp])%list in
    triggerModelResponse API_KEY newHistory idClock timestamp updated
      (updateActiveConversation (fun c => withMessages newHistory (conv_lastUpdated c) c) s).

(** [chatMessages.findIndex(m => m.id === messageId)] together with the
    message found. *)
Fixpoint messageIndex (messageId : string) (l : list ChatMessage)
  : option (nat * ChatMessage) :=
  match l with
  | [] => None
  | m :: rest =>
      if String.eqb (msg_id m) messageId then Some (0%nat, m)
      else match messageIndex messageId rest with
           | Some (i, found) => Some (S i, found)
           | None => None
           end
  end.

Definition editedMessage (target : ChatMessage) (newText : string) (timestamp : Z)
  : ChatMessage :=
  {| msg_id := msg_id target; msg_text := newText; msg_sender := msg_sender target;
     msg_timestamp := timestamp; msg_isLoading := msg_isLoading target;
     msg_attachments := msg_attachments target; msg_citations := msg_citations target;
     msg_urlContext := msg_urlContext target |}.

(** [handleEditMessage]: the first two clock readings are for the edited
    message and the conversation, the last three for
    [_triggerModelResponse]. *)
Definition handleEditMessage (API_KEY : option string) (messageId newText : string)
    (editTimestamp editUpdated : Z) (idClock : nat) (timestamp updated : Z)
    (s : State) : State * option Pending :=
  match messageIndex messageId (chatMessages s) with
  | None => (s, None)
  | Some (index, target) =>
      if negb (sender_eqb (msg_sender target) USER) then (s, None)
      else
        let newHistoryForApi :=
          (firstn index (chatMessages s)
           ++ [editedMessage target newText editTimestamp])%list in
        triggerModelResponse API_KEY newHistoryForApi idClock timestamp updated
          (updateActiveConversation (withMessages newHistoryForApi editUpdated) s)
  end.

Definition handleRegenerateResponse (API_KEY : option string) (messageId : string)
    (regenUpdated : Z) (idClock : nat) (timestamp updated : Z)
    (s : State) : State * option Pending :=
  match messageIndex messageId (chatMessages s) with
  | None => (s, None)
  | Some (index, target) =>
      if negb (sender_eqb (msg_sender target) MODEL) then (s, None)
      else
        let newHistoryForApi := firstn index (chatMessages s) in
        triggerModelResponse API_KEY newHistoryForApi idClock timestamp updated
          (updateActiveConversation (withMessages newHistoryForApi regenUpdated) s)
  end.

(** [fetchAndSetInitialSuggestions(currentUrls)], run without other
    events in between. [parseSuggestions] stands for [JSON.parse]
    followed by the test that [suggestions] is an array; [None] is a
    parse error or a missing array. *)
Definition suggestionError (thrown : Gemini.Thrown) (idClock : nat) (timestamp : Z)
  : ChatMessage :=
  systemMessage ("sys-err-suggestion-fetch-" ++ Js.numberToString idClock)
    ("Error fetching suggestions: "
     ++ match thrown with
        | Gemini.ThrownError e =>
            if Js.truthy (Gemini.message e) then Gemini.message e
            else "Failed to fetch initial suggestions."
        | Gemini.ThrownOther => "Failed to fetch initial suggestions."
        end)
    timestamp.

Definition fetchAndSetInitialSuggestions (API_KEY : option string)
    (backend : Gemini.Backend) (parseSuggestions : string -> option (list string))
    (lang : Gemini.Language) (currentUrls : list string) (idClock : nat) (timestamp : Z)
    (w : Gemini.World) (s : State) : Gemini.World * State :=
  match currentUrls with
  | [] => (w, setInitialQuerySuggestions [] s)
  | _ =>
      let s1 := setInitialQuerySuggestions [] (setIsFetchingSuggestions true s) in
      match Gemini.getInitialSuggestions API_KEY backend w currentUrls lang with
      | (w', Gemini.Returned text) =>
          (w', setIsFetchingSuggestions false
                 (if Js.truthy_opt text then
                    setInitialQuerySuggestions
                      (firstn 4 (match match text with
                                       | Some tx => parseSuggestions tx
                                       | None => None
                                       end with
                                 | Some l => l
                                 | None => []
                                 end)) s1
                  else s1))
      | (w', Gemini.Threw thrown) =>
          (w', setIsFetchingSuggestions false
                 (setConversations
                    (updateConversation (activeConversationId s)
                       (fun c => appendMessage (suggestionError thrown idClock timestamp)
                                               (conv_lastUpdated c) c)
                       (conversations s1))
                    s1))
      end
  end.

(** The effect that runs when the url list of the active conversation
    changes. *)
Definition suggestionsEffect (API_KEY : option string) (backend : Gemini.Backend)
    (parseSuggestions : string -> option (list string)) (lang : Gemini.Language)
    (idClock : nat) (timestamp : Z) (w : Gemini.World) (s : State)
  : Gemini.World * State :=
  match contextUrls s with
  | _ :: _ =>
      if Js.truthy_opt API_KEY
      then fetchAndSetInitialSuggestions API_KEY backend parseSuggestions lang
             (contextUrls s) idClock timestamp w s
      else (w, setInitialQuerySuggestions [] s)
  | [] => (w, setInitialQuerySuggestions [] s)
  end.

End Response.

(* ===================================================================== *)
(** ** Summaries ([getSummary], [handleSummarize])                        *)
(* ===================================================================== *)

Module Summary.
Import Types Repository.

Definition summaryLine (msg : ChatMessage) : string :=
  (if sender_eqb (msg_sender msg) USER then "User" else "AI") ++ ": " ++ msg_text msg.

Definition conversationText (history : list ChatMessage) : string :=
  String.concat (Js.nl ++ Js.nl)
    (map summaryLine
         (filter (fun msg => sender_eqb (msg_sender msg) USER
                             || sender_eqb (msg_sender msg) MODEL) history)).

Definition summaryPrompt (history : list ChatMessage) (language : Gemini.Language)
  : string :=
  "Please provide a concise summary of the key points, questions, and conclusions from the following conversation. The summary should be in "
  ++ (match language with Gemini.ar => "Arabic" | Gemini.en => "English" end)
  ++ "." ++ Js.nl ++ Js.nl ++ "Conversation History:" ++ Js.nl ++ "---" ++ Js.nl
  ++ conversationText history ++ Js.nl ++ "---" ++ Js.nl ++ Js.nl ++ "Summary:".

(** The catch block of [getSummary]. *)
Definition rethrowSummary (t : Gemini.Thrown) : Gemini.Thrown :=
  match t with
  | Gemini.ThrownError e =>
      let msg := Gemini.message e in
      if Js.truthy msg && Js.includes "API key not valid" msg then
        Gemini.newError
          "Invalid API Key for summary. Please check your GEMINI_API_KEY environment variable."
      else Gemini.newError ("Failed to get summary from AI: " ++ msg)
  | Gemini.ThrownOther =>
      Gemini.newError "Failed to get summary from AI due to an unknown error."
  end.

Definition emptyConversationNotice : string :=
  "The conversation is empty. There's nothing to summarize.".

(** [getSummary]: the resolved value is [response.text], which may be
    undefined. *)
Definition getSummary (API_KEY : option string) (backend : Gemini.Backend)
    (w : Gemini.World) (history : list ChatMessage) (language : Gemini.Language)
  : Gemini.World * Gemini.Outcome (option string) :=
  match Gemini.getAiInstance API_KEY (Gemini.ai w) with
  | (Gemini.Threw t, ai') =>
      ({| Gemini.ai := ai'; Gemini.calls := Gemini.calls w |}, Gemini.Threw t)
  | (Gemini.Returned currentAi, ai') =>
      if negb (Js.truthy (conversationText history)) then
        ({| Gemini.ai := ai'; Gemini.calls := Gemini.calls w |},
         Gemini.Returned (Some emptyConversationNotice))
      else
        let req :=
          {| Gemini.req_model := Gemini.MODEL_NAME;
             Gemini.req_contents :=
               [ {| Gemini.role := "user";
                    Gemini.parts := [Gemini.TextPart (summaryPrompt history language)] |} ];
             Gemini.req_systemInstruction := None;
             Gemini.req_tools := None;
             Gemini.req_safetySettings := Gemini.safetySettings;
             Gemini.req_responseMimeType := None |} in
        let w' := {| Gemini.ai := ai';
                     Gemini.calls := (Gemini.calls w ++ [(currentAi, req)])%list |} in
        match Gemini.generateContent backend currentAi req with
        | Gemini.Returned response => (w', Gemini.Returned (Gemini.resp_text response))
        | Gemini.Threw err => (w', Gemini.Threw (rethrowSummary err))
        end
  end.

(** The summary dialog of the controller; [summaryContent] is undefined
    ([None]) when the service resolved to an undefined text. *)
Record Dialog : Type := mkDialog {
  isSummaryModalOpen : bool;
  summaryContent : option string;
  isSummarizing : bool
}.

(** [error.message] inside a template. *)
Definition messageOf (thrown : Gemini.Thrown) : string :=
  match thrown with
  | Gemini.ThrownError e => Gemini.message e
  | Gemini.ThrownOther => "undefined"
  end.

(** [handleSummarize], run without other events in between;
    [tooShort] is the translated text for a short conversation. *)
Definition handleSummarize (API_KEY : option string) (backend : Gemini.Backend)
    (lang : Gemini.Language) (tooShort : string) (w : Gemini.World)
    (s : App.State) (d : Dialog) : Gemini.World * Dialog :=
  match App.activeConversation s with
  | None => (w, d)
  | Some active =>
      if (List.length (conv_messages active) <? 3)%nat then
        (w, {| isSummaryModalOpen := true; summaryContent := Some tooShort;
               isSummarizing := isSummarizing d |})
      else if isSummarizing d then (w, d)
      else
        match getSummary API_KEY backend w (conv_messages active) lang with
        | (w', Gemini.Returned summary) =>
            (w', {| isSummaryModalOpen := true; summaryContent := summary;
                    isSummarizing := false |})
        | (w', Gemini.Threw thrown) =>
            (w', {| isSummaryModalOpen := true;
                    summaryContent := Some ("Error generating summary: " ++ messageOf thrown);
                    isSummarizing := false |})
        end
  end.

End Summary.

(* ===================================================================== *)
(** ** Persisted state ([loadInitialState] and the save effect)           *)
(* ===================================================================== *)

Module Persistence.
Import Types Repository.

Definition isLoadedWithData (a : Attachment) : bool :=
  status_eqb (att_status a) StLoaded && Js.truthy_opt (att_data a).

Definition isLoaded (a : Attachment) : bool := status_eqb (att_status a) StLoaded.

Definition attachmentsOf (msg : ChatMessage) : list Attachment :=
  match msg_attachments msg with Some l => l | None => [] end.

(** The message map of [loadInitialState]. *)
Definition restoreMessage (msg : ChatMessage) : ChatMessage :=
  {| msg_id := msg_id msg; msg_text := msg_text msg; msg_sender := msg_sender msg;
     msg_timestamp := msg_timestamp msg; msg_isLoading := msg_isLoading msg;
     msg_attachments := Some (filter isLoadedWithData (attachmentsOf msg));
     msg_citations := msg_citations msg; msg_urlContext := msg_urlContext msg |}.

Definition restoreConversation (conv : Conversation) : Conversation :=
  {| conv_id := conv_id conv; conv_name := conv_name conv; conv_urls := conv_urls conv;
     conv_files := filter isLoadedWithData (conv_files conv);
     conv_messages := map restoreMessage (conv_messages conv);
     conv_lastUpdated := conv_lastUpdated conv |}.

(** [loadInitialState]. [parsed] is the value of [JSON.parse(savedData)]
    when there is saved data and it parses to an array of conversations,
    [None] otherwise. The translated default name and welcome text and
    the clock readings are arguments. *)
Definition loadInitialState (parsed : option (list Conversation))
    (savedActiveId : option string) (defaultName : string) (welcome : string -> string)
    (idClock updatedClock : nat) (timestamp : Z) : list Conversation * string :=
  let loadedConversations :=
    match parsed with
    | Some (c :: cs) => map restoreConversation (c :: cs)
    | _ => []
    end in
  match loadedConversations with
  | [] =>
      let defaultId := "conv-" ++ Js.numberToString idClock in
      ([ {| conv_id := defaultId;
            conv_name := defaultName;
            conv_urls := [];
            conv_files := [];
            conv_messages :=
              [App.systemMessage ("system-welcome-" ++ defaultId)
                                 (welcome defaultName) timestamp];
            conv_lastUpdated := Z.of_nat updatedClock |} ],
       defaultId)
  | _ =>
      let sorted := Js.sort App.updatedEarlier loadedConversations in
      (sorted,
       match savedActiveId with
       | Some id =>
           if Js.truthy id && existsb (fun c => String.eqb (conv_id c) id) sorted
           then id
           else match sorted with c :: _ => conv_id c | [] => "" end
       | None => match sorted with c :: _ => conv_id c | [] => "" end
       end)
  end.

(** The objects the save effect serializes: in-progress files and
    attachments are left out, and so is [isLoading]. *)
Definition savableMessage (msg : ChatMessage) : ChatMessage :=
  {| msg_id := msg_id msg; msg_text := msg_text msg; msg_sender := msg_sender msg;
     msg_timestamp := msg_timestamp msg; msg_isLoading := None;
     msg_attachments := Some (filter isLoaded (attachmentsOf msg));
     msg_citations := msg_citations msg; msg_urlContext := msg_urlContext msg |}.

Definition savableConversation (conv : Conversation) : Conversation :=
  {| conv_id := conv_id conv; conv_name := conv_name conv; conv_urls := conv_urls conv;
     conv_files := filter isLoaded (conv_files conv);
     conv_messages := map savableMessage (conv_messages conv);
     conv_lastUpdated := conv_lastUpdated conv |}.

(** The id the save effect writes under [activeConversationId]; [None]
    when it writes none and leaves the stored value alone. *)
Definition savedActive (s : App.State) : option string :=
  if Js.truthy (App.activeConversationId s) then Some (App.activeConversationId s)
  else match App.conversations s with
       | c :: _ => Some (conv_id c)
       | [] => None
       end.

(** The initializer of [maxContextItems]: [savedMaxItems] is the stored
    string, [parsed] the value of [parseInt(savedMaxItems, 10)], with
    [None] for NaN. *)
Definition initialMaxContextItems (savedMaxItems : option string) (parsed : option Z)
  : Z :=
  match savedMaxItems with
  | Some saved =>
      if Js.truthy saved then
        match parsed with
        | Some n => if (0 <? n)%Z && (n <=? 100)%Z then n else 30%Z
        | None => 30%Z
        end
      else 30%Z
  | None => 30%Z
  end.

End Persistence.

(* ===================================================================== *)
(** ** Export ([handleExportConversation])                                *)
(* ===================================================================== *)

Module ExportFile.
Import Types Repository.

Inductive Format : Type := md | txt.

Definition isAsciiLetterOrDigit (c : ascii) : bool :=
  let n := nat_of_ascii c in
  ((48 <=? n) && (n <=? 57) || (65 <=? n) && (n <=? 90) || (97 <=? n) && (n <=? 122))%nat.

Definition toLowerAscii (c : ascii) : ascii :=
  let n := nat_of_ascii c in
  if ((65 <=? n) && (n <=? 90))%nat then ascii_of_nat (n + 32) else c.

(** [name.replace(/[^a-z0-9]/gi, '_').toLowerCase()]: without the
    unicode flag, only the letters and digits of ASCII match the class
    case-insensitively. *)
Fixpoint safeFilename (name : string) : string :=
  match name with
  | EmptyString => EmptyString
  | String c rest =>
      String (if isAsciiLetterOrDigit c then toLowerAscii c else "_"%char)
             (safeFilename rest)
  end.

(** [msg.sender.charAt(0).toUpperCase() + msg.sender.slice(1)]. *)
Definition senderLabel (s : MessageSender) : string :=
  match s with USER => "User" | MODEL => "Model" | SYSTEM => "System" end.

Definition skipped (msg : ChatMessage) : bool :=
  sender_eqb (msg_sender msg) SYSTEM && String.prefix "system-welcome" (msg_id msg).

Definition textOrNotice (msg : ChatMessage) : string :=
  if Js.truthy (msg_text msg) then msg_text msg else "(No text content)".

(** The text appended for one message; [toLocaleString] formats the
    timestamp and is an external collaborator. *)
Definition exportMessage (toLocaleString : Z -> string) (format : Format)
    (msg : ChatMessage) : string :=
  if skipped msg then ""
  else
    let sender := senderLabel (msg_sender msg) in
    let timestamp := toLocaleString (msg_timestamp msg) in
    let atts := Persistence.attachmentsOf msg in
    match format with
    | md =>
        "**" ++ sender ++ "** (_" ++ timestamp ++ "_):" ++ Js.nl ++ Js.nl
        ++ String.concat ""
             (map (fun att => "_[Attachment: " ++ att_name att ++ "]_" ++ Js.nl ++ Js.nl) atts)
        ++ textOrNotice msg ++ Js.nl ++ Js.nl ++ "---" ++ Js.nl ++ Js.nl
    | txt =>
        sender ++ " (" ++ timestamp ++ "):" ++ Js.nl
        ++ String.concat ""
             (map (fun att => "[Attachment: " ++ att_name att ++ "]" ++ Js.nl) atts)
        ++ textOrNotice msg ++ Js.nl ++ Js.nl
    end.

Definition exportContent (toLocaleString : Z -> string) (format : Format)
    (conv : Conversation) : string :=
  fold_left (fun content msg => content ++ exportMessage toLocaleString format msg)
            (conv_messages conv)
            ("# Conversation: " ++ conv_name conv ++ Js.nl ++ Js.nl).

(** The download name; [today] is the date part of [toISOString()]. *)
Definition downloadName (format : Format) (today : string) (conv : Conversation) : string :=
  safeFilename (conv_name conv) ++ "_" ++ today ++ "."
  ++ match format with md => "md" | txt => "txt" end.

End ExportFile.

(* ===================================================================== *)
(** ** The message composer ([ChatInterface.tsx])                         *)
(* ===================================================================== *)

Module Composer.
Import Types.

(** The two pieces of state a send reads and resets. *)
Record Input : Type := mkInput {
  userQuery : string;
  attachments : list Attachment
}.

Definition cleared : Input := {| userQuery := ""; attachments := [] |}.

Definition loadedOf (l : list Attachment) : list Attachment :=
  filter (fun a => status_eqb (att_status a) StLoaded) l.

(** [handleSend]: the new input state and the arguments of
    [onSendMessage], if it is called. *)
Definition handleSend (isLoading : bool) (c : Input)
  : Input * option (string * list Attachment) :=
  let loadedAttachments := loadedOf (attachments c) in
  if (Js.truthy (Js.trim (userQuery c))
      || negb (List.length loadedAttachments =? 0)%nat)
     && negb isLoading
  then (cleared, Some (Js.trim (userQuery c), loadedAttachments))
  else (c, None).

(** [recognition.onend]: the input is reset whether or not something was
    sent, and [isLoading] is not consulted. *)
Definition onRecognitionEnd (c : Input) : Input * option (string * list Attachment) :=
  let finalQuery := Js.trim (userQuery c) in
  let finalAttachments := loadedOf (attachments c) in
  (cleared,
   if Js.truthy finalQuery || negb (List.length finalAttachments =? 0)%nat
   then Some (finalQuery, finalAttachments)
   else None).

(** [handleEditSave] of a message item: the arguments of
    [onEditMessage], if it is called. *)
Definition handleEditSave (messageId editText : string) : option (string * string) :=
  if Js.truthy (Js.trim editText) then Some (messageId, Js.trim editText) else None.

End Composer.

(* ===================================================================== *)
(** ** Feedback on a message ([MessageItem.tsx], [FeedbackModal.tsx])     *)
(* ===================================================================== *)

Module Feedback.

Inductive Choice : Type := liked | disliked.

(** [feedback], [isFeedbackModalOpen] and [showThankYou] of the message
    item, and [selectedOptions] of the dialog. *)
Record State : Type := mkState {
  feedback : option Choice;
  isFeedbackModalOpen : bool;
  showThankYou : bool;
  selectedOptions : list string
}.

Definition initial : State :=
  {| feedback := None; isFeedbackModalOpen := false; showThankYou := false;
     selectedOptions := [] |}.

(** [handleCheckboxChange]. *)
Definition handleCheckboxChange (option : string) (prev : list string) : list string :=
  if Js.arrayIncludes option prev
  then filter (fun item => negb (String.eqb item option)) prev
  else (prev ++ [option])%list.

Inductive Event : Type :=
| Like
| Dislike
| Toggle (option : string)
| Submit
| CloseDialog
| ThankYouElapsed.

(** One event. The dialog's handlers can only run while it is shown, and
    its effect empties the selection whenever it is not. The second
    component is the list of reasons logged by [handleFeedbackSubmit]. *)
Definition step (s : State) (e : Event) : State * option (list string) :=
  match e with
  | Like =>
      match feedback s with
      | Some _ => (s, None)
      | None =>
          ({| feedback := Some liked; isFeedbackModalOpen := isFeedbackModalOpen s;
              showThankYou := true; selectedOptions := selectedOptions s |}, None)
      end
  | Dislike =>
      match feedback s with
      | Some _ => (s, None)
      | None =>
          ({| feedback := Some disliked; isFeedbackModalOpen := true;
              showThankYou := showThankYou s; selectedOptions := selectedOptions s |}, None)
      end
  | Toggle option =>
      if isFeedbackModalOpen s then
        ({| feedback := feedback s; isFeedbackModalOpen := true;
            showThankYou := showThankYou s;
            selectedOptions := handleCheckboxChange option (selectedOptions s) |}, None)
      else (s, None)
  | Submit =>
      if isFeedbackModalOpen s then
        match selectedOptions s with
        | [] => (s, None)
        | reasons =>
            ({| feedback := feedback s; isFeedbackModalOpen := false;
                showThankYou := true; selectedOptions := [] |}, Some reasons)
        end
      else (s, None)
  | CloseDialog =>
      if isFeedbackModalOpen s then
        ({| feedback := match feedback s with
                        | Some disliked => None
                        | other => other
                        end;
            isFeedbackModalOpen := false;
            showThankYou := showThankYou s;
            selectedOptions := [] |}, None)
      else (s, None)
  | ThankYouElapsed =>
      ({| feedback := feedback s; isFeedbackModalOpen := isFeedbackModalOpen s;
          showThankYou := false; selectedOptions := selectedOptions s |}, None)
  end.

Definition run (s : State) (events : list Event) : State :=
  fold_left (fun st e => fst (step st e)) events s.

(** What holds of every state the events can lead to: the dialog is only
    open for a dislike that has not been submitted, the selection has no
    duplicates, and it is empty while the dialog is closed. *)
Definition wellFormed (s : State) : Prop :=
  (isFeedbackModalOpen s = true -> feedback s = Some disliked)
  /\ NoDup (selectedOptions s)
  /\ (isFeedbackModalOpen s = false -> selectedOptions s = []).

End Feedback.

(* ===================================================================== *)
(** ** Vocabulary for statements about the request history                *)
(* ===================================================================== *)

Module Turns.
Import Types.

(** Messages the history loop skips. *)
Definition skippedMessage (m : ChatMessage) : bool :=
  sender_eqb (msg_sender m) SYSTEM || Gemini.isTrue (msg_isLoading m).

(** Messages the loop turns into a user turn. *)
Definition userTurnOf (m : ChatMessage) : bool :=
  negb (skippedMessage m) && sender_eqb (msg_sender m) USER.

(** A message with [context] and a line feed in front of its text. *)
Definition withContext (context : string) (m : ChatMessage) : ChatMessage :=
  {| msg_id := msg_id m; msg_text := context ++ Js.nl ++ msg_text m;
     msg_sender := msg_sender m; msg_timestamp := msg_timestamp m;
     msg_isLoading := msg_isLoading m; msg_attachments := msg_attachments m;
     msg_citations := msg_citations m; msg_urlContext := msg_urlContext m |}.

Definition wellFormedTurn (c : Gemini.Content) : Prop :=
  (Gemini.role c = "user" \/ Gemini.role c = "model") /\ Gemini.parts c <> [].

End Turns.

(* ===================================================================== *)
(** ** Vocabulary for statements about the controller                     *)
(* ===================================================================== *)

Module Controller.
Import Types Repository App.

(** The active id names one of the conversations. *)
Definition knownActive (s : State) : Prop :=
  In (activeConversationId s) (map conv_id (conversations s)).

Definition activeFiles (s : State) : list Attachment :=
  match activeConversation s with Some c => conv_files c | None => [] end.

(** The files of a selection that [handleFilesSelected] keeps. *)
Definition acceptable (files : list Attachment) (file : File) : bool :=
  Js.arrayIncludes (file_type file) KnowledgeBase.supportedTypes
  && negb (existsb (fun existingFile => String.eqb (att_name existingFile) (file_name file))
                   files).

(** The handlers that go through [updateActiveConversation]. A file
    reader calls [handleUpdateFile] of the render in which the files were
    added, so [UpdateFile] carries the id that was active then. *)
Inductive Edit : Type :=
| Rename (newName : string)
| AddUrl (url : string)
| RemoveUrl (url : string)
| AddFiles (files : list (File * nat))
| UpdateFile (owner : string) (updatedFile : Attachment)
| RemoveFile (fileId : string).

Definition applyEdit (now : Z) (e : Edit) (s : State) : State :=
  match e with
  | Rename newName => handleRenameConversation newName now s
  | AddUrl url => handleAddUrl url now s
  | RemoveUrl url => handleRemoveUrl url now s
  | AddFiles files => handleAddFiles files s
  | UpdateFile owner updatedFile =>
      setConversations (handleUpdateFile owner updatedFile now (conversations s)) s
  | RemoveFile fileId => handleRemoveFile fileId now s
  end.

(** The id the updater of an edit compares conversations with. *)
Definition editedConversation (e : Edit) (s : State) : string :=
  match e with
  | UpdateFile owner _ => owner
  | _ => activeConversationId s
  end.

(** The local variables of the response loop after one more item. *)
Definition absorbChunk (progress : Response.Progress) (chunk : Gemini.StreamItem)
  : Response.Progress :=
  {| Response.fullText :=
       match Gemini.textChunk chunk with
       | Some delta =>
           if Js.truthy delta then Response.fullText progress ++ delta
           else Response.fullText progress
       | None => Response.fullText progress
       end;
     Response.finalCitations :=
       match Gemini.citations chunk with
       | Some cs => Some cs
       | None => Response.finalCitations progress
       end;
     Response.finalUrlContext :=
       match Gemini.urlContextMetadata chunk with
       | Some us => Some us
       | None => Response.finalUrlContext progress
       end |}.

(** Updates of a message that change nothing but its text. *)
Definition textOnly (g : ChatMessage -> ChatMessage) : Prop :=
  forall m, exists text, g m = Response.withTextOf text m.

(** What the loop has gathered when the stream [cs] ended normally. *)
Definition gathered (cs : list Gemini.GenerateContentResponse) : Response.Progress :=
  {| Response.fullText := String.concat "" (Gemini.deltasOf cs);
     Response.finalCitations :=
       match Gemini.lastChunk cs with
       | Some f => Gemini.citations (Gemini.terminalItem f)
       | None => None
       end;
     Response.finalUrlContext :=
       match Gemini.lastChunk cs with
       | Some f => Gemini.urlContextMetadata (Gemini.terminalItem f)
       | None => None
       end |}.

(** A file or attachment that survives a reload. *)
Definition kept (a : Attachment) : Prop :=
  att_status a = StLoaded /\ Js.truthy_opt (att_data a) = true.

(** The characters of a download name: digits, small letters and the
    underscore. *)
Definition safeChar (c : ascii) : bool :=
  let n := nat_of_ascii c in
  ((48 <=? n) && (n <=? 57) || (97 <=? n) && (n <=? 122) || (n =? 95))%nat.

Fixpoint allChars (p : ascii -> bool) (s : string) : bool :=
  match s with
  | EmptyString => true
  | String c rest => p c && allChars p rest
  end.

(** The characters of the date part of [toISOString()] for the years 0
    to 9999: digits and the hyphen. *)
Definition dateChar (c : ascii) : bool :=
  let n := nat_of_ascii c in
  ((48 <=? n) && (n <=? 57) || (n =? 45))%nat.

(** The characters of a complete download name: those of the safe name,
    those of the date, and the dot before the extension. *)
Definition fileNameChar (c : ascii) : bool :=
  safeChar c || dateChar c || Ascii.eqb c "."%char.


(** A replacement text without a dollar sign. *)
Definition dollarFree (s : string) : bool :=
  allChars (fun c => negb (Ascii.eqb c "$"%char)) s.

(** Conversations in display order: most recently updated first. *)
Definition newestFirst (a b : Conversation) : Prop :=
  (conv_lastUpdated b <= conv_lastUpdated a)%Z.

End Controller.

(* ===================================================================== *)
(** ** Sample inputs                                                      *)
(* ===================================================================== *)

Module Samples.
Import Types.

Definition decoders : Gemini.Decoders :=
  {| Gemini.atob := fun s => Some s;
     Gemini.extractRawText := fun s => Some s;
     Gemini.sheetsToCsv := fun _ => Some [] |}.

Definition freshWorld : Gemini.World := {| Gemini.ai := None; Gemini.calls := [] |}.

Definition citationU : CitationSource :=
  {| startIndex := Some 0%Z; endIndex := Some 5%Z; uri := Some "u"; license := None |}.

(** A backend whose stream is the two chunks "Hel" and "lo", the second
    carrying one citation. *)
Definition helloChunks : list Gemini.GenerateContentResponse :=
  [ {| Gemini.resp_text := Some "Hel"; Gemini.candidates := None |};
    {| Gemini.resp_text := Some "lo";
       Gemini.candidates :=
         Some [ {| Gemini.citationMetadata :=
                     Some {| Gemini.citationSources := Some [citationU] |};
                   Gemini.cand_urlContextMetadata := None |} ] |} ].

Definition backendOf (cs : list Gemini.GenerateContentResponse) : Gemini.Backend :=
  {| Gemini.generateContentStream := fun _ _ =>
       {| Gemini.chunks := cs; Gemini.failure := None |};
     Gemini.generateContent := fun _ _ =>
       Gemini.Returned {| Gemini.resp_text := Some "{}"; Gemini.candidates := None |} |}.

(** Three citations over the text "Alpha beta gamma."; the first and the
    last name the same source. *)
Definition threeCitations : list CitationSource :=
  [ {| startIndex := Some 0%Z; endIndex := Some 5%Z;
       uri := Some "https://a.example/"; license := None |};
    {| startIndex := Some 6%Z; endIndex := Some 10%Z;
       uri := Some "https://b.example/"; license := None |};
    {| startIndex := Some 11%Z; endIndex := Some 16%Z;
       uri := Some "https://a.example/"; license := None |} ].

Definition citeAlpha : MessageItem.Cite :=
  {| MessageItem.cStart := 0; MessageItem.cEnd := 5;
     MessageItem.cUri := "https://a.example/" |}.
Definition citeBeta : MessageItem.Cite :=
  {| MessageItem.cStart := 6; MessageItem.cEnd := 10;
     MessageItem.cUri := "https://b.example/" |}.
Definition citeGamma : MessageItem.Cite :=
  {| MessageItem.cStart := 11; MessageItem.cEnd := 16;
     MessageItem.cUri := "https://a.example/" |}.

(** Two citations with nested ranges over the text "abcdefghijkl": the
    range [2, 5) of the second lies inside the range [0, 10) of the
    first. *)
Definition nestedCitations : list CitationSource :=
  [ {| startIndex := Some 0%Z; endIndex := Some 10%Z; uri := Some "u"; license := None |};
    {| startIndex := Some 2%Z; endIndex := Some 5%Z; uri := Some "v"; license := None |} ].

Definition citeOuter : MessageItem.Cite :=
  {| MessageItem.cStart := 0; MessageItem.cEnd := 10; MessageItem.cUri := "u" |}.
Definition citeInner : MessageItem.Cite :=
  {| MessageItem.cStart := 2; MessageItem.cEnd := 5; MessageItem.cUri := "v" |}.

(** A stand-in for the platform URL parser: accepts what starts with a
    scheme the application links to. *)
Definition validUrl (s : string) : bool :=
  String.prefix "https://" s || String.prefix "http://" s.

Definition twoUrlConversation : Repository.Conversation :=
  {| Repository.conv_id := "conv";
     Repository.conv_name := "Docs";
     Repository.conv_urls := ["https://a.example/"; "https://b.example/"];
     Repository.conv_files := [];
     Repository.conv_messages := [];
     Repository.conv_lastUpdated := 0 |}.

Definition thirtyOneUrls : list string :=
  map (fun n => "https://example.com/page" ++ Js.numberToString n) (seq 1 31).

Definition textFile : Repository.File :=
  {| Repository.file_name := "notes.txt"; Repository.file_type := "text/plain" |}.

Fixpoint nodupb (l : list string) : bool :=
  match l with
  | [] => true
  | x :: rest => negb (Js.arrayIncludes x rest) && nodupb rest
  end.

Definition messageOf (id text : string) (s : MessageSender) : ChatMessage :=
  {| msg_id := id; msg_text := text; msg_sender := s; msg_timestamp := 1;
     msg_isLoading := Some false; msg_attachments := None; msg_citations := None;
     msg_urlContext := None |}.

Definition exeFile : Repository.File :=
  {| Repository.file_name := "setup.exe";
     Repository.file_type := "application/x-msdownload" |}.


(** The same file name twice in one drop, stamped in the same
    millisecond: both placeholders get the same id. *)
Definition sameNameFiles : list (Repository.File * nat) := [(textFile, 42); (textFile, 42)].

Definition userTurn : ChatMessage :=
  {| msg_id := "u1"; msg_text := "Hi"; msg_sender := USER; msg_timestamp := 1;
     msg_isLoading := None; msg_attachments := None; msg_citations := None;
     msg_urlContext := None |}.

End Samples.

(* ===================================================================== *)
(** ** Further sample inputs                                              *)
(* ===================================================================== *)

Module MoreSamples.
Import Types.

Definition quotaError : Gemini.Thrown :=
  Gemini.ThrownError {| Gemini.message := "Resource exhausted: quota exceeded";
                        Gemini.errType := None |}.

(** A backend whose stream fails after the chunks [cs]. *)
Definition failingBackend (cs : list Gemini.GenerateContentResponse)
    (err : Gemini.Thrown) : Gemini.Backend :=
  {| Gemini.generateContentStream := fun _ _ =>
       {| Gemini.chunks := cs; Gemini.failure := Some err |};
     Gemini.generateContent := fun _ _ => Gemini.Threw err |}.

Definition pngAttachment : Attachment :=
  {| att_id := "att-shot.png-7"; att_name := "shot.png"; att_type := "image/png";
     att_data := Some "iVBORw0KGgo="; att_status := StLoaded; att_errorMessage := None |}.

Definition loadingAttachment : Attachment :=
  {| att_id := "att-big.pdf-7"; att_name := "big.pdf"; att_type := "application/pdf";
     att_data := None; att_status := StLoading; att_errorMessage := None |}.

Definition welcomeTurn : ChatMessage := Samples.messageOf "system-welcome-conv-1" "Welcome" SYSTEM.

Definition pendingTurn : ChatMessage :=
  {| msg_id := "model-response-3"; msg_text := "Par"; msg_sender := MODEL;
     msg_timestamp := 3; msg_isLoading := Some true; msg_attachments := None;
     msg_citations := None; msg_urlContext := None |}.

(** A citation without an end offset, and a model message citing it. *)
Definition citationWithoutEnd : CitationSource :=
  {| startIndex := Some 0%Z; endIndex := None; uri := Some "u"; license := None |}.

Definition answerWithBadCitation : ChatMessage :=
  {| msg_id := "m"; msg_text := "Answer"; msg_sender := MODEL; msg_timestamp := 1;
     msg_isLoading := Some false; msg_attachments := None;
     msg_citations := Some [citationWithoutEnd]; msg_urlContext := None |}.


Definition conversationAt (id : string) (lastUpdated : Z) (urls : list string)
    (files : list Attachment) (messages : list ChatMessage) : Repository.Conversation :=
  {| Repository.conv_id := id;
     Repository.conv_name := id;
     Repository.conv_urls := urls;
     Repository.conv_files := files;
     Repository.conv_messages := messages;
     Repository.conv_lastUpdated := lastUpdated |}.

(** Three conversations, newest first; the second is active and holds a
    url, a loaded and a loading file and one round of messages. *)
Definition workspace : App.State :=
  {| App.conversations :=
       [ conversationAt "conv-30" 30 [] [] [];
         conversationAt "conv-20" 20 ["https://a.example/"]
           [pngAttachment; loadingAttachment]
           [welcomeTurn; Samples.userTurn; Samples.messageOf "m1" "Hello" MODEL];
         conversationAt "conv-10" 10 [] [] [] ];
     App.activeConversationId := "conv-20";
     App.maxContextItems := 30;
     App.isLoading := false;
     App.isFetchingSuggestions := false;
     App.initialQuerySuggestions := [] |}.

(** The same with an active id that names no conversation. *)
Definition staleWorkspace : App.State := App.setActiveConversationId "conv-0" workspace.

Definition singleWorkspace : App.State :=
  {| App.conversations := [conversationAt "conv-30" 30 [] [] []];
     App.activeConversationId := "conv-30";
     App.maxContextItems := 30;
     App.isLoading := false;
     App.isFetchingSuggestions := false;
     App.initialQuerySuggestions := [] |}.


(** The state after a question was sent from [workspace], and the
    response that is then pending. *)
Definition awaiting : App.State :=
  fst (Response.handleSendMessage (Some "key") "Why?" [] 5 5 6 6 6 workspace).

Definition pendingAnswer : Response.Pending :=
  {| Response.pendingConversation := "conv-20";
     Response.placeholder := Response.modelPlaceholderMessage 6 6;
     Response.pendingHistory :=
       (App.chatMessages workspace ++ [Response.userMessage "Why?" [] 5 5])%list;
     Response.pendingUrls := ["https://a.example/"];
     Response.pendingFiles := [pngAttachment] |}.


(** The user edits the question while its answer is still streaming. *)
Definition editedWhileAwaiting : App.State :=
  fst (Response.handleEditMessage (Some "key") "user-5" "Why not?" 7 7 8 8 8 awaiting).

Definition closedDialog : Summary.Dialog :=
  {| Summary.isSummaryModalOpen := false; Summary.summaryContent := Some "";
     Summary.isSummarizing := false |}.




End MoreSamples.

(* ===================================================================== *)
(** * Properties                                                          *)
(* ===================================================================== *)

(** ** Facts about strings *)

Section StringFacts.

Lemma append_nil_r (s : string) : s ++ "" = s.
Proof. induction s as [|c s IH]; simpl; [|rewrite IH]; reflexivity. Qed.

Lemma append_assoc (a b c : string) : (a ++ b) ++ c = a ++ (b ++ c).
Proof. induction a as [|x a IH]; simpl; [|rewrite IH]; reflexivity. Qed.

Lemma length_append (a b : string) :
  String.length (a ++ b) = String.length a + String.length b.
Proof. induction a as [|x a IH]; simpl; [|rewrite IH]; reflexivity. Qed.

Lemma concat_empty_cons (x : string) (xs : list string) :
  String.concat "" (x :: xs) = x ++ String.concat "" xs.
Proof.
  destruct xs as [|y ys]; simpl; [rewrite append_nil_r|]; reflexivity.
Qed.

End StringFacts.

(** ** The credential check *)

Section Credential.
Import Types Gemini.

Lemma getAiInstance_unconfigured (API_KEY : option string) (ai0 : option GoogleGenAI) :
  Js.truthy_opt API_KEY = false ->
  getAiInstance API_KEY ai0
  = (Threw (newError "Gemini API Key not configured. Set process.env.API_KEY."), ai0).
Proof.
  unfold getAiInstance; destruct API_KEY as [key|]; simpl; intros H.
  - rewrite H; reflexivity.
  - reflexivity.
Qed.

Lemma getAiInstance_configured (API_KEY : option string) (ai0 : option GoogleGenAI) :
  Js.truthy_opt API_KEY = true ->
  exists client ai1, getAiInstance API_KEY ai0 = (Returned client, ai1).
Proof.
  unfold getAiInstance; destruct API_KEY as [key|]; simpl; intros H; try discriminate.
  rewrite H; destruct ai0; eauto.
Qed.

(** C7. Without a configured credential the first [next()] on the
    streaming generator throws the configuration error: the generator is
    closed, nothing was yielded, the log of backend calls is unchanged
    whatever the backend would have answered, and a consumer that drives
    the generator collects no item; the message the consumer's catch
    block puts in place of a placeholder is a system message, not model
    content. The controller itself does not even create the generator:
    [_triggerModelResponse] prepares no request without a credential. *)
Theorem no_credential_no_backend_call
    (dec : Decoders) (API_KEY : option string) (backend : Backend)
    (history : list ChatMessage) (contextUrls : list string)
    (contextFiles : list Attachment) (language : Language) (w : World) :
  Js.truthy_opt API_KEY = false ->
  let configError := newError "Gemini API Key not configured. Set process.env.API_KEY." in
  let '(w1, g1, r1) :=
    next dec API_KEY backend history contextUrls contextFiles language w GenFresh in
  let '(w2, items, out) :=
    forAwait dec API_KEY backend history contextUrls contextFiles language w in
  r1 = Raised configError /\ g1 = GenClosed /\ calls w1 = calls w /\ ai w1 = ai w
  /\ items = [] /\ out = Some (Threw configError) /\ calls w2 = calls w
  /\ (forall p : Response.Pending,
        msg_sender (Response.failedMessage p configError) = SYSTEM)
  /\ (forall historyForApi idClock timestamp updated s,
        snd (Response.triggerModelResponse API_KEY historyForApi idClock timestamp
               updated s) = None).
Proof.
  intros H configError.
  unfold forAwait, budget.
  rewrite (getAiInstance_unconfigured _ _ H).
  simpl. rewrite (getAiInstance_unconfigured _ _ H). simpl.
  repeat split; try reflexivity.
  intros historyForApi idClock timestamp updated s.
  unfold Response.triggerModelResponse. rewrite H.
  destruct (App.isLoading s || App.isFetchingSuggestions s); reflexivity.
Qed.

Lemma no_credential_no_backend_call_witness :
  let w := {| ai := None; calls := [] |} in
  let dec := {| atob := fun s => Some s; extractRawText := fun s => Some s;
                sheetsToCsv := fun _ => Some [] |} in
  let backend :=
    {| generateContentStream := fun _ _ =>
         {| chunks := [ {| resp_text := Some "Hi"; candidates := None |} ];
            failure := None |};
       generateContent := fun _ _ => Returned {| resp_text := Some "{}"; candidates := None |} |} in
  let '(_, items, out) := forAwait dec (Some "") backend [] [] [] en w in
  items = [] /\ out = Some (Threw (newError "Gemini API Key not configured. Set process.env.API_KEY.")).
Proof.
  intros w dec backend.
  pose proof (no_credential_no_backend_call dec (Some "") backend [] [] [] en w
                eq_refl) as H.
  simpl in H. simpl. destruct H as (_ & _ & _ & _ & Hi & Ho & _). split; assumption.
Defined.

End Credential.

(** ** The suggestion fetcher *)

Section Suggestions.
Import Types Gemini.

(** C10. With an empty url list the suggestion fetcher resolves to the
    fixed JSON text holding the single placeholder suggestion, for either
    language, whether or not a credential is configured; the module
    state and the log of backend calls are left as they were. *)
Theorem empty_urls_fixed_suggestion
    (API_KEY : option string) (backend : Backend) (w : World) (language : Language) :
  getInitialSuggestions API_KEY backend w [] language
  = (w, Returned (Some (stringify
        (JObject [("suggestions",
                   JArray [JString "Add some URLs to get topic suggestions."])]))))
  /\ stringify placeholderSuggestions
     = "{" ++ Js.dq ++ "suggestions" ++ Js.dq ++ ":[" ++ Js.dq
       ++ "Add some URLs to get topic suggestions." ++ Js.dq ++ "]}".
Proof.
  split; reflexivity.
Qed.

End Suggestions.

(** ** The streaming generator *)

Section Streaming.
Import Types Gemini.

Variable dec : Decoders.
Variable API_KEY : option string.
Variable backend : Backend.
Variable history : list ChatMessage.
Variable contextUrls : list string.
Variable contextFiles : list Attachment.
Variable language : Language.

Local Abbreviation next' := (next dec API_KEY backend history contextUrls contextFiles language).
Local Abbreviation drive' := (drive dec API_KEY backend history contextUrls contextFiles language).

Lemma drive_tail (fuel : nat) (w : World) :
  drive' fuel w GenTail = (w, [], Some (Returned tt)).
Proof. destruct fuel; reflexivity. Qed.

Lemma drive_loop_completes :
  forall rest final fuel w,
    List.length rest < fuel ->
    drive' fuel w (GenLoop rest None final)
    = (w, loopItems rest final, Some (Returned tt)).
Proof.
  induction rest as [|chunk rest IH]; intros final fuel w Hfuel.
  - destruct fuel as [|fuel]; [inversion Hfuel|].
    destruct final as [f|]; cbn [drive next pump loopItems];
      [rewrite drive_tail|]; reflexivity.
  - destruct fuel as [|fuel]; [inversion Hfuel|].
    simpl in Hfuel.
    specialize (IH (Some chunk)).
    destruct (Js.truthy_opt (resp_text chunk)) eqn:Ht.
    + cbn [drive next pump]. rewrite Ht.
      rewrite (IH fuel w) by lia.
      cbn [loopItems]. rewrite Ht. reflexivity.
    + assert (Hsame : drive' (S fuel) w (GenLoop (chunk :: rest) None final)
                      = drive' (S fuel) w (GenLoop rest None (Some chunk))).
      { cbn [drive next pump]. rewrite Ht. reflexivity. }
      rewrite Hsame, (IH (S fuel) w) by lia.
      cbn [loopItems]. rewrite Ht. reflexivity.
Qed.

Lemma drive_loop_fails :
  forall rest err final fuel w,
    List.length rest < fuel ->
    drive' fuel w (GenLoop rest (Some err) final)
    = (w, loopDeltas rest, Some (Threw (rethrowStream err))).
Proof.
  induction rest as [|chunk rest IH]; intros err final fuel w Hfuel.
  - destruct fuel as [|fuel]; [inversion Hfuel|]. reflexivity.
  - destruct fuel as [|fuel]; [inversion Hfuel|].
    simpl in Hfuel.
    destruct (Js.truthy_opt (resp_text chunk)) eqn:Ht.
    + cbn [drive next pump]. rewrite Ht.
      rewrite (IH err (Some chunk) fuel w) by lia.
      cbn [loopDeltas]. rewrite Ht. reflexivity.
    + assert (Hsame : drive' (S fuel) w (GenLoop (chunk :: rest) (Some err) final)
                      = drive' (S fuel) w (GenLoop rest (Some err) (Some chunk))).
      { cbn [drive next pump]. rewrite Ht. reflexivity. }
      rewrite Hsame, (IH err (Some chunk) (S fuel) w) by lia.
      cbn [loopDeltas]. rewrite Ht. reflexivity.
Qed.

Lemma loopDeltas_deltasOf (rest : list GenerateContentResponse) :
  loopDeltas rest = map deltaItem (deltasOf rest).
Proof.
  induction rest as [|chunk rest IH]; [reflexivity|].
  cbn [loopDeltas]. unfold deltasOf in *. cbn [flat_map].
  unfold Js.truthy_opt, textItem, deltaItem.
  destruct (resp_text chunk) as [t|]; [destruct (Js.truthy t)|]; simpl; rewrite IH; reflexivity.
Qed.

Lemma last_default_irrelevant {A : Type} (l : list A) :
  forall x d d', List.last (x :: l) d = List.last (x :: l) d'.
Proof.
  induction l as [|y l IH]; intros x d d'; [reflexivity|].
  change (List.last (y :: l) d = List.last (y :: l) d'). apply IH.
Qed.

Lemma loopItems_split (rest : list GenerateContentResponse) :
  forall final,
    loopItems rest final
    = (loopDeltas rest
       ++ match List.last (map Some rest) final with
          | Some f => [terminalItem f]
          | None => []
          end)%list.
Proof.
  induction rest as [|chunk rest IH]; intros final.
  - reflexivity.
  - cbn [loopItems loopDeltas]. rewrite IH.
    assert (Hlast : List.last (map Some (chunk :: rest)) final
                    = List.last (map Some rest) (Some chunk)).
    { destruct rest as [|g rest']; [reflexivity|].
      change (List.last (map Some (g :: rest')) final
              = List.last (map Some (g :: rest')) (Some chunk)).
      cbn [map]. apply last_default_irrelevant. }
    rewrite Hlast.
    destruct (Js.truthy_opt (resp_text chunk)); reflexivity.
Qed.

Local Abbreviation forAwait' :=
  (forAwait dec API_KEY backend history contextUrls contextFiles language).
Local Abbreviation streamOf' :=
  (streamOf dec API_KEY backend history contextUrls contextFiles language).

(** Driving a fresh generator whose credential check passes: the call is
    logged once and the loop runs over the chunks of the stream. *)
Lemma forAwait_stream (w : World) (cs : list GenerateContentResponse)
    (fail : option Thrown) :
  streamOf' w = Some {| chunks := cs; failure := fail |} ->
  exists w',
    List.length (calls w') = S (List.length (calls w))
    /\ forAwait' w = drive' (S (List.length cs)) w' (GenLoop cs fail None).
Proof.
  unfold streamOf, forAwait, budget.
  destruct (getAiInstance API_KEY (ai w)) as [[client|t] ai1] eqn:Hai; [|discriminate].
  intros Hs. injection Hs as Hs. rewrite Hs. cbn [chunks].
  eexists. split; cycle 1.
  - cbn [drive next]. rewrite Hai, Hs. cbn [chunks failure].
    destruct (pump cs fail None) as [g r]. reflexivity.
  - cbn [calls]. rewrite length_app. simpl. lia.
Qed.

Lemma terminalItems_deltas (deltas : list string) (tail : list StreamItem) :
  terminalItems (map deltaItem deltas ++ tail)%list = terminalItems tail.
Proof.
  induction deltas as [|t ts IH]; [reflexivity|]. simpl. exact IH.
Qed.

Lemma lastChunk_nonempty (chunk : GenerateContentResponse)
    (cs : list GenerateContentResponse) :
  exists f, lastChunk (chunk :: cs) = Some f /\ In f (chunk :: cs).
Proof.
  unfold lastChunk. revert chunk.
  induction cs as [|c cs IH]; intros chunk.
  - exists chunk. split; [reflexivity|left; reflexivity].
  - destruct (IH c) as (f & Hf & Hin). exists f. split; [exact Hf|right; exact Hin].
Qed.

End Streaming.

Section StreamingExamples.
Import Types Gemini Samples.

(** C2, counterexample. The stream that ends before delivering any
    chunk: the generator returns without having yielded anything, so
    there is no terminal item. *)
Lemma empty_stream_no_terminal_item :
  let '(_, items, out) :=
    forAwait decoders (Some "key") (backendOf []) [userTurn] [] [] en freshWorld in
  out = Some (Returned tt) /\ items = [] /\ List.length (terminalItems items) <> 1.
Proof.
  vm_compute. repeat split; try reflexivity. discriminate.
Qed.

End StreamingExamples.

(** ** Footnote numbering *)

Section Footnotes.
Import Types MessageItem.

Lemma insertSorted_perm (x : Cite) (l : list Cite) :
  Permutation (Js.insertSorted startsBefore x l) (x :: l).
Proof.
  induction l as [|y l IH]; simpl; [reflexivity|].
  destruct (startsBefore x y); [|reflexivity].
  rewrite IH. apply perm_swap.
Qed.

Lemma insertSorted_sorted (x : Cite) (l : list Cite) :
  StronglySorted startsNoLater l ->
  StronglySorted startsNoLater (Js.insertSorted startsBefore x l).
Proof.
  induction 1 as [|y l Hs IH Hall]; simpl.
  - constructor; constructor.
  - unfold startsBefore. destruct (cStart x <? cStart y)%Z eqn:Hlt.
    + apply Z.ltb_lt in Hlt. constructor; [exact IH|].
      rewrite Forall_forall. intros z Hz.
      apply (Permutation_in _ (insertSorted_perm x l)) in Hz.
      destruct Hz as [<-|Hz]; [unfold startsNoLater; lia|].
      rewrite Forall_forall in Hall. exact (Hall z Hz).
    + apply Z.ltb_ge in Hlt. constructor; [constructor; assumption|].
      constructor; [exact Hlt|].
      rewrite Forall_forall in *. intros z Hz.
      specialize (Hall z Hz). unfold startsNoLater in *. lia.
Qed.

Lemma sort_sorted (l : list Cite) :
  StronglySorted startsNoLater (Js.sort startsBefore l).
Proof.
  induction l as [|x l IH]; simpl; [constructor|].
  apply insertSorted_sorted, IH.
Qed.

Lemma sort_perm (l : list Cite) : Permutation (Js.sort startsBefore l) l.
Proof.
  induction l as [|x l IH]; simpl; [reflexivity|].
  rewrite insertSorted_perm, IH. reflexivity.
Qed.

Lemma mapGet_combine (seen : list string) (u : string) :
  forall k,
    mapGet (combine seen (seq k (List.length seen))) u
    = option_map (fun i => k + i) (indexOf u seen).
Proof.
  induction seen as [|x seen IH]; intros k; simpl; [reflexivity|].
  destruct (String.eqb x u).
  - simpl. f_equal. lia.
  - rewrite IH. destruct (indexOf u seen); simpl; [f_equal; lia|reflexivity].
Qed.

Lemma includes_indexOf (u : string) (seen : list string) :
  Js.arrayIncludes u seen = match indexOf u seen with Some _ => true | None => false end.
Proof.
  induction seen as [|x seen IH]; simpl; [reflexivity|].
  destruct (String.eqb x u); [reflexivity|].
  rewrite IH. destruct (indexOf u seen); reflexivity.
Qed.

Lemma indexOf_app_l (u : string) (seen extra : list string) (i : nat) :
  indexOf u seen = Some i -> indexOf u (seen ++ extra)%list = Some i.
Proof.
  revert i. induction seen as [|x seen IH]; intros i; simpl; [discriminate|].
  destruct (String.eqb x u); [trivial|].
  destruct (indexOf u seen) as [j|]; [|discriminate].
  intros H. rewrite (IH j eq_refl). exact H.
Qed.

Lemma indexOf_snoc_new (u : string) (seen : list string) :
  indexOf u seen = None -> indexOf u (seen ++ [u])%list = Some (List.length seen).
Proof.
  induction seen as [|x seen IH]; simpl.
  - rewrite String.eqb_refl. reflexivity.
  - destruct (String.eqb x u); [discriminate|].
    destruct (indexOf u seen); [discriminate|].
    intros _. rewrite IH; reflexivity.
Qed.

Lemma indexOf_firstSeenFrom (u : string) (rest : list string) :
  forall seen i,
    indexOf u seen = Some i -> indexOf u (firstSeenFrom seen rest) = Some i.
Proof.
  induction rest as [|x rest IH]; intros seen i Hi; simpl; [exact Hi|].
  destruct (Js.arrayIncludes x seen); apply IH; [exact Hi|].
  apply indexOf_app_l, Hi.
Qed.

Lemma combine_seq_snoc (seen : list string) (u : string) :
  forall k,
    (combine seen (seq k (List.length seen)) ++ [(u, k + List.length seen)])%list
    = combine (seen ++ [u])%list (seq k (List.length (seen ++ [u])%list)).
Proof.
  induction seen as [|x seen IH]; intros k; simpl.
  - rewrite Nat.add_0_r. reflexivity.
  - replace (k + S (List.length seen)) with (S k + List.length seen) by lia.
    rewrite IH. reflexivity.
Qed.

(** One call of [getSourceNumber]. *)
Lemma getSourceNumber_step (seen : list string) (nb : Numbering) (u : string) :
  Numbered seen nb ->
  let seen' := if Js.arrayIncludes u seen then seen else (seen ++ [u])%list in
  Numbered seen' (fst (getSourceNumber nb u))
  /\ snd (getSourceNumber nb u) = option_map S (indexOf u seen')
  /\ exists i, indexOf u seen' = Some i.
Proof.
  intros [Hmap Hctr]. unfold getSourceNumber, mapHas. cbn [fst snd].
  rewrite Hmap, mapGet_combine, includes_indexOf.
  destruct (indexOf u seen) as [i|] eqn:Hi; cbn [option_map].
  - rewrite Hmap, mapGet_combine, Hi. cbn.
    split; [split; assumption|]. split; [reflexivity|eauto].
  - cbn [sourceMap sourceCounter]. rewrite Hctr.
    assert (Hcomb : (combine seen (seq 1 (List.length seen)) ++ [(u, S (List.length seen))])%list
                    = combine (seen ++ [u])%list (seq 1 (List.length (seen ++ [u])%list))).
    { exact (combine_seq_snoc seen u 1). }
    rewrite Hcomb, mapGet_combine, (indexOf_snoc_new _ _ Hi). cbn.
    split; [split; [reflexivity|rewrite length_app; cbn; lia]|].
    split; [reflexivity|eauto].
Qed.

Lemma numbering_applyCitation (st : RenderState) (c : Cite) :
  numbering (applyCitation st c) = fst (getSourceNumber (numbering st) (cUri c)).
Proof.
  unfold applyCitation. destruct (getSourceNumber (numbering st) (cUri c)). reflexivity.
Qed.

Lemma firstSeenFrom_app (l1 l2 : list string) :
  forall seen, firstSeenFrom seen (l1 ++ l2)%list = firstSeenFrom (firstSeenFrom seen l1) l2.
Proof.
  induction l1 as [|x l1 IH]; intros seen; simpl; [reflexivity|].
  destruct (Js.arrayIncludes x seen); apply IH.
Qed.

Lemma numbering_after (processed : list Cite) :
  forall st seen,
    Numbered seen (numbering st) ->
    Numbered (firstSeenFrom seen (map cUri processed))
             (numbering (fold_left applyCitation processed st)).
Proof.
  induction processed as [|c processed IH]; intros st seen Hn; [exact Hn|].
  cbn [map fold_left firstSeenFrom].
  pose proof (proj1 (getSourceNumber_step seen (numbering st) (cUri c) Hn)) as Hstep.
  cbv zeta in Hstep. rewrite <- numbering_applyCitation in Hstep.
  destruct (Js.arrayIncludes (cUri c) seen); apply IH; exact Hstep.
Qed.

Lemma Numbered_initial : Numbered [] initialNumbering.
Proof. split; reflexivity. Qed.

(** The number a citation receives is one more than the position of its
    uri among the distinct uris in order of first processing. *)
Lemma numberAt_first_seen (text : string) (sorted processed rest : list Cite) (c : Cite) :
  sorted = (processed ++ c :: rest)%list ->
  exists i,
    indexOf (cUri c) (firstSeen (map cUri sorted)) = Some i
    /\ numberAt text processed c = Some (S i).
Proof.
  intros ->. unfold numberAt, processCitations, firstSeen.
  pose proof (numbering_after processed
                {| numbering := initialNumbering; processedText := text |} []
                Numbered_initial) as Hn.
  destruct (getSourceNumber_step _ _ (cUri c) Hn) as (_ & Hnum & i & Hi).
  exists i. rewrite Hnum, Hi. split; [|reflexivity].
  rewrite map_app, firstSeenFrom_app. cbn [map firstSeenFrom].
  destruct (Js.arrayIncludes (cUri c) (firstSeenFrom [] (map cUri processed)));
    apply indexOf_firstSeenFrom, Hi.
Qed.

(** C4. For any text and citation list: the citations are processed in
    descending [startIndex] order; the number inserted for a citation is
    one more than the position of its uri among the distinct uris in
    order of first processing; hence the first citation processed, which
    starts latest in the text, receives number 1, two citations with the
    same uri receive the same number, and the rendered source list pairs
    the distinct uris, in that order, with 1, 2, 3 and so on. *)
Theorem footnote_numbers_first_seen (text : string) (citations : list CitationSource) :
  let kept := flat_map keepCitation citations in
  let sorted := sortedCitations citations in
  let sources := firstSeen (map cUri sorted) in
  StronglySorted startsNoLater sorted
  /\ Permutation sorted kept
  /\ (forall processed c rest,
        sorted = (processed ++ c :: rest)%list ->
        exists i, indexOf (cUri c) sources = Some i
                  /\ numberAt text processed c = Some (S i))
  /\ (forall c rest,
        sorted = c :: rest ->
        numberAt text [] c = Some 1
        /\ forall d, In d kept -> (cStart d <= cStart c)%Z)
  /\ (forall processed1 c1 rest1 processed2 c2 rest2,
        sorted = (processed1 ++ c1 :: rest1)%list ->
        sorted = (processed2 ++ c2 :: rest2)%list ->
        cUri c1 = cUri c2 ->
        numberAt text processed1 c1 = numberAt text processed2 c2)
  /\ sourceMap (numbering (processCitations text sorted))
     = combine sources (seq 1 (List.length sources)).
Proof.
  intros kept sorted sources.
  assert (Hsorted : StronglySorted startsNoLater sorted) by apply sort_sorted.
  assert (Hperm : Permutation sorted kept) by apply sort_perm.
  split; [exact Hsorted|]. split; [exact Hperm|].
  split; [intros processed c rest Hsplit;
          exact (numberAt_first_seen text sorted processed rest c Hsplit)|].
  split.
  { intros c rest Hsplit. split.
    - unfold numberAt. cbn. rewrite String.eqb_refl. reflexivity.
    - intros d Hd. apply (Permutation_in _ (Permutation_sym Hperm)) in Hd.
      rewrite Hsplit in Hd, Hsorted. destruct Hd as [<-|Hd]; [lia|].
      apply StronglySorted_inv in Hsorted. destruct Hsorted as [_ Hall].
      rewrite Forall_forall in Hall. exact (Hall d Hd). }
  split.
  { intros p1 c1 r1 p2 c2 r2 H1 H2 Huri.
    destruct (numberAt_first_seen text sorted p1 r1 c1 H1) as (i & Hi & ->).
    destruct (numberAt_first_seen text sorted p2 r2 c2 H2) as (j & Hj & ->).
    rewrite Huri, Hj in Hi. injection Hi as ->. reflexivity. }
  exact (proj1 (numbering_after sorted
                  {| numbering := initialNumbering; processedText := text |} []
                  Numbered_initial)).
Qed.

End Footnotes.

Section CitationExamples.
Import Types MessageItem Samples.

Lemma footnote_numbers_first_seen_witness :
  sortedCitations threeCitations = [citeGamma; citeBeta; citeAlpha]
  /\ numberAt "Alpha beta gamma." [] citeGamma = Some 1
  /\ numberAt "Alpha beta gamma." [citeGamma; citeBeta] citeAlpha = Some 1
  /\ exists i, numberAt "Alpha beta gamma." [citeGamma] citeBeta = Some (S i).
Proof.
  destruct (footnote_numbers_first_seen "Alpha beta gamma." threeCitations)
    as (_ & _ & Hnum & Hfirst & Hsame & _).
  split; [reflexivity|].
  split; [exact (proj1 (Hfirst citeGamma [citeBeta; citeAlpha] eq_refl))|].
  split.
  - rewrite (Hsame [citeGamma; citeBeta] citeAlpha [] [] citeGamma [citeBeta; citeAlpha]
               eq_refl eq_refl eq_refl).
    exact (proj1 (Hfirst citeGamma [citeBeta; citeAlpha] eq_refl)).
  - destruct (Hnum [citeGamma] citeBeta [citeAlpha] eq_refl) as (i & _ & Hi).
    exists i. exact Hi.
Defined.

(** C1, at nested ranges. The citation over [2, 5) is processed first and
    its marker goes in at offset 5. When the citation over [0, 10) is
    processed next, the accumulated string in front of offset 10 is no
    longer the original text: offset 10 now lies five code units inside
    the marker just inserted, and that is where the second marker is put. *)
Theorem nested_ranges_shift_marker :
  let text := "abcdefghijkl" in
  let inner := injection "v" (Some 1) in
  let outer := injection "u" (Some 2) in
  sortedCitations nestedCitations = [citeInner; citeOuter]
  /\ textBefore text [citeInner] = "abcde" ++ inner ++ "fghijkl"
  /\ Js.slice (textBefore text [citeInner]) 0 (Some 10%Z) = "abcde<sup>"
  /\ Js.slice text 0 (Some 10%Z) = "abcdefghij"
  /\ ~ offsetIntact text (textBefore text [citeInner]) (cEnd citeOuter)
  /\ processedText (processCitations text (sortedCitations nestedCitations))
     = "abcde" ++ "<sup>" ++ outer ++ Js.slice inner 5 None ++ "fghijkl".
Proof.
  cbv zeta. repeat split; try (vm_compute; reflexivity).
  unfold offsetIntact. vm_compute. discriminate.
Qed.

End CitationExamples.

(** ** The knowledge-base panel *)

Section ContextItems.
Import Types Repository KnowledgeBase ContextAdd.

Lemma arrayIncludes_In (x : string) (l : list string) :
  Js.arrayIncludes x l = true <-> In x l.
Proof.
  induction l as [|y l IH]; simpl; [split; [discriminate|tauto]|].
  destruct (String.eqb_spec y x) as [->|Hne].
  - split; auto.
  - rewrite IH. split; [auto|]. intros [H|H]; [contradiction|exact H].
Qed.

Lemma arrayIncludes_not_In (x : string) (l : list string) :
  Js.arrayIncludes x l = false <-> ~ In x l.
Proof.
  rewrite <- arrayIncludes_In. destruct (Js.arrayIncludes x l); split; intros H.
  - discriminate.
  - exfalso. apply H. reflexivity.
  - discriminate.
  - reflexivity.
Qed.

Variable isValidUrl : string -> bool.

(** The click handler calls [onAddUrl] only below the limit and only with
    a url that is not in the list yet. *)
Lemma handleAddUrlClick_calls (urls : list string) (files : list Attachment)
    (maxItems : nat) (p p' : Panel) (url : string) :
  handleAddUrlClick isValidUrl urls files maxItems p = (p', Some url) ->
  url = currentUrlInput p
  /\ List.length urls + List.length files < maxItems
  /\ ~ In url urls
  /\ p' = acceptedPanel.
Proof.
  unfold handleAddUrlClick, totalItems.
  destruct (negb (Js.truthy (Js.trim (currentUrlInput p)))); [discriminate|].
  destruct (negb (isValidUrl (currentUrlInput p))); [discriminate|].
  destruct (maxItems <=? List.length urls + List.length files)%nat eqn:Hmax; [discriminate|].
  destruct (Js.arrayIncludes (currentUrlInput p) urls) eqn:Hinc; [discriminate|].
  intros H. injection H as <- <-.
  apply Nat.leb_gt in Hmax. apply arrayIncludes_not_In in Hinc. auto.
Qed.

Lemma urlAdd_count (maxItems : nat) (now : Z) (c : Conversation) (p : Panel) :
  let c' := fst (urlAdd isValidUrl maxItems now c p) in
  c' = c \/ (itemCount c < maxItems /\ itemCount c' = S (itemCount c)).
Proof.
  unfold urlAdd.
  destruct (handleAddUrlClick isValidUrl (conv_urls c) (conv_files c) maxItems p)
    as [p' [url|]] eqn:Hclick; cbn [fst]; [|left; reflexivity].
  destruct (handleAddUrlClick_calls _ _ _ _ _ _ Hclick) as (_ & Hlt & Hnew & _).
  right. split; [exact Hlt|].
  unfold addUrl, itemCount.
  apply Nat.leb_gt in Hlt. unfold itemCount. rewrite Hlt.
  apply arrayIncludes_not_In in Hnew. rewrite Hnew.
  cbn. rewrite length_app. cbn. lia.
Qed.

Lemma checkFile_step (files : list Attachment) (acc : option ErrorText * list File)
    (f : File) :
  List.length (snd (checkFile files acc f)) <= S (List.length (snd acc)).
Proof.
  destruct acc as [err kept]. unfold checkFile.
  destruct (negb (Js.arrayIncludes (file_type f) supportedTypes)); cbn [snd]; [lia|].
  destruct (existsb _ files); cbn [snd]; [lia|].
  rewrite length_app. simpl. lia.
Qed.

Lemma checkFile_length (files : list Attachment) (selected : list File) :
  forall acc,
    List.length (snd (fold_left (checkFile files) selected acc))
    <= List.length (snd acc) + List.length selected.
Proof.
  induction selected as [|f selected IH]; intros acc; cbn [fold_left List.length]; [lia|].
  specialize (IH (checkFile files acc f)).
  pose proof (checkFile_step files acc f). lia.
Qed.

Lemma length_stamped (clock : nat -> nat) (files : list File) :
  List.length (stamped clock files) = List.length files.
Proof.
  unfold stamped. rewrite length_combine, length_map, length_seq. lia.
Qed.

Lemma fileAdd_count (clock : nat -> nat) (maxItems : nat)
    (c : Conversation) (p : Panel) (selectedFiles : option (list File)) :
  let c' := fst (fileAdd clock maxItems c p selectedFiles) in
  c' = c \/ (itemCount c <= itemCount c' /\ itemCount c' <= maxItems).
Proof.
  unfold fileAdd, handleFilesSelected, totalItems.
  destruct selectedFiles as [selected|]; [|left; reflexivity].
  destruct (maxItems <? List.length (conv_urls c) + List.length (conv_files c)
                        + List.length selected)%nat eqn:Hmax; [left; reflexivity|].
  apply Nat.ltb_ge in Hmax.
  pose proof (checkFile_length (conv_files c) selected (None, [])) as Hlen.
  destruct (fold_left (checkFile (conv_files c)) selected (None, [])) as [err kept].
  cbn [snd List.length] in Hlen.
  destruct kept as [|f kept]; cbn [fst]; [left; reflexivity|].
  right. unfold App.addFilesUpdater, itemCount. cbn [App.withFiles conv_urls conv_files].
  rewrite length_app, length_map, length_stamped. lia.
Qed.

(** The updater [handleAddUrl] hands to [updateActiveConversation] is
    [addUrl] at the controller's own limit. *)
Lemma handleAddUrl_addUrl (url : string) (now : Z) (s : App.State) :
  App.handleAddUrl url now s
  = App.updateActiveConversation (addUrl (App.maxContextItems s) now url) s.
Proof.
  unfold App.handleAddUrl, App.updateActiveConversation. f_equal.
  unfold App.updateConversation. apply map_ext. intros c.
  destruct (String.eqb (conv_id c) (App.activeConversationId s)); [|reflexivity].
  unfold App.addUrlUpdater, addUrl, itemCount.
  destruct (Nat.leb_spec (App.maxContextItems s)
              (List.length (conv_urls c) + List.length (conv_files c))) as [Hle|Hlt].
  - rewrite (proj2 (Nat.ltb_ge _ _) Hle). reflexivity.
  - rewrite (proj2 (Nat.ltb_lt _ _) Hlt). cbn [andb].
    destruct (Js.arrayIncludes url (conv_urls c)); reflexivity.
Qed.

(** C8. When the url typed into the panel is already in the url list of
    the conversation, the click handler does not call [onAddUrl] and
    reports an error; the conversation, and with it the url list, is
    unchanged. The test is list membership under string equality: a url
    is refused as a duplicate exactly when the same string is in the
    list. If the input is also non-blank and well-formed and the limit is
    not reached, the error is the duplicate-url error. The controller's
    own [addUrl] leaves the conversation unchanged as well. *)
Theorem duplicate_url_rejected (maxItems : nat) (now : Z) (c : Conversation) (p : Panel) :
  In (currentUrlInput p) (conv_urls c) ->
  let click := handleAddUrlClick isValidUrl (conv_urls c) (conv_files c) maxItems p in
  let '(c', p') := urlAdd isValidUrl maxItems now c p in
  snd click = None
  /\ c' = c
  /\ conv_urls c' = conv_urls c
  /\ currentUrlInput p' = currentUrlInput p
  /\ error p' <> None
  /\ (Js.truthy (Js.trim (currentUrlInput p)) = true ->
      isValidUrl (currentUrlInput p) = true ->
      itemCount c < maxItems ->
      error p' = Some errorUrlExists)
  /\ addUrl maxItems now (currentUrlInput p) c = c
  /\ (forall url, Js.arrayIncludes url (conv_urls c) = true <-> In url (conv_urls c)).
Proof.
  intros Hin. apply arrayIncludes_In in Hin.
  unfold urlAdd, handleAddUrlClick, totalItems, addUrl, itemCount.
  destruct (Js.truthy (Js.trim (currentUrlInput p))); cbn [negb];
    [|repeat split; try discriminate; try apply arrayIncludes_In;
      try (destruct (maxItems <=? _)%nat; [|rewrite Hin]; reflexivity)].
  destruct (isValidUrl (currentUrlInput p)); cbn [negb];
    [|repeat split; try discriminate; try apply arrayIncludes_In;
      try (destruct (maxItems <=? _)%nat; [|rewrite Hin]; reflexivity)].
  destruct (maxItems <=? List.length (conv_urls c) + List.length (conv_files c))%nat eqn:Hmax.
  - repeat split; try discriminate; try apply arrayIncludes_In.
    intros _ _ Hlt. apply Nat.leb_le in Hmax. lia.
  - rewrite Hin. repeat split; try discriminate; apply arrayIncludes_In.
Qed.

(** Clicking Add for each of a list of well-formed, pairwise distinct
    urls that are not in the conversation yet: the conversation takes
    as many as still fit under the limit, in order, and every later
    click is refused with the limit error. *)
Lemma addUrls_fills_to_limit (maxItems : nat) (now : Z) (inputs : list string) :
  forall c,
    Forall (fun u => Js.truthy (Js.trim u) = true /\ isValidUrl u = true) inputs ->
    NoDup inputs ->
    (forall u, In u inputs -> ~ In u (conv_urls c)) ->
    let room := maxItems - itemCount c in
    let '(c', panels) := addUrls isValidUrl maxItems now c inputs in
    conv_urls c' = (conv_urls c ++ firstn room inputs)%list
    /\ conv_files c' = conv_files c
    /\ panels = (map (fun _ => acceptedPanel) (firstn room inputs)
                 ++ map (limitPanel maxItems) (skipn room inputs))%list.
Proof.
  induction inputs as [|u inputs IH]; intros c Hok Hnodup Hfresh.
  - cbn. rewrite firstn_nil, skipn_nil, app_nil_r. auto.
  - inversion Hok as [|? ? [Hblank Hvalid] Hok']; subst.
    inversion Hnodup as [|? ? Hnotin Hnodup']; subst.
    cbn [addUrls]. unfold urlAdd, handleAddUrlClick, totalItems.
    cbn [currentUrlInput]. rewrite Hblank, Hvalid. cbn [negb].
    fold (itemCount c).
    destruct (maxItems <=? itemCount c)%nat eqn:Hmax.
    + apply Nat.leb_le in Hmax.
      specialize (IH c Hok' Hnodup' (fun v Hv => Hfresh v (or_intror Hv))).
      destruct (addUrls isValidUrl maxItems now c inputs) as [c' panels].
      replace (maxItems - itemCount c) with 0 in * by lia.
      cbn [firstn skipn map app] in *.
      destruct IH as (Hu & Hf & Hp). rewrite Hu, Hf, Hp. auto.
    + apply Nat.leb_gt in Hmax.
      assert (Hnew : Js.arrayIncludes u (conv_urls c) = false).
      { apply arrayIncludes_not_In, Hfresh. left; reflexivity. }
      rewrite Hnew. unfold addUrl. rewrite (proj2 (Nat.leb_gt _ _) Hmax), Hnew.
      set (c1 := {| conv_id := conv_id c; conv_name := conv_name c;
                    conv_urls := (conv_urls c ++ [u])%list;
                    conv_files := conv_files c; conv_messages := conv_messages c;
                    conv_lastUpdated := now |}).
      assert (Hcount : itemCount c1 = S (itemCount c)).
      { unfold itemCount, c1. cbn. rewrite length_app. cbn. lia. }
      assert (Hfresh1 : forall v, In v inputs -> ~ In v (conv_urls c1)).
      { intros v Hv Hin. unfold c1 in Hin. cbn in Hin. apply in_app_or in Hin.
        destruct Hin as [Hin|[->|[]]]; [exact (Hfresh v (or_intror Hv) Hin)|contradiction]. }
      specialize (IH c1 Hok' Hnodup' Hfresh1).
      destruct (addUrls isValidUrl maxItems now c1 inputs) as [c' panels].
      rewrite Hcount in IH.
      replace (maxItems - itemCount c) with (S (maxItems - S (itemCount c))) by lia.
      cbn [firstn skipn map app].
      destruct IH as (Hu & Hf & Hp). rewrite Hu, Hf, Hp.
      unfold c1; cbn. rewrite <- app_assoc. auto.
Qed.

Lemma map_const_repeat {A B : Type} (b : B) (l : list A) :
  map (fun _ => b) l = repeat b (List.length l).
Proof. induction l as [|x l IH]; cbn; [|rewrite IH]; reflexivity. Qed.

(** C3, as amended. An add operation (the panel's guard followed by the
    updater of the controller's [handleAddUrl] or [handleAddFiles])
    never raises the item count above the limit: a conversation at or
    below the limit stays at or below it after a URL-add and after a
    file-add, and a conversation already above the limit is left as it
    is. The updater the controller applies to the active conversation
    for a url is the one of the URL-add. Starting from an empty
    conversation with limit 30, clicking Add for 31 well-formed distinct
    urls accepts the first 30, refuses the 31st with the limit error,
    and leaves 30 items. *)
Theorem context_limit_preserved :
  (forall (clock : nat -> nat) (maxItems : nat) (now : Z) (c : Conversation)
          (p : Panel) (selectedFiles : option (list File)),
      itemCount c <= maxItems ->
      itemCount (fst (urlAdd isValidUrl maxItems now c p)) <= maxItems
      /\ itemCount (fst (fileAdd clock maxItems c p selectedFiles)) <= maxItems)
  /\ (forall (clock : nat -> nat) (maxItems : nat) (now : Z) (c : Conversation)
             (p : Panel) (selectedFiles : option (list File)),
      maxItems < itemCount c ->
      fst (urlAdd isValidUrl maxItems now c p) = c
      /\ fst (fileAdd clock maxItems c p selectedFiles) = c)
  /\ (forall (url : string) (now : Z) (s : App.State),
      App.handleAddUrl url now s
      = App.updateActiveConversation (addUrl (App.maxContextItems s) now url) s)
  /\ (forall (now : Z) (inputs : list string),
      List.length inputs = 31 ->
      NoDup inputs ->
      Forall (fun u => Js.truthy (Js.trim u) = true /\ isValidUrl u = true) inputs ->
      let '(c', panels) := addUrls isValidUrl 30 now emptyConversation inputs in
      conv_urls c' = firstn 30 inputs
      /\ itemCount c' = 30
      /\ firstn 30 panels = repeat acceptedPanel 30
      /\ skipn 30 panels = map (limitPanel 30) (skipn 30 inputs)
      /\ exists last, skipn 30 inputs = [last]).
Proof.
  split; [|split; [|split]].
  - intros clock maxItems now c p sel Hle. split.
    + destruct (urlAdd_count maxItems now c p) as [->|[Hlt ->]]; lia.
    + destruct (fileAdd_count clock maxItems c p sel) as [->|[_ H]]; lia.
  - intros clock maxItems now c p sel Hgt. split.
    + destruct (urlAdd_count maxItems now c p) as [H|[Hlt _]]; [exact H|lia].
    + destruct (fileAdd_count clock maxItems c p sel) as [H|[H1 H2]]; [exact H|lia].
  - exact handleAddUrl_addUrl.
  - intros now inputs Hlen Hnodup Hok.
    pose proof (addUrls_fills_to_limit 30 now inputs emptyConversation Hok Hnodup
                  (fun _ _ H => H)) as H.
    destruct (addUrls isValidUrl 30 now emptyConversation inputs) as [c' panels].
    unfold emptyConversation, itemCount in H.
    cbn [conv_urls conv_files List.length Nat.add Nat.sub app] in H.
    destruct H as (Hu & Hf & Hp).
    assert (Hfirst : List.length (firstn 30 inputs) = 30)
      by (rewrite length_firstn; lia).
    split; [exact Hu|].
    split; [unfold itemCount; rewrite Hu, Hf, Hfirst; reflexivity|].
    assert (Hmap : map (fun _ : string => acceptedPanel) (firstn 30 inputs)
                   = repeat acceptedPanel 30).
    { rewrite map_const_repeat, Hfirst. reflexivity. }
    rewrite Hmap in Hp.
    split; [rewrite Hp, firstn_app, repeat_length, Nat.sub_diag, firstn_O, app_nil_r;
            apply firstn_all2; rewrite repeat_length; lia|].
    split; [rewrite Hp, skipn_app, repeat_length, Nat.sub_diag, skipn_O;
            rewrite skipn_all2 by (rewrite repeat_length; lia); reflexivity|].
    assert (Hskip : List.length (skipn 30 inputs) = 1) by (rewrite length_skipn; lia).
    destruct (skipn 30 inputs) as [|x [|y l]]; try discriminate. eauto.
Qed.

End ContextItems.

Section ContextItemExamples.
Import Types Repository KnowledgeBase ContextAdd Samples.

Lemma nodupb_sound (l : list string) : nodupb l = true -> NoDup l.
Proof.
  induction l as [|x l IH]; cbn; intros H; constructor.
  - apply andb_prop in H. destruct H as [H _].
    apply arrayIncludes_not_In. destruct (Js.arrayIncludes x l); [discriminate|reflexivity].
  - apply IH. apply andb_prop in H. tauto.
Qed.

Lemma wellFormed_of_forallb (isValidUrl : string -> bool) (l : list string) :
  forallb (fun u => Js.truthy (Js.trim u) && isValidUrl u) l = true ->
  Forall (fun u => Js.truthy (Js.trim u) = true /\ isValidUrl u = true) l.
Proof.
  intros H. rewrite Forall_forall. intros u Hu.
  rewrite forallb_forall in H. apply andb_prop, H, Hu.
Qed.

Lemma duplicate_url_rejected_witness :
  let p := {| currentUrlInput := "https://a.example/"; error := None |} in
  let '(c', p') := urlAdd validUrl 30 7 twoUrlConversation p in
  c' = twoUrlConversation /\ error p' = Some errorUrlExists.
Proof.
  intros p.
  pose proof (duplicate_url_rejected validUrl 30 7 twoUrlConversation p
                (or_introl eq_refl)) as H.
  cbv zeta in H.
  destruct (urlAdd validUrl 30 7 twoUrlConversation p) as [c' p'].
  destruct H as (_ & Hc & _ & _ & _ & Herr & _).
  split; [exact Hc|].
  apply Herr; [reflexivity|reflexivity|cbn; lia].
Defined.

Lemma context_limit_preserved_witness :
  itemCount (fst (urlAdd validUrl 3 7 twoUrlConversation
                    {| currentUrlInput := "https://c.example/"; error := None |})) <= 3
  /\ itemCount (fst (fileAdd (fun i => 42 + i) 3 twoUrlConversation
                       {| currentUrlInput := ""; error := None |} (Some [textFile]))) <= 3
  /\ fst (urlAdd validUrl 1 7 twoUrlConversation
            {| currentUrlInput := "https://c.example/"; error := None |})
     = twoUrlConversation
  /\ itemCount (fst (addUrls validUrl 30 7 emptyConversation thirtyOneUrls)) = 30.
Proof.
  destruct (context_limit_preserved validUrl) as (Hkeep & Hover & _ & Hfill).
  assert (Hle : itemCount twoUrlConversation <= 3) by (cbn; lia).
  assert (Hgt : 1 < itemCount twoUrlConversation) by (cbn; lia).
  split; [|split; [|split]].
  - exact (proj1 (Hkeep (fun i => 42 + i) 3 7%Z twoUrlConversation
                    {| currentUrlInput := "https://c.example/"; error := None |}
                    None Hle)).
  - exact (proj2 (Hkeep (fun i => 42 + i) 3 7%Z twoUrlConversation
                    {| currentUrlInput := ""; error := None |}
                    (Some [textFile]) Hle)).
  - exact (proj1 (Hover (fun i => 42 + i) 1 7%Z twoUrlConversation
                    {| currentUrlInput := "https://c.example/"; error := None |}
                    None Hgt)).
  - pose proof (Hfill 7%Z thirtyOneUrls eq_refl (nodupb_sound thirtyOneUrls eq_refl)
                  (wellFormed_of_forallb validUrl thirtyOneUrls eq_refl)) as H.
    destruct (addUrls validUrl 30 7 emptyConversation thirtyOneUrls) as [c' panels].
    exact (proj1 (proj2 H)).
Defined.

(** C3, counterexample. A conversation holding two urls while the limit
    is 1 (the limit was lowered after they were added): the click is
    refused, and the item count after the operation is still 2, above
    the limit. *)
Lemma over_limit_stays_over_limit :
  let p := {| currentUrlInput := "https://c.example/"; error := None |} in
  let '(c', p') := urlAdd validUrl 1 7 twoUrlConversation p in
  error p' = Some (errorMaxItemsReached 1)
  /\ itemCount c' = 2
  /\ ~ itemCount c' <= 1.
Proof.
  cbn. split; [reflexivity|]. split; [reflexivity|].
  unfold itemCount, twoUrlConversation. cbn. lia.
Qed.

End ContextItemExamples.

(** ** Deleting a conversation *)

Section DeleteConversation.
Import Types Repository.

Lemma findIndex_nth (id : string) (l : list Conversation) :
  forall i,
    findIndex id l = Some i ->
    i < List.length l
    /\ exists target, nth_error l i = Some target /\ conv_id target = id.
Proof.
  induction l as [|c l IH]; intros i; simpl; [discriminate|].
  destruct (String.eqb_spec (conv_id c) id) as [He|Hne].
  - intros H. injection H as <-. split; [lia|]. exists c. auto.
  - destruct (findIndex id l) as [j|]; [|discriminate].
    intros H. injection H as <-.
    destruct (IH j eq_refl) as (Hlt & target & Hnth & Hid).
    split; [lia|]. exists target. auto.
Qed.

Lemma length_removeAt {A : Type} (i : nat) (l : list A) :
  i < List.length l -> List.length (removeAt i l) = Nat.pred (List.length l).
Proof.
  intros Hlt. unfold removeAt.
  rewrite length_app, length_firstn, length_skipn. lia.
Qed.



End DeleteConversation.

(** ** The attachment list *)

Section Attachments.
Import Types Repository ChatInterface.

































End Attachments.

Section AttachmentExamples.
Import Types Repository ChatInterface Samples.



(** Two placeholders created with the same id are marked together by
    every reader event for that id: after the first reader has loaded
    them, the failure of the second moves both from [loaded] to [error]. *)
Example colliding_ids_second_transition :
  let s1 := step initial (EvFiles sameNameFiles) in
  let s2 := step s1 (EvReaderLoad "att-notes.txt-42" (Some "data:text/plain;base64,aGk=")) in
  let s3 := step s2 (EvReaderError "att-notes.txt-42") in
  ~ allowed initial (EvFiles sameNameFiles)
  /\ readers s1 = ["att-notes.txt-42"; "att-notes.txt-42"]
  /\ map att_status (attachments s1) = [StLoading; StLoading]
  /\ map att_status (attachments s2) = [StLoaded; StLoaded]
  /\ In "att-notes.txt-42" (readers s2)
  /\ map att_status (attachments s3) = [StError; StError].
Proof.
  cbv zeta. split.
  - intros [Hnd _]. cbn in Hnd. inversion Hnd as [|? ? Hnotin _]. apply Hnotin.
    left; reflexivity.
  - repeat split; try reflexivity. left; reflexivity.
Qed.

End AttachmentExamples.

(** ** Insertion offsets when no range is nested in a later-starting one *)

Section CitationOffsets.
Import Types MessageItem.

Lemma substring_0_app (n : nat) (a b : string) :
  n <= String.length a -> substring 0 n (a ++ b) = substring 0 n a.
Proof.
  revert n. induction a as [|c a IH]; intros n Hn; cbn in *.
  - assert (n = 0) as -> by lia. destruct b; reflexivity.
  - destruct n as [|n]; [reflexivity|]. cbn. rewrite IH by lia. reflexivity.
Qed.

Lemma substring_0_twice (n m : nat) (s : string) :
  n <= m -> substring 0 n (substring 0 m s) = substring 0 n s.
Proof.
  revert n m. induction s as [|c s IH]; intros n m Hnm.
  - destruct m, n; reflexivity.
  - destruct m as [|m]; [assert (n = 0) as -> by lia; reflexivity|].
    destruct n as [|n]; [reflexivity|]. cbn. rewrite IH by lia. reflexivity.
Qed.

Lemma length_substring (s : string) :
  forall n m, String.length (substring n m s) = Nat.min m (String.length s - n).
Proof.
  induction s as [|c s IH]; intros n m.
  - destruct n, m; reflexivity.
  - destruct n as [|n].
    + destruct m as [|m]; [reflexivity|]. cbn. rewrite IH. rewrite Nat.sub_0_r. reflexivity.
    + cbn. apply IH.
Qed.

Lemma slice_prefix (s : string) (e : Z) :
  (0 <= e <= Z.of_nat (String.length s))%Z ->
  Js.slice s 0 (Some e) = substring 0 (Z.to_nat e) s.
Proof.
  intros He. unfold Js.slice, Js.clampIndex.
  destruct (0 <? 0)%Z eqn:H0; [apply Z.ltb_lt in H0; lia|].
  destruct (e <? 0)%Z eqn:He0; [apply Z.ltb_lt in He0; lia|].
  replace (Z.to_nat (Z.min 0 (Z.of_nat (String.length s)))) with 0 by lia.
  f_equal. lia.
Qed.

Lemma length_insertAt (t : string) (e : Z) (inj : string) :
  (0 <= e)%Z ->
  String.length (insertAt t e inj) = String.length t + String.length inj.
Proof.
  intros He. unfold insertAt, Js.slice, Js.clampIndex.
  destruct (0 <? 0)%Z eqn:H0; [apply Z.ltb_lt in H0; lia|].
  destruct (e <? 0)%Z eqn:He0; [apply Z.ltb_lt in He0; lia|].
  rewrite !length_append, !length_substring. lia.
Qed.

(** Inserting at [e] leaves everything in front of an offset [e' <= e]
    as it was. *)
Lemma insertAt_prefix (t : string) (e e' : Z) (inj : string) :
  (0 <= e' <= e)%Z -> (e' <= Z.of_nat (String.length t))%Z ->
  Js.slice (insertAt t e inj) 0 (Some e') = Js.slice t 0 (Some e').
Proof.
  intros He Hlen.
  rewrite (slice_prefix t e') by lia.
  rewrite slice_prefix by (rewrite length_insertAt; lia).
  unfold insertAt.
  assert (Hfront : Js.slice t 0 (Some e)
                   = substring 0 (Z.to_nat (Z.min e (Z.of_nat (String.length t)))) t).
  { unfold Js.slice, Js.clampIndex.
    destruct (0 <? 0)%Z eqn:H0; [apply Z.ltb_lt in H0; lia|].
    destruct (e <? 0)%Z eqn:He0; [apply Z.ltb_lt in He0; lia|].
    replace (Z.to_nat (Z.min 0 (Z.of_nat (String.length t)))) with 0 by lia.
    f_equal. lia. }
  rewrite Hfront.
  rewrite substring_0_app by (rewrite length_substring; lia).
  apply substring_0_twice. lia.
Qed.

Lemma processed_prefix (processed : list Cite) :
  forall (st : RenderState) (e' : Z),
    (forall d, In d processed -> (e' <= cEnd d)%Z) ->
    (0 <= e' <= Z.of_nat (String.length (processedText st)))%Z ->
    Js.slice (processedText (fold_left applyCitation processed st)) 0 (Some e')
    = Js.slice (processedText st) 0 (Some e').
Proof.
  induction processed as [|d processed IH]; intros st e' Hends He; [reflexivity|].
  cbn [fold_left].
  assert (Htext : processedText (applyCitation st d)
                  = insertAt (processedText st) (cEnd d)
                      (injection (cUri d) (snd (getSourceNumber (numbering st) (cUri d))))).
  { unfold applyCitation. destruct (getSourceNumber (numbering st) (cUri d)). reflexivity. }
  pose proof (Hends d (or_introl eq_refl)) as Hd.
  rewrite IH.
  - rewrite Htext. apply insertAt_prefix; lia.
  - intros x Hx. apply Hends. right; exact Hx.
  - rewrite Htext, length_insertAt by lia. lia.
Qed.

Lemma sorted_before (R : Cite -> Cite -> Prop) (l1 l2 : list Cite) (x : Cite) :
  StronglySorted R (l1 ++ x :: l2)%list -> forall d, In d l1 -> R d x.
Proof.
  induction l1 as [|y l1 IH]; cbn; intros Hs d Hd; [contradiction|].
  apply StronglySorted_inv in Hs. destruct Hs as [Hs Hall].
  destruct Hd as [<-|Hd]; [|exact (IH Hs d Hd)].
  rewrite Forall_forall in Hall. apply Hall. apply in_or_app. right. left. reflexivity.
Qed.

(** When the processing order also has the end offsets in descending
    order, as it does for ranges none of which is nested in one that
    starts earlier, and the offsets lie within the text, every citation
    is inserted at the position its [endIndex] has in the original text. *)
Theorem offsets_intact_when_ends_descend (text : string) (sorted : list Cite) :
  (forall c, In c sorted -> (0 <= cEnd c <= Z.of_nat (String.length text))%Z) ->
  StronglySorted (fun a b => (cEnd b <= cEnd a)%Z) sorted ->
  forall processed c rest,
    sorted = (processed ++ c :: rest)%list ->
    offsetIntact text (textBefore text processed) (cEnd c).
Proof.
  intros Hrange Hsorted processed c rest ->.
  unfold offsetIntact, textBefore, processCitations.
  apply processed_prefix.
  - intros d Hd. exact (sorted_before _ _ _ _ Hsorted d Hd).
  - cbn [processedText]. apply Hrange. apply in_or_app. right. left. reflexivity.
Qed.

End CitationOffsets.

Section CitationOffsetExamples.
Import Types MessageItem Samples.

(** The three disjoint ranges over "Alpha beta gamma.": each marker goes
    in at the offset its citation names in the original text. *)
Example disjoint_ranges_keep_offsets :
  offsetIntact "Alpha beta gamma." (textBefore "Alpha beta gamma." [citeGamma]) (cEnd citeBeta)
  /\ offsetIntact "Alpha beta gamma."
       (textBefore "Alpha beta gamma." [citeGamma; citeBeta]) (cEnd citeAlpha).
Proof.
  assert (Hrange : forall c, In c [citeGamma; citeBeta; citeAlpha] ->
                     (0 <= cEnd c <= Z.of_nat (String.length "Alpha beta gamma."))%Z).
  { intros c [<-|[<-|[<-|[]]]]; cbn; lia. }
  assert (Hsorted : StronglySorted (fun a b => (cEnd b <= cEnd a)%Z)
                      [citeGamma; citeBeta; citeAlpha]).
  { repeat constructor; cbn; lia. }
  split.
  - exact (offsets_intact_when_ends_descend _ _ Hrange Hsorted
             [citeGamma] citeBeta [citeAlpha] eq_refl).
  - exact (offsets_intact_when_ends_descend _ _ Hrange Hsorted
             [citeGamma; citeBeta] citeAlpha [] eq_refl).
Qed.

End CitationOffsetExamples.

(** ** The generator never runs out of steps *)

Section GeneratorTotal.
Import Types Gemini.

(** Driving a fresh generator always ends, with a return or a throw. *)
Theorem forAwait_terminates
    (dec : Decoders) (API_KEY : option string) (backend : Backend)
    (history : list ChatMessage) (contextUrls : list string)
    (contextFiles : list Attachment) (language : Language) (w : World) :
  exists w' items out,
    forAwait dec API_KEY backend history contextUrls contextFiles language w
    = (w', items, Some out).
Proof.
  destruct (streamOf dec API_KEY backend history contextUrls contextFiles language w)
    as [[cs fail]|] eqn:Hs.
  - destruct (forAwait_stream _ _ _ _ _ _ _ w cs fail Hs) as (w' & _ & ->).
    destruct fail as [err|].
    + rewrite drive_loop_fails by lia. eauto.
    + rewrite drive_loop_completes by lia. eauto.
  - unfold streamOf in Hs. unfold forAwait, budget.
    destruct (getAiInstance API_KEY (ai w)) as [[client|t] ai1] eqn:Hai; [discriminate|].
    cbn. rewrite Hai. eauto.
Qed.

End GeneratorTotal.

(* ===================================================================== *)
(** * Further properties of the service                                   *)
(* ===================================================================== *)

Section ServiceClient.
Import Types Gemini.

(** X1. The client is created at most once: a call that returns a client
    leaves that client in the module variable, needed a non-empty key,
    returned the client that was already there if there was one, and
    every later call returns the same client without changing the
    variable. *)
Theorem getAiInstance_memoized
    (API_KEY : option string) (ai0 ai1 : option GoogleGenAI) (client : GoogleGenAI) :
  getAiInstance API_KEY ai0 = (Returned client, ai1) ->
  ai1 = Some client
  /\ Js.truthy_opt API_KEY = true
  /\ (forall existing, ai0 = Some existing -> client = existing)
  /\ (ai0 = None -> API_KEY = Some (apiKey client))
  /\ getAiInstance API_KEY ai1 = (Returned client, ai1).
Proof.
  unfold getAiInstance. destruct API_KEY as [key|]; [|discriminate].
  cbn [Js.truthy_opt]. destruct (Js.truthy key) eqn:Hkey; [|discriminate].
  destruct ai0 as [existing|]; intros H; injection H as <- <-.
  - repeat split; try reflexivity; try discriminate.
    intros e He. injection He as <-. reflexivity.
  - repeat split; try reflexivity. intros e He. discriminate.
Qed.

Lemma getAiInstance_memoized_witness :
  getAiInstance (Some "key") (Some {| apiKey := "first" |})
  = (Returned {| apiKey := "first" |}, Some {| apiKey := "first" |})
  /\ getAiInstance (Some "key") None
     = (Returned {| apiKey := "key" |}, Some {| apiKey := "key" |}).
Proof.
  split.
  - exact (proj2 (proj2 (proj2 (proj2
      (getAiInstance_memoized (Some "key") (Some {| apiKey := "first" |})
         (Some {| apiKey := "first" |}) {| apiKey := "first" |} eq_refl))))).
  - exact (proj2 (proj2 (proj2 (proj2
      (getAiInstance_memoized (Some "key") None
         (Some {| apiKey := "key" |}) {| apiKey := "key" |} eq_refl))))).
Defined.

(** X3. Whatever the backend throws, the generator, the suggestion
    fetcher and the summary function rethrow an [Error] whose message is
    not empty, so the fallback texts of the callers
    ([e.message || ...]) are never used for a failed backend call. *)
Theorem rethrown_errors_have_messages (t : Thrown) :
  (exists msg, rethrowStream t = newError msg /\ Js.truthy msg = true
               /\ Response.errorMessageOf (rethrowStream t) = msg)
  /\ (exists msg, rethrowSuggestions t = newError msg /\ Js.truthy msg = true)
  /\ (exists msg, Summary.rethrowSummary t = newError msg /\ Js.truthy msg = true).
Proof.
  split; [|split].
  - unfold rethrowStream. destruct t as [e|].
    + destruct (Js.truthy (message e) && Js.includes "API key not valid" (message e));
        [eexists; repeat split|].
      destruct (Js.truthy (message e) && Js.includes "quota" (message e));
        [eexists; repeat split|].
      destruct (match errType e with Some ty => String.eqb ty "GoogleGenAIError"
                                | None => false end && Js.truthy (message e));
        eexists; split; try reflexivity; split; try reflexivity;
        unfold Response.errorMessageOf, newError; cbn [message]; reflexivity.
    + eexists; repeat split.
  - unfold rethrowSuggestions. destruct t as [e|].
    + destruct (Js.truthy (message e) && Js.includes "API key not valid" (message e));
        [eexists; repeat split|].
      destruct (Js.truthy (message e) && _); eexists; repeat split.
    + eexists; repeat split.
  - unfold Summary.rethrowSummary. destruct t as [e|].
    + destruct (Js.truthy (message e) && Js.includes "API key not valid" (message e));
        eexists; repeat split.
    + eexists; repeat split.
Qed.

End ServiceClient.

Section ServiceCalls.
Import Types Gemini.

(** X2. When the backend stream fails after some chunks, a consumer
    driving the generator receives the non-empty text deltas of the
    chunks that arrived, in order, and then the rethrown error; no
    terminal item is yielded, and the backend was called exactly once. *)
Theorem failing_stream_partial_output
    (dec : Decoders) (API_KEY : option string) (backend : Backend)
    (history : list ChatMessage) (contextUrls : list string)
    (contextFiles : list Attachment) (language : Language) (w : World)
    (cs : list GenerateContentResponse) (err : Thrown) :
  streamOf dec API_KEY backend history contextUrls contextFiles language w
  = Some {| chunks := cs; failure := Some err |} ->
  let '(w', items, out) :=
    forAwait dec API_KEY backend history contextUrls contextFiles language w in
  items = map deltaItem (deltasOf cs)
  /\ out = Some (Threw (rethrowStream err))
  /\ terminalItems items = []
  /\ List.length (calls w') = S (List.length (calls w)).
Proof.
  intros Hs.
  destruct (forAwait_stream _ _ _ _ _ _ _ w cs (Some err) Hs) as (w' & Hcalls & ->).
  rewrite drive_loop_fails by lia. rewrite loopDeltas_deltasOf.
  split; [reflexivity|]. split; [reflexivity|]. split; [|exact Hcalls].
  rewrite <- (app_nil_r (map deltaItem (deltasOf cs))).
  apply terminalItems_deltas.
Qed.

Lemma failing_stream_partial_output_witness :
  let '(_, items, out) :=
    forAwait Samples.decoders (Some "key")
      (MoreSamples.failingBackend Samples.helloChunks MoreSamples.quotaError)
      [Samples.userTurn] [] [] en Samples.freshWorld in
  items = [deltaItem "Hel"; deltaItem "lo"]
  /\ out = Some (Threw (newError "API quota exceeded. Please check your Gemini API quota.")).
Proof.
  pose proof (failing_stream_partial_output Samples.decoders (Some "key")
                (MoreSamples.failingBackend Samples.helloChunks MoreSamples.quotaError)
                [Samples.userTurn] [] [] en Samples.freshWorld
                Samples.helloChunks MoreSamples.quotaError eq_refl) as H.
  destruct (forAwait _ _ _ _ _ _ _ _) as [[w' items] out].
  destruct H as (Hitems & Hout & _ & _). split; [exact Hitems|exact Hout].
Defined.

(** X7. With a non-empty url list the suggestion fetcher checks the
    credential first: without one it throws the configuration error and
    the backend is not called; with one it calls the backend exactly
    once, asking for JSON and passing no tools, and resolves to the text
    of the response or throws the rethrown error. *)
Theorem suggestions_for_urls
    (API_KEY : option string) (backend : Backend) (w : World)
    (url : string) (urls : list string) (language : Language) :
  let '(w', out) := getInitialSuggestions API_KEY backend w (url :: urls) language in
  (Js.truthy_opt API_KEY = false ->
     calls w' = calls w
     /\ out = Threw (newError "Gemini API Key not configured. Set process.env.API_KEY."))
  /\ (Js.truthy_opt API_KEY = true ->
      exists client req,
        calls w' = (calls w ++ [(client, req)])%list
        /\ req_responseMimeType req = Some "application/json"
        /\ req_tools req = None
        /\ out = match generateContent backend client req with
                 | Returned response => Returned (resp_text response)
                 | Threw err => Threw (rethrowSuggestions err)
                 end).
Proof.
  unfold getInitialSuggestions.
  destruct (Js.truthy_opt API_KEY) eqn:Hkey.
  - destruct (getAiInstance_configured API_KEY (ai w) Hkey) as (client & ai1 & ->).
    match goal with
    | |- context [generateContent backend client ?r] => set (req := r)
    end.
    destruct (generateContent backend client req) as [response|err] eqn:Hcall;
      (split; [discriminate|]); intros _; exists client, req; cbn [calls];
      repeat split; rewrite Hcall; reflexivity.
  - rewrite (getAiInstance_unconfigured API_KEY (ai w) Hkey).
    split; [|discriminate]. intros _. split; reflexivity.
Qed.

Lemma suggestions_for_urls_witness :
  snd (getInitialSuggestions None (Samples.backendOf []) Samples.freshWorld
         ["https://a.example/"] en)
  = Threw (newError "Gemini API Key not configured. Set process.env.API_KEY.")
  /\ snd (getInitialSuggestions (Some "key") (Samples.backendOf []) Samples.freshWorld
            ["https://a.example/"] en)
     = Returned (Some "{}").
Proof.
  pose proof (suggestions_for_urls None (Samples.backendOf []) Samples.freshWorld
                "https://a.example/" [] en) as Hnone.
  pose proof (suggestions_for_urls (Some "key") (Samples.backendOf []) Samples.freshWorld
                "https://a.example/" [] en) as Hsome.
  destruct (getInitialSuggestions None _ _ _ _) as [w1 out1].
  destruct (getInitialSuggestions (Some "key") _ _ _ _) as [w2 out2].
  split.
  - exact (proj2 (proj1 Hnone eq_refl)).
  - destruct (proj2 Hsome eq_refl) as (client & req & _ & _ & _ & Hout).
    rewrite Hout. reflexivity.
Defined.

(** X8. The summary function checks the credential before anything
    else: without one it throws the configuration error, even for a
    history that has nothing to summarize. With one, a history without
    user or model messages resolves to the fixed notice and the backend
    is not called; any other history makes exactly one backend call. *)
Theorem summary_checks_key_first
    (API_KEY : option string) (backend : Backend) (w : World)
    (history : list ChatMessage) (language : Language) :
  let '(w', out) := Summary.getSummary API_KEY backend w history language in
  (Js.truthy_opt API_KEY = false ->
     calls w' = calls w
     /\ out = Threw (newError "Gemini API Key not configured. Set process.env.API_KEY."))
  /\ (Js.truthy_opt API_KEY = true ->
      Forall (fun msg => msg_sender msg = SYSTEM) history ->
      calls w' = calls w /\ out = Returned (Some Summary.emptyConversationNotice))
  /\ (Js.truthy_opt API_KEY = true ->
      (exists msg, In msg history /\ msg_sender msg <> SYSTEM) ->
      List.length (calls w') = S (List.length (calls w))).
Proof.
  unfold Summary.getSummary.
  destruct (Js.truthy_opt API_KEY) eqn:Hkey.
  - destruct (getAiInstance_configured API_KEY (ai w) Hkey) as (client & ai1 & ->).
    assert (Hsys : Forall (fun msg => msg_sender msg = SYSTEM) history ->
                   Summary.conversationText history = "").
    { intros Hall. unfold Summary.conversationText.
      replace (filter _ history) with (@nil ChatMessage); [reflexivity|].
      induction Hall as [|m l Hm _ IH]; [reflexivity|]. cbn. rewrite Hm. cbn. exact IH. }
    assert (Hsome : (exists msg, In msg history /\ msg_sender msg <> SYSTEM) ->
                    Js.truthy (Summary.conversationText history) = true).
    { intros (m & Hin & Hm). unfold Summary.conversationText.
      assert (Hne : exists x l, map Summary.summaryLine
                                  (filter (fun msg => sender_eqb (msg_sender msg) USER
                                                      || sender_eqb (msg_sender msg) MODEL)
                                          history) = x :: l
                                /\ Js.truthy x = true).
      { clear Hsys. induction history as [|h t IH]; [contradiction|]. cbn.
        destruct (sender_eqb (msg_sender h) USER || sender_eqb (msg_sender h) MODEL) eqn:Hh.
        - cbn. eexists; eexists; split; [reflexivity|].
          unfold Summary.summaryLine. destruct (sender_eqb (msg_sender h) USER); reflexivity.
        - destruct Hin as [->|Hin]; [|exact (IH Hin)].
          exfalso. destruct (msg_sender m); cbn in Hh; try discriminate. apply Hm; reflexivity. }
      destruct Hne as (x & l & -> & Hx).
      destruct x as [|c x]; [discriminate|]. destruct l; reflexivity. }
    destruct (Js.truthy (Summary.conversationText history)) eqn:Htxt; cbn [negb].
    + destruct (generateContent backend client _); cbn [calls];
        (split; [discriminate|]); split.
      * intros _ Hall. rewrite (Hsys Hall) in Htxt. discriminate.
      * intros _ _. rewrite length_app; cbn; lia.
      * intros _ Hall. rewrite (Hsys Hall) in Htxt. discriminate.
      * intros _ _. rewrite length_app; cbn; lia.
    + split; [discriminate|]. split.
      * intros _ _. split; reflexivity.
      * intros _ Hex. discriminate (Hsome Hex).
  - rewrite (getAiInstance_unconfigured API_KEY (ai w) Hkey).
    split; [intros _; split; reflexivity|]. split; discriminate.
Qed.

Lemma summary_checks_key_first_witness :
  snd (Summary.getSummary None (Samples.backendOf []) Samples.freshWorld [] en)
  = Threw (newError "Gemini API Key not configured. Set process.env.API_KEY.")
  /\ snd (Summary.getSummary (Some "key") (Samples.backendOf []) Samples.freshWorld
            [MoreSamples.welcomeTurn] en)
     = Returned (Some Summary.emptyConversationNotice)
  /\ List.length (calls (fst (Summary.getSummary (Some "key") (Samples.backendOf [])
                               Samples.freshWorld [Samples.userTurn] en))) = 1.
Proof.
  pose proof (summary_checks_key_first None (Samples.backendOf []) Samples.freshWorld
                [] en) as H1.
  pose proof (summary_checks_key_first (Some "key") (Samples.backendOf [])
                Samples.freshWorld [MoreSamples.welcomeTurn] en) as H2.
  pose proof (summary_checks_key_first (Some "key") (Samples.backendOf [])
                Samples.freshWorld [Samples.userTurn] en) as H3.
  destruct (Summary.getSummary None _ _ _ _) as [w1 out1].
  destruct (Summary.getSummary (Some "key") _ _ [MoreSamples.welcomeTurn] _) as [w2 out2].
  destruct (Summary.getSummary (Some "key") _ _ [Samples.userTurn] _) as [w3 out3].
  split; [exact (proj2 (proj1 H1 eq_refl))|]. split.
  - apply (proj1 (proj2 H2) eq_refl). repeat constructor.
  - apply (proj2 (proj2 H3) eq_refl). exists Samples.userTurn. split; [left; reflexivity|].
    discriminate.
Defined.

End ServiceCalls.

Section RequestHistory.
Import Types Gemini Turns.

Variable dec : Decoders.

Lemma mapHistory_skip (ctx : string) (flag : bool) (m : ChatMessage)
    (rest : list ChatMessage) :
  skippedMessage m = true ->
  mapHistory dec ctx flag (m :: rest) = mapHistory dec ctx flag rest.
Proof.
  unfold skippedMessage. intros H. cbn [mapHistory]. rewrite H. reflexivity.
Qed.

(** A message that is kept without the context in front of it: the turn
    it gives does not depend on the context or on the flag. *)
Lemma mapHistory_keep (ctx : string) (flag : bool) (m : ChatMessage)
    (rest : list ChatMessage) :
  skippedMessage m = false ->
  userTurnOf m && flag && Js.truthy ctx = false ->
  mapHistory dec ctx flag (m :: rest)
  = (mapHistory dec "" false [m] ++ mapHistory dec ctx flag rest)%list.
Proof.
  unfold userTurnOf, skippedMessage. intros Hskip Hno.
  rewrite Hskip in Hno. cbn [negb andb] in Hno.
  cbn [mapHistory]. rewrite Hskip.
  assert (Hpre : String.eqb (if sender_eqb (msg_sender m) USER then "user" else "model")
                            "user" && flag && Js.truthy ctx = false).
  { destruct (sender_eqb (msg_sender m) USER); [exact Hno|reflexivity]. }
  rewrite Hpre.
  replace (String.eqb (if sender_eqb (msg_sender m) USER then "user" else "model")
                      "user" && false && Js.truthy "")
    with false by (destruct (sender_eqb (msg_sender m) USER); reflexivity).
  match goal with
  | |- context [match ?ps with [] => _ | _ :: _ => _ end] => destruct ps
  end; reflexivity.
Qed.

(** The first user turn, with the context in front of it. *)
Lemma mapHistory_first_user (ctx : string) (m : ChatMessage) (rest : list ChatMessage) :
  userTurnOf m = true ->
  Js.truthy ctx = true ->
  mapHistory dec ctx true (m :: rest)
  = (mapHistory dec "" false [withContext ctx m] ++ mapHistory dec ctx false rest)%list.
Proof.
  unfold userTurnOf. intros Huser Hctx.
  apply andb_prop in Huser. destruct Huser as [Hskip Huser].
  apply negb_true_iff in Hskip. unfold skippedMessage in Hskip.
  cbn [mapHistory withContext msg_sender msg_isLoading msg_attachments msg_text].
  rewrite Hskip, Huser, Hctx. cbv iota.
  replace (String.eqb "user" "user") with true by reflexivity. cbn [andb].
  match goal with
  | |- context [match ?ps with [] => _ | _ :: _ => _ end] => destruct ps
  end; reflexivity.
Qed.

Lemma mapHistory_no_context (ctx : string) (l : list ChatMessage) :
  mapHistory dec ctx false l = mapHistory dec "" false l.
Proof.
  induction l as [|m l IH]; [reflexivity|].
  destruct (skippedMessage m) eqn:Hskip.
  - rewrite !mapHistory_skip by exact Hskip. exact IH.
  - rewrite (mapHistory_keep ctx false m l Hskip)
      by (rewrite andb_false_r; reflexivity).
    rewrite (mapHistory_keep "" false m l Hskip)
      by (rewrite andb_false_r; reflexivity).
    rewrite IH. reflexivity.
Qed.

Lemma mapHistory_app_no_context (l1 l2 : list ChatMessage) :
  mapHistory dec "" false (l1 ++ l2)
  = (mapHistory dec "" false l1 ++ mapHistory dec "" false l2)%list.
Proof.
  induction l1 as [|m l1 IH]; [reflexivity|]. cbn [app].
  destruct (skippedMessage m) eqn:Hskip.
  - rewrite !mapHistory_skip by exact Hskip. exact IH.
  - rewrite (mapHistory_keep "" false m (l1 ++ l2) Hskip)
      by (rewrite andb_false_r; reflexivity).
    rewrite (mapHistory_keep "" false m l1 Hskip)
      by (rewrite andb_false_r; reflexivity).
    rewrite IH, app_assoc. reflexivity.
Qed.

Lemma mapHistory_before_first_user (ctx : string) (pre rest : list ChatMessage) :
  Forall (fun m => userTurnOf m = false) pre ->
  mapHistory dec ctx true (pre ++ rest)
  = (mapHistory dec "" false pre ++ mapHistory dec ctx true rest)%list.
Proof.
  induction 1 as [|m pre Hm _ IH]; [reflexivity|]. cbn [app].
  destruct (skippedMessage m) eqn:Hskip.
  - rewrite !mapHistory_skip by exact Hskip. exact IH.
  - rewrite (mapHistory_keep ctx true m (pre ++ rest) Hskip) by (rewrite Hm; reflexivity).
    rewrite (mapHistory_keep "" false m pre Hskip)
      by (rewrite andb_false_r; reflexivity).
    rewrite IH, app_assoc. reflexivity.
Qed.

(** X5. The knowledge-base text goes in front of the first user message
    that is sent and nowhere else: the turns built for a history are
    those built, without any knowledge-base text, for the history in
    which that message has the text and a line feed in front of its own
    text. A history in which no message is sent as a user turn is sent
    without the knowledge-base text. *)
Theorem context_goes_to_first_user_turn (ctx : string) :
  Js.truthy ctx = true ->
  (forall pre u post,
      Forall (fun m => userTurnOf m = false) pre ->
      userTurnOf u = true ->
      mapHistory dec ctx true (pre ++ u :: post)
      = mapHistory dec "" false (pre ++ withContext ctx u :: post))
  /\ (forall history,
      Forall (fun m => userTurnOf m = false) history ->
      mapHistory dec ctx true history = mapHistory dec "" false history).
Proof.
  intros Hctx. split.
  - intros pre u post Hpre Hu.
    rewrite mapHistory_before_first_user by exact Hpre.
    rewrite (mapHistory_first_user ctx u post Hu Hctx), (mapHistory_no_context ctx post).
    rewrite (mapHistory_app_no_context pre).
    change (withContext ctx u :: post) with ([withContext ctx u] ++ post)%list.
    rewrite (mapHistory_app_no_context [withContext ctx u] post). reflexivity.
  - intros history Hall.
    rewrite <- (app_nil_r history) at 1.
    rewrite mapHistory_before_first_user by exact Hall.
    cbn [mapHistory]. rewrite app_nil_r. reflexivity.
Qed.

Lemma wellFormed_single (m : ChatMessage) :
  Forall wellFormedTurn (mapHistory dec "" false [m]).
Proof.
  cbn [mapHistory]. destruct (sender_eqb (msg_sender m) SYSTEM || isTrue (msg_isLoading m));
    [constructor|].
  match goal with
  | |- context [match ?ps with [] => _ | _ :: _ => _ end] => destruct ps eqn:Hps
  end; [constructor|].
  constructor; [|constructor]. split; [|discriminate].
  cbn [role]. destruct (sender_eqb (msg_sender m) USER); auto.
Qed.

(** X4. Every turn of a request has role user or model and at least one
    part, whatever the knowledge-base text; system messages and messages
    still loading contribute nothing, so a request has at most as many
    turns as the history has other messages. *)
Theorem request_turns_well_formed (ctx : string) (history : list ChatMessage) :
  Forall wellFormedTurn (mapHistory dec ctx true history)
  /\ List.length (mapHistory dec ctx true history)
     <= List.length (filter (fun m => negb (skippedMessage m)) history)
  /\ mapHistory dec ctx true (filter (fun m => negb (skippedMessage m)) history)
     = mapHistory dec ctx true history.
Proof.
  assert (Hgen : forall flag l,
             Forall wellFormedTurn (mapHistory dec ctx flag l)
             /\ List.length (mapHistory dec ctx flag l)
                <= List.length (filter (fun m => negb (skippedMessage m)) l)
             /\ mapHistory dec ctx flag (filter (fun m => negb (skippedMessage m)) l)
                = mapHistory dec ctx flag l).
  { intros flag l. revert flag. induction l as [|m l IH]; intros flag.
    - cbn. repeat split; [constructor|lia].
    - destruct (skippedMessage m) eqn:Hskip.
      + cbn [filter]. rewrite Hskip. cbn [negb].
        rewrite mapHistory_skip by exact Hskip. apply IH.
      + cbn [filter]. rewrite Hskip. cbn [negb List.length].
        destruct (userTurnOf m && flag && Js.truthy ctx) eqn:Hfirst.
        * apply andb_prop in Hfirst. destruct Hfirst as [Hfirst Hctx].
          apply andb_prop in Hfirst. destruct Hfirst as [Hu ->].
          rewrite !(mapHistory_first_user ctx m _ Hu Hctx).
          destruct (IH false) as (Hwf & Hlen & Heq). rewrite Heq.
          split; [apply Forall_app; split; [apply wellFormed_single|exact Hwf]|].
          split; [|reflexivity].
          rewrite length_app.
          assert (List.length (mapHistory dec "" false [withContext ctx m]) <= 1).
          { cbn [mapHistory]. destruct (_ || _); [cbn; lia|].
            match goal with
            | |- context [match ?ps with [] => _ | _ :: _ => _ end] => destruct ps
            end; cbn; lia. }
          lia.
        * rewrite !(mapHistory_keep ctx flag m _ Hskip Hfirst).
          destruct (IH flag) as (Hwf & Hlen & Heq). rewrite Heq.
          split; [apply Forall_app; split; [apply wellFormed_single|exact Hwf]|].
          split; [|reflexivity].
          rewrite length_app.
          assert (List.length (mapHistory dec "" false [m]) <= 1).
          { cbn [mapHistory]. destruct (_ || _); [cbn; lia|].
            match goal with
            | |- context [match ?ps with [] => _ | _ :: _ => _ end] => destruct ps
            end; cbn; lia. }
          lia. }
  exact (Hgen true history).
Qed.

End RequestHistory.

Section RequestHistoryExamples.
Import Types Gemini Turns.

Lemma context_goes_to_first_user_turn_witness :
  mapHistory Samples.decoders "KB" true [MoreSamples.welcomeTurn; Samples.userTurn]
  = [ {| role := "user"; parts := [TextPart ("KB" ++ Js.nl ++ "Hi")] |} ].
Proof.
  refine (eq_trans
            (proj1 (context_goes_to_first_user_turn Samples.decoders "KB" eq_refl)
               [MoreSamples.welcomeTurn] Samples.userTurn []
               (Forall_cons MoreSamples.welcomeTurn
                  (eq_refl : userTurnOf MoreSamples.welcomeTurn = false) (Forall_nil _))
               eq_refl) _).
  reflexivity.
Defined.

End RequestHistoryExamples.

Section AttachmentParts.
Import Types Gemini.

(** X6. An attachment is passed to the backend as inline data only if
    its MIME type is one of the four inline types, and then with its
    type and data unchanged; an attachment without data gives no part,
    whatever its type and whatever the decoders do. *)
Theorem inline_parts_are_supported_media
    (dec : Decoders) (attachment : Attachment) (prefix : string) :
  (forall mimeType data,
      createPartFromAttachment dec attachment prefix = Some (InlineData mimeType data) ->
      mimeType = att_type attachment
      /\ att_data attachment = Some data
      /\ In mimeType supportedInlineTypes)
  /\ (Js.truthy_opt (att_data attachment) = false ->
      createPartFromAttachment dec attachment prefix = None).
Proof.
  unfold createPartFromAttachment. split.
  - intros mimeType data.
    destruct (att_data attachment) as [d|]; [|discriminate].
    destruct (Js.truthy d); cbn [negb]; [|discriminate].
    destruct (String.prefix "text/" (att_type attachment)).
    { destruct (atob dec d); unfold fileBlock, fileError; discriminate. }
    destruct (String.eqb (att_type attachment) _).
    { destruct (atob dec d) as [bytes|]; [destruct (extractRawText dec bytes)|];
        unfold fileBlock, fileError; discriminate. }
    destruct (String.eqb (att_type attachment) _).
    { destruct (sheetsToCsv dec d); unfold fileBlock, fileError; discriminate. }
    destruct (Js.arrayIncludes (att_type attachment) supportedInlineTypes) eqn:Hinc;
      [|discriminate].
    intros H. injection H as <- <-. repeat split.
    apply arrayIncludes_In. exact Hinc.
  - destruct (att_data attachment) as [d|]; [|reflexivity].
    cbn [Js.truthy_opt]. intros ->. reflexivity.
Qed.

Lemma inline_parts_are_supported_media_witness :
  createPartFromAttachment Samples.decoders MoreSamples.pngAttachment "User Upload"
  = Some (InlineData "image/png" "iVBORw0KGgo=")
  /\ createPartFromAttachment Samples.decoders MoreSamples.loadingAttachment "User Upload"
     = None.
Proof.
  destruct (inline_parts_are_supported_media Samples.decoders MoreSamples.loadingAttachment
              "User Upload") as [_ Hnone].
  split; [reflexivity|exact (Hnone eq_refl)].
Defined.

End AttachmentParts.

(* ===================================================================== *)
(** * Further properties of citation rendering                            *)
(* ===================================================================== *)

Section MarkerInsertion.
Import Types MessageItem.

Lemma substring_split (s : string) :
  forall k, k <= String.length s ->
            substring 0 k s ++ substring k (String.length s - k) s = s.
Proof.
  induction s as [|c s IH]; intros k Hk.
  - cbn in Hk. assert (k = 0) as -> by lia. reflexivity.
  - destruct k as [|k].
    + cbn [substring append String.length Nat.sub]. f_equal.
      specialize (IH 0 (Nat.le_0_l _)). rewrite Nat.sub_0_r in IH.
      destruct s; [reflexivity|]. cbn [substring append] in IH. exact IH.
    + cbn [substring append String.length Nat.sub]. f_equal. apply IH. cbn in Hk. lia.
Qed.

(** X9. For every offset, negative or past the end included, the part
    of the text before the marker and the part after it are the text cut
    in two: inserting a marker neither drops nor repeats a code unit,
    and the text grows by exactly the length of the marker. *)
Theorem marker_insertion_keeps_text (text : string) (endIndex : Z) (marker : string) :
  Js.slice text 0 (Some endIndex) ++ Js.slice text endIndex None = text
  /\ insertAt text endIndex marker
     = Js.slice text 0 (Some endIndex) ++ marker ++ Js.slice text endIndex None
  /\ String.length (insertAt text endIndex marker)
     = String.length text + String.length marker.
Proof.
  assert (Hcut : Js.slice text 0 (Some endIndex) ++ Js.slice text endIndex None = text).
  { unfold Js.slice.
    set (len := Z.of_nat (String.length text)).
    assert (H0 : Js.clampIndex len 0 = 0%Z).
    { unfold Js.clampIndex. cbn. lia. }
    rewrite H0.
    assert (Hk : (0 <= Js.clampIndex len endIndex <= len)%Z).
    { unfold Js.clampIndex. destruct (endIndex <? 0)%Z eqn:He;
        [apply Z.ltb_lt in He|apply Z.ltb_ge in He]; lia. }
    set (k := Js.clampIndex len endIndex) in *.
    replace (Z.to_nat 0) with 0 by reflexivity.
    replace (Z.to_nat (Z.max (k - 0) 0)) with (Z.to_nat k) by lia.
    replace (Z.to_nat (Z.max (len - k) 0)) with (String.length text - Z.to_nat k) by lia.
    apply substring_split. lia. }
  split; [exact Hcut|]. split; [reflexivity|].
  unfold insertAt. rewrite !length_append.
  rewrite <- Hcut at 3. rewrite length_append. lia.
Qed.

(** X10. Markers are only put into model messages that have text and
    at least one citation: any other message is rendered from its text
    as it is. When none of the citations of such a model message has
    both offsets and a non-empty uri, its text is handed on unchanged
    and the source list is empty. *)
Theorem markers_only_on_cited_model_text (message : ChatMessage) :
  (msg_sender message <> MODEL \/ msg_text message = ""
   \/ msg_citations message = None \/ msg_citations message = Some [] ->
   renderMessageContent message = ModelMarkdown (msg_text message)
   \/ renderMessageContent message = PlainText (msg_text message)
   \/ renderMessageContent message = Nothing)
  /\ (msg_sender message = MODEL -> Js.truthy (msg_text message) = true ->
      forall c cs,
        msg_citations message = Some (c :: cs) ->
        Forall (fun x => keepCitation x = []) (c :: cs) ->
        renderMessageContent message = WithCitations (msg_text message) []).
Proof.
  unfold renderMessageContent. split.
  - intros H.
    assert (Hguard : sender_eqb (msg_sender message) MODEL
                     && nonEmpty (msg_citations message)
                     && Js.truthy (msg_text message) = false).
    { destruct H as [H|[H|[H|H]]].
      - destruct (msg_sender message); try reflexivity. contradiction.
      - rewrite H. rewrite andb_false_r. reflexivity.
      - rewrite H. cbn. rewrite andb_false_r. reflexivity.
      - rewrite H. cbn. rewrite andb_false_r. reflexivity. }
    rewrite Hguard.
    destruct (sender_eqb (msg_sender message) MODEL); [left; reflexivity|].
    destruct (negb (Js.truthy (msg_text message)) && nonEmpty (msg_attachments message));
      auto.
  - intros Hmodel Htext c cs Hcites Hall.
    rewrite Hmodel, Hcites, Htext. cbn [sender_eqb nonEmpty andb].
    unfold sortedCitations.
    assert (Hnone : flat_map keepCitation (c :: cs) = []).
    { clear Hcites. induction Hall as [|x l Hx _ IH]; [reflexivity|].
      cbn. rewrite Hx. exact IH. }
    rewrite Hnone. reflexivity.
Qed.

Lemma markers_only_on_cited_model_text_witness :
  renderMessageContent Samples.userTurn = PlainText "Hi"
  /\ renderMessageContent MoreSamples.answerWithBadCitation = WithCitations "Answer" [].
Proof.
  split; [reflexivity|].
  exact (proj2 (markers_only_on_cited_model_text MoreSamples.answerWithBadCitation)
           eq_refl eq_refl MoreSamples.citationWithoutEnd [] eq_refl
           (Forall_cons MoreSamples.citationWithoutEnd
              (eq_refl : keepCitation MoreSamples.citationWithoutEnd = [])
              (Forall_nil _))).
Defined.

End MarkerInsertion.

(* ===================================================================== *)
(** * Further properties of the knowledge-base panel and the controller   *)
(* ===================================================================== *)

Section SelectedFiles.
Import Types Repository KnowledgeBase Controller.

Lemma checkFile_kept (files : list Attachment) (selected : list File) :
  forall acc,
    snd (fold_left (checkFile files) selected acc)
    = (snd acc ++ filter (acceptable files) selected)%list.
Proof.
  induction selected as [|f selected IH]; intros [err kept].
  - cbn. rewrite app_nil_r. reflexivity.
  - cbn [fold_left filter]. rewrite IH. unfold checkFile, acceptable.
    destruct (Js.arrayIncludes (file_type f) supportedTypes); cbn [negb andb snd];
      [|reflexivity].
    destruct (existsb _ files); cbn [negb snd]; [reflexivity|].
    rewrite <- app_assoc. reflexivity.
Qed.

(** X11. The files the panel hands to [onAddFiles] are the files of the
    selection that have a supported type and whose name is not the name
    of a file already in the conversation, in the order of the
    selection; two new files with the same name are both kept. Nothing
    is handed on for a null selection, for a selection that would exceed
    the limit (even if only some of its files could be added), or when
    no file is kept. *)
Theorem selected_files_are_filtered
    (urls : list string) (files : list Attachment) (maxItems : nat) (p : Panel)
    (selected : list File) :
  snd (handleFilesSelected urls files maxItems p None) = None
  /\ snd (handleFilesSelected urls files maxItems p (Some selected))
     = (if (maxItems <? List.length urls + List.length files + List.length selected)%nat
        then None
        else match filter (acceptable files) selected with
             | [] => None
             | kept => Some kept
             end)
  /\ (forall kept,
        snd (handleFilesSelected urls files maxItems p (Some selected)) = Some kept ->
        kept = filter (acceptable files) selected
        /\ List.length urls + List.length files + List.length kept <= maxItems
        /\ Forall (fun f => In (file_type f) supportedTypes
                            /\ forall existing, In existing files ->
                                                att_name existing <> file_name f) kept).
Proof.
  assert (Hchar : snd (handleFilesSelected urls files maxItems p (Some selected))
                  = (if (maxItems <? List.length urls + List.length files
                                     + List.length selected)%nat
                     then None
                     else match filter (acceptable files) selected with
                          | [] => None
                          | kept => Some kept
                          end)).
  { unfold handleFilesSelected, totalItems.
    destruct (maxItems <? _)%nat; [reflexivity|].
    pose proof (checkFile_kept files selected (None, [])) as Hkept.
    destruct (fold_left (checkFile files) selected (None, [])) as [err kept].
    cbn [snd app] in Hkept. rewrite Hkept. cbn [snd].
    destruct (filter (acceptable files) selected); reflexivity. }
  split; [reflexivity|]. split; [exact Hchar|].
  intros kept Hsome. rewrite Hchar in Hsome.
  destruct (maxItems <? _)%nat eqn:Hmax; [discriminate|].
  apply Nat.ltb_ge in Hmax.
  assert (Hkept : kept = filter (acceptable files) selected).
  { destruct (filter (acceptable files) selected); [discriminate|].
    injection Hsome as <-. reflexivity. }
  split; [exact Hkept|]. split.
  - rewrite Hkept. pose proof (filter_length_le (acceptable files) selected). lia.
  - rewrite Hkept, Forall_forall. intros f Hf. apply filter_In in Hf.
    destruct Hf as [_ Hok]. unfold acceptable in Hok.
    apply andb_prop in Hok. destruct Hok as [Hsup Hnew]. split.
    + apply arrayIncludes_In. exact Hsup.
    + intros existing Hin Hname. apply negb_true_iff in Hnew.
      assert (Hex : existsb (fun e => String.eqb (att_name e) (file_name f)) files = true).
      { apply existsb_exists. exists existing. split; [exact Hin|].
        apply String.eqb_eq. exact Hname. }
      rewrite Hex in Hnew. discriminate.
Qed.

Lemma selected_files_are_filtered_witness :
  snd (handleFilesSelected [] [] 30 acceptedPanel
         (Some [Samples.textFile; Samples.exeFile; Samples.textFile]))
  = Some [Samples.textFile; Samples.textFile].
Proof.
  destruct (selected_files_are_filtered [] [] 30 acceptedPanel
              [Samples.textFile; Samples.exeFile; Samples.textFile]) as (_ & Hchar & _).
  rewrite Hchar. reflexivity.
Defined.

End SelectedFiles.

(** ** The stable sort *)

Section SortFacts.
Context {A : Type} (after : A -> A -> bool) (R : A -> A -> Prop).
Hypothesis after_true : forall x y, after x y = true -> R y x.
Hypothesis after_false : forall x y, after x y = false -> R x y.
Hypothesis R_trans : forall x y z, R x y -> R y z -> R x z.

Lemma insertSorted_permutation (x : A) (l : list A) :
  Permutation (Js.insertSorted after x l) (x :: l).
Proof.
  induction l as [|y l IH]; cbn; [reflexivity|].
  destruct (after x y); [|reflexivity].
  rewrite IH. apply perm_swap.
Qed.

Lemma sort_permutation (l : list A) : Permutation (Js.sort after l) l.
Proof.
  induction l as [|x l IH]; cbn; [reflexivity|].
  rewrite insertSorted_permutation, IH. reflexivity.
Qed.

Lemma insertSorted_ordered (x : A) (l : list A) :
  StronglySorted R l -> StronglySorted R (Js.insertSorted after x l).
Proof.
  induction l as [|y l IH]; intros Hsorted; cbn.
  - constructor; constructor.
  - inversion Hsorted as [|? ? Hrest Hall]; subst.
    destruct (after x y) eqn:Hafter.
    + constructor; [apply IH, Hrest|].
      rewrite Forall_forall. intros z Hz.
      apply (Permutation_in _ (insertSorted_permutation x l)) in Hz.
      destruct Hz as [<-|Hz]; [apply after_true, Hafter|].
      rewrite Forall_forall in Hall. apply Hall, Hz.
    + constructor; [exact Hsorted|].
      constructor; [apply after_false, Hafter|].
      rewrite Forall_forall in Hall |- *. intros z Hz.
      apply (R_trans x y z); [apply after_false, Hafter|apply Hall, Hz].
Qed.

Lemma sort_ordered (l : list A) : StronglySorted R (Js.sort after l).
Proof.
  induction l as [|x l IH]; cbn; [constructor|].
  apply insertSorted_ordered, IH.
Qed.

Lemma sort_of_ordered (l : list A) :
  StronglySorted (fun x y => after x y = false) l -> Js.sort after l = l.
Proof.
  induction l as [|x l IH]; intros Hsorted; cbn; [reflexivity|].
  inversion Hsorted as [|? ? Hrest Hall]; subst.
  fold (Js.sort after l). rewrite (IH Hrest).
  destruct l as [|y l]; [reflexivity|]. cbn.
  inversion Hall as [|? ? Hxy _]; subst. rewrite Hxy. reflexivity.
Qed.

End SortFacts.

(** ** The conversation list *)

Section ConversationList.
Import Types Repository App Controller.

Lemma findIndex_None (id : string) (l : list Conversation) :
  findIndex id l = None -> forall c, In c l -> conv_id c <> id.
Proof.
  induction l as [|c l IH]; cbn; [intros _ ? []|].
  destruct (String.eqb_spec (conv_id c) id) as [|Hne]; [discriminate|].
  destruct (findIndex id l); [discriminate|].
  intros _ c' [<-|Hin]; [exact Hne|apply IH; auto].
Qed.

Lemma filter_keep_all (id : string) (l : list Conversation) :
  (forall c, In c l -> conv_id c <> id) ->
  filter (fun c => negb (String.eqb (conv_id c) id)) l = l.
Proof.
  induction l as [|c l IH]; intros Hall; cbn; [reflexivity|].
  destruct (String.eqb_spec (conv_id c) id) as [He|_].
  - exfalso. apply (Hall c); [left; reflexivity|exact He].
  - cbn. rewrite IH; [reflexivity|]. intros c' Hin. apply Hall. right. exact Hin.
Qed.

Lemma filter_removeAt (id : string) (l : list Conversation) :
  NoDup (map conv_id l) ->
  forall i, findIndex id l = Some i ->
            filter (fun c => negb (String.eqb (conv_id c) id)) l = removeAt i l.
Proof.
  induction l as [|c l IH]; intros Hnd i; cbn; [discriminate|].
  cbn in Hnd. inversion Hnd as [|? ? Hnotin Hnd']; subst.
  destruct (String.eqb_spec (conv_id c) id) as [He|Hne].
  - intros Hi. injection Hi as <-. cbn. unfold removeAt. cbn.
    apply filter_keep_all. intros c' Hin Hid. apply Hnotin.
    rewrite He, <- Hid. apply in_map, Hin.
  - destruct (findIndex id l) as [j|] eqn:Hfind; [|discriminate].
    intros Hi. injection Hi as <-. cbn. rewrite (IH Hnd' j eq_refl).
    reflexivity.
Qed.

Lemma updateConversation_local (id : string) (f : Conversation -> Conversation)
    (l : list Conversation) :
  (forall c, conv_id (f c) = conv_id c) ->
  (forall c, conv_messages (f c) = conv_messages c) ->
  map conv_id (updateConversation id f l) = map conv_id l
  /\ map conv_messages (updateConversation id f l) = map conv_messages l
  /\ (forall i c, nth_error l i = Some c -> conv_id c <> id ->
                  nth_error (updateConversation id f l) i = Some c)
  /\ ((forall c, In c l -> conv_id c <> id) -> updateConversation id f l = l).
Proof.
  intros Hid Hmsg. unfold updateConversation. repeat split.
  - rewrite map_map. apply map_ext. intros c.
    destruct (String.eqb (conv_id c) id); [apply Hid|reflexivity].
  - rewrite map_map. apply map_ext. intros c.
    destruct (String.eqb (conv_id c) id); [apply Hmsg|reflexivity].
  - intros i c Hnth Hne. rewrite nth_error_map, Hnth. cbn.
    destruct (String.eqb_spec (conv_id c) id); [contradiction|reflexivity].
  - intros Hall. rewrite <- (map_id l) at 2. apply map_ext_in. intros c Hin.
    destruct (String.eqb_spec (conv_id c) id) as [He|]; [|reflexivity].
    exfalso. exact (Hall c Hin He).
Qed.

Lemma find_updateConversation (a : string) (f : Conversation -> Conversation)
    (l : list Conversation) :
  (forall c, conv_id (f c) = conv_id c) ->
  List.find (fun c => String.eqb (conv_id c) a) (updateConversation a f l)
  = option_map f (List.find (fun c => String.eqb (conv_id c) a) l).
Proof.
  intros Hid. induction l as [|c l IH]; cbn; [reflexivity|].
  destruct (String.eqb (conv_id c) a) eqn:He.
  - rewrite Hid, He. reflexivity.
  - rewrite He. exact IH.
Qed.

Lemma knownActive_find (s : State) :
  knownActive s ->
  exists c, List.find (fun c => String.eqb (conv_id c) (activeConversationId s))
                      (conversations s) = Some c
            /\ activeConversation s = Some c.
Proof.
  unfold knownActive, activeConversation. intros Hin.
  apply in_map_iff in Hin. destruct Hin as (c & Hid & Hin).
  destruct (List.find _ (conversations s)) as [c'|] eqn:Hfind.
  - exists c'. auto.
  - exfalso. pose proof (find_none _ _ Hfind c Hin) as Hno. cbn in Hno.
    rewrite Hid, String.eqb_refl in Hno. discriminate.
Qed.

Lemma activeConversation_update (f : Conversation -> Conversation) (s : State)
    (c : Conversation) :
  (forall c, conv_id (f c) = conv_id c) ->
  List.find (fun c => String.eqb (conv_id c) (activeConversationId s)) (conversations s)
  = Some c ->
  List.find (fun c => String.eqb (conv_id c)
                                 (activeConversationId (updateActiveConversation f s)))
            (conversations (updateActiveConversation f s)) = Some (f c)
  /\ activeConversation (updateActiveConversation f s) = Some (f c).
Proof.
  intros Hid Hfind.
  assert (H : List.find (fun c => String.eqb (conv_id c)
                                    (activeConversationId (updateActiveConversation f s)))
                        (conversations (updateActiveConversation f s)) = Some (f c)).
  { cbn [updateActiveConversation setConversations activeConversationId conversations].
    rewrite (find_updateConversation _ f _ Hid), Hfind. reflexivity. }
  split; [exact H|]. unfold activeConversation. rewrite H. reflexivity.
Qed.

(** X12. Deleting the active conversation does nothing while at most one
    conversation exists. Otherwise, with distinct conversation ids and
    the active one found at position [i], exactly that conversation is
    removed and the one at position [i - 1] of the new list becomes
    active (the previous one, or the new first one when the first was
    deleted), so the active id again names a conversation. When the
    active id names no conversation, nothing is removed and the first
    conversation becomes active. *)
Theorem delete_removes_active (s : State) :
  let s' := handleDeleteConversation s in
  (List.length (conversations s) <= 1 -> s' = s)
  /\ (1 < List.length (conversations s) ->
      NoDup (map conv_id (conversations s)) ->
      forall i,
        findIndex (activeConversationId s) (conversations s) = Some i ->
        conversations s' = removeAt i (conversations s)
        /\ (exists c, nth_error (conversations s') (Nat.pred i) = Some c
                      /\ activeConversationId s' = conv_id c)
        /\ knownActive s')
  /\ (1 < List.length (conversations s) ->
      findIndex (activeConversationId s) (conversations s) = None ->
      conversations s' = conversations s
      /\ exists c, hd_error (conversations s) = Some c
                   /\ activeConversationId s' = conv_id c).
Proof.
  cbv zeta. split; [|split].
  - intros Hle. unfold handleDeleteConversation.
    rewrite (proj2 (Nat.leb_le _ _) Hle). reflexivity.
  - intros Hmany Hnd i Hfind.
    destruct (findIndex_nth _ _ _ Hfind) as (Hlt & _).
    pose proof (length_removeAt i (conversations s) Hlt) as Hlen.
    destruct (nth_error (removeAt i (conversations s)) (Nat.pred i)) as [c|] eqn:Hnth;
      [|apply nth_error_None in Hnth; lia].
    assert (Hstate : handleDeleteConversation s
                     = setActiveConversationId (conv_id c)
                         (setConversations (removeAt i (conversations s)) s)).
    { unfold handleDeleteConversation.
      rewrite (proj2 (Nat.leb_gt _ _) Hmany), Hfind, (filter_removeAt _ _ Hnd i Hfind).
      cbv zeta.
      assert (H1 : (if (0 <? Z.of_nat i)%Z then (Z.of_nat i - 1)%Z else 0%Z)
                   = Z.of_nat (Nat.pred i)).
      { destruct (Z.ltb_spec 0 (Z.of_nat i)); lia. }
      rewrite H1.
      rewrite (proj2 (Z.leb_gt _ _)) by lia.
      rewrite (proj2 (Z.ltb_ge _ _)) by lia.
      rewrite Nat2Z.id, Hnth. reflexivity. }
    rewrite Hstate. cbn [setActiveConversationId setConversations conversations
                         activeConversationId].
    split; [reflexivity|]. split; [exists c; auto|].
    unfold knownActive.
    cbn [setActiveConversationId setConversations conversations activeConversationId].
    apply in_map. apply nth_error_In with (n := Nat.pred i). exact Hnth.
  - intros Hmany Hfind.
    destruct (conversations s) as [|c l] eqn:Hconvs; [cbn in Hmany; lia|].
    assert (Hstate : handleDeleteConversation s
                     = setActiveConversationId (conv_id c) (setConversations (c :: l) s)).
    { unfold handleDeleteConversation. rewrite Hconvs.
      rewrite (proj2 (Nat.leb_gt _ _) Hmany), Hfind.
      rewrite (filter_keep_all _ _ (findIndex_None _ _ Hfind)).
      cbv zeta.
      replace (0 <? -1)%Z with false by reflexivity.
      rewrite (proj2 (Z.leb_gt _ _)) by (cbn [List.length]; lia).
      reflexivity. }
    rewrite Hstate. cbn [setActiveConversationId setConversations conversations
                         activeConversationId].
    split; [reflexivity|]. exists c. auto.
Qed.

(** X13. Creating a conversation with a blank name does nothing.
    Otherwise the new conversation (named by the trimmed name, with no
    urls and no files) is added to the existing ones, none of which is
    lost or changed, the whole list is put in order of last update,
    newest first, whatever its order was before, and the new
    conversation becomes the active one. *)
Theorem new_conversation_is_sorted_in (welcome : string -> string) (name : string)
    (idClock updatedClock : nat) (timestamp : Z) (s : State) :
  let s' := handleNewConversation welcome name idClock updatedClock timestamp s in
  (Js.truthy (Js.trim name) = false -> s' = s)
  /\ (Js.truthy (Js.trim name) = true ->
      exists c,
        conv_id c = "conv-" ++ Js.numberToString idClock
        /\ conv_name c = Js.trim name
        /\ conv_urls c = [] /\ conv_files c = []
        /\ conv_lastUpdated c = Z.of_nat updatedClock
        /\ activeConversationId s' = conv_id c
        /\ Permutation (c :: conversations s) (conversations s')
        /\ StronglySorted newestFirst (conversations s')).
Proof.
  cbv zeta. unfold handleNewConversation. split; intros Hname; rewrite Hname; cbn [negb].
  - reflexivity.
  - cbv zeta.
    exists {| conv_id := "conv-" ++ Js.numberToString idClock;
              conv_name := Js.trim name;
              conv_urls := [];
              conv_files := [];
              conv_messages :=
                [systemMessage ("system-welcome-" ++ "conv-" ++ Js.numberToString idClock)
                               (welcome (Js.trim name)) timestamp];
              conv_lastUpdated := Z.of_nat updatedClock |}.
    cbn [setActiveConversationId setConversations conversations activeConversationId
         conv_id conv_name conv_urls conv_files conv_lastUpdated].
    repeat (split; [reflexivity|]). split.
    + rewrite sort_permutation. apply Permutation_cons_append.
    + apply sort_ordered; unfold updatedEarlier, newestFirst.
      * intros x y H. apply Z.ltb_lt in H. lia.
      * intros x y H. apply Z.ltb_ge in H. lia.
      * intros x y z H1 H2. lia.
Qed.

Lemma applyEdit_updater (now : Z) (e : Edit) (s : State) :
  exists f,
    (forall c, conv_id (f c) = conv_id c)
    /\ (forall c, conv_messages (f c) = conv_messages c)
    /\ applyEdit now e s
       = setConversations
           (updateConversation (editedConversation e s) f (conversations s)) s.
Proof.
  destruct e as [newName|url|url|files|owner updatedFile|fileId];
    cbn [applyEdit editedConversation].
  - unfold handleRenameConversation.
    destruct (Js.truthy (Js.trim newName)); cbn [negb].
    + eexists. split; [|split; [|reflexivity]]; reflexivity.
    + exists (fun c => c). split; [reflexivity|]. split; [reflexivity|].
      unfold updateConversation.
      rewrite (map_ext _ (fun c => c))
        by (intros c; destruct (String.eqb _ _); reflexivity).
      rewrite map_id. destruct s; reflexivity.
  - eexists. split; [|split; [|reflexivity]];
      intros c; unfold addUrlUpdater; destruct (_ && _); reflexivity.
  - eexists. split; [|split; [|reflexivity]]; reflexivity.
  - eexists. split; [|split; [|reflexivity]]; reflexivity.
  - eexists. split; [|split; [|reflexivity]]; reflexivity.
  - eexists. split; [|split; [|reflexivity]]; reflexivity.
Qed.

(** X14. Renaming, adding or removing a url, adding or removing a file
    and the arrival of a file reader's result change one conversation
    only: the active one, or, for a reader's result, the one that was
    active when the files were added. The conversations keep their ids
    and their order, every conversation keeps its messages, the active
    id stays, a conversation with another id is left exactly as it was,
    and when no conversation has that id (the first conversation is then
    the one on display) the edit is lost without a trace. *)
Theorem edits_are_local (now : Z) (e : Edit) (s : State) :
  let s' := applyEdit now e s in
  map conv_id (conversations s') = map conv_id (conversations s)
  /\ map conv_messages (conversations s') = map conv_messages (conversations s)
  /\ activeConversationId s' = activeConversationId s
  /\ (forall i c, nth_error (conversations s) i = Some c ->
                  conv_id c <> editedConversation e s ->
                  nth_error (conversations s') i = Some c)
  /\ ((forall c, In c (conversations s) -> conv_id c <> editedConversation e s) ->
      s' = s).
Proof.
  cbv zeta. destruct (applyEdit_updater now e s) as (f & Hid & Hmsg & ->).
  destruct (updateConversation_local (editedConversation e s) f (conversations s) Hid Hmsg)
    as (Hids & Hmsgs & Hothers & Hnone).
  cbn [setConversations conversations activeConversationId].
  repeat split; try assumption.
  intros Hall. rewrite (Hnone Hall). destruct s; reflexivity.
Qed.

Lemma edits_are_local_witness :
  nth_error (conversations (applyEdit 99 (AddUrl "https://b.example/") MoreSamples.workspace)) 0
  = Some (MoreSamples.conversationAt "conv-30" 30 [] [] [])
  /\ applyEdit 99 (AddUrl "https://b.example/") MoreSamples.staleWorkspace
     = MoreSamples.staleWorkspace.
Proof.
  split.
  - destruct (edits_are_local 99 (AddUrl "https://b.example/") MoreSamples.workspace)
      as (_ & _ & _ & Hothers & _).
    apply (Hothers 0%nat); [reflexivity|discriminate].
  - destruct (edits_are_local 99 (AddUrl "https://b.example/") MoreSamples.staleWorkspace)
      as (_ & _ & _ & _ & Hnone).
    apply Hnone. intros c [<-|[<-|[<-|[]]]]; discriminate.
Defined.

End ConversationList.

Section ConversationListExamples.
Import Types Repository App Controller.

Lemma delete_removes_active_witness :
  handleDeleteConversation MoreSamples.singleWorkspace = MoreSamples.singleWorkspace
  /\ activeConversationId (handleDeleteConversation MoreSamples.workspace) = "conv-30"
  /\ activeConversationId (handleDeleteConversation MoreSamples.staleWorkspace) = "conv-30".
Proof.
  destruct (delete_removes_active MoreSamples.singleWorkspace) as (Hone & _ & _).
  destruct (delete_removes_active MoreSamples.workspace) as (_ & Hmany & _).
  destruct (delete_removes_active MoreSamples.staleWorkspace) as (_ & _ & Hstale).
  split; [apply Hone; cbn; lia|]. split.
  - assert (Hnd : NoDup (map conv_id (conversations MoreSamples.workspace))).
    { cbn. repeat constructor; cbn; intuition discriminate. }
    destruct (Hmany ltac:(cbn; lia) Hnd 1%nat eq_refl) as (_ & (c & Hc & ->) & _).
    rewrite (proj1 (Hmany ltac:(cbn; lia) Hnd 1%nat eq_refl)) in Hc.
    cbn in Hc. injection Hc as <-. reflexivity.
  - destruct (Hstale ltac:(cbn; lia) eq_refl) as (_ & c & Hc & ->).
    cbn in Hc. injection Hc as <-. reflexivity.
Defined.

Lemma new_conversation_is_sorted_in_witness :
  handleNewConversation (fun n => n) "   " 40 40 40 MoreSamples.workspace
  = MoreSamples.workspace
  /\ StronglySorted newestFirst
       (conversations
          (handleNewConversation (fun n => n) " Notes " 25 25 25 MoreSamples.workspace)).
Proof.
  split.
  - apply (proj1 (new_conversation_is_sorted_in (fun n => n) "   " 40 40 40
                    MoreSamples.workspace)). reflexivity.
  - destruct (proj2 (new_conversation_is_sorted_in (fun n => n) " Notes " 25 25 25
                       MoreSamples.workspace) eq_refl)
      as (c & _ & _ & _ & _ & _ & _ & _ & Hsorted).
    exact Hsorted.
Defined.

End ConversationListExamples.

(** ** Deleting the active conversation *)

Section DeleteActive.
Import Types Repository App Controller.




End DeleteActive.

Section DeleteActiveExamples.
Import Types Repository App Controller.



End DeleteActiveExamples.


(** ** Urls and files of the active conversation *)

Section ContextEdits.
Import Types Repository App Controller.

Lemma filter_absent (url : string) (urls : list string) :
  ~ In url urls -> filter (fun u => negb (String.eqb u url)) urls = urls.
Proof.
  induction urls as [|u urls IH]; intros Hnot; cbn; [reflexivity|].
  destruct (String.eqb_spec u url) as [->|_].
  - exfalso. apply Hnot. left. reflexivity.
  - cbn. rewrite IH; [reflexivity|]. intros Hin. apply Hnot. right. exact Hin.
Qed.

Lemma replace_absent (updatedFile : Attachment) (files : list Attachment) :
  (forall f, In f files -> att_id f <> att_id updatedFile) ->
  map (fun f => if String.eqb (att_id f) (att_id updatedFile) then updatedFile else f) files
  = files.
Proof.
  intros Hall. rewrite <- (map_id files) at 2. apply map_ext_in. intros f Hin.
  destruct (String.eqb_spec (att_id f) (att_id updatedFile)) as [He|]; [|reflexivity].
  exfalso. exact (Hall f Hin He).
Qed.

(** X15. While the active id names a conversation whose urls are
    pairwise distinct, adding a url keeps them distinct; the url is in
    the list afterwards exactly when it was there before or the
    conversation held fewer urls and files than the limit; a
    conversation within the limit stays within it. Removing a url
    removes every occurrence of it, and removing a url right after
    adding it gives back the list of a conversation that did not have
    it. *)
Theorem url_list_stays_unique (url : string) (now now' : Z) (s : State) :
  knownActive s ->
  NoDup (contextUrls s) ->
  let added := handleAddUrl url now s in
  NoDup (contextUrls added)
  /\ (In url (contextUrls added) <->
      In url (contextUrls s)
      \/ List.length (contextUrls s) + List.length (activeFiles s) < maxContextItems s)
  /\ (List.length (contextUrls s) + List.length (activeFiles s) <= maxContextItems s ->
      List.length (contextUrls added) + List.length (activeFiles added)
      <= maxContextItems s)
  /\ ~ In url (contextUrls (handleRemoveUrl url now s))
  /\ (~ In url (contextUrls s) ->
      contextUrls (handleRemoveUrl url now' added) = contextUrls s).
Proof.
  intros Hknown Hnd. cbv zeta.
  destruct (knownActive_find s Hknown) as (c & Hfind & Hactive).
  assert (Hpres : forall c, conv_id (addUrlUpdater (maxContextItems s) url now c) = conv_id c).
  { intros c0. unfold addUrlUpdater. destruct (_ && _); reflexivity. }
  destruct (activeConversation_update _ s c Hpres Hfind) as (Hfind1 & Hactive1).
  fold (handleAddUrl url now s) in Hfind1, Hactive1.
  assert (Hrem : forall u t s0 c0,
             List.find (fun c => String.eqb (conv_id c) (activeConversationId s0))
                       (conversations s0) = Some c0 ->
             contextUrls (handleRemoveUrl u t s0)
             = filter (fun x => negb (String.eqb x u)) (conv_urls c0)).
  { intros u t s0 c0 H0.
    destruct (activeConversation_update
                (fun c => withUrls (filter (fun x => negb (String.eqb x u)) (conv_urls c)) t c)
                s0 c0 (fun _ => eq_refl) H0) as (_ & Hact).
    unfold contextUrls, handleRemoveUrl. rewrite Hact. reflexivity. }
  unfold contextUrls, activeFiles in *. rewrite Hactive in *. rewrite Hactive1.
  unfold addUrlUpdater.
  destruct (List.length (conv_urls c) + List.length (conv_files c) <? maxContextItems s)%nat
    eqn:Hroom; cbn [andb].
  - apply Nat.ltb_lt in Hroom.
    destruct (Js.arrayIncludes url (conv_urls c)) eqn:Hinc; cbn [negb].
    + apply arrayIncludes_In in Hinc.
      split; [exact Hnd|]. split; [tauto|]. split; [auto|]. split.
      * pose proof (Hrem url now s c Hfind) as Hr. unfold contextUrls in Hr.
        rewrite Hr. intros Hin. apply filter_In in Hin. destruct Hin as [_ Hne].
        rewrite String.eqb_refl in Hne. discriminate.
      * intros Hnot. contradiction.
    + apply arrayIncludes_not_In in Hinc. cbn [withUrls conv_urls conv_files].
      split.
      { apply NoDup_app; [exact Hnd|repeat constructor; intros []|].
        intros x Hx1 [<-|[]]. contradiction. }
      split.
      { rewrite in_app_iff. cbn. tauto. }
      split.
      { intros _. rewrite length_app. cbn [List.length]. lia. }
      split.
      * pose proof (Hrem url now s c Hfind) as Hr. unfold contextUrls in Hr.
        rewrite Hr. intros Hin. apply filter_In in Hin. destruct Hin as [_ Hne].
        rewrite String.eqb_refl in Hne. discriminate.
      * intros _.
        pose proof (Hrem url now' (handleAddUrl url now s) _ Hfind1) as Hr.
        unfold contextUrls in Hr. rewrite Hr. unfold addUrlUpdater.
        rewrite (proj2 (Nat.ltb_lt _ _) Hroom), (proj2 (arrayIncludes_not_In _ _) Hinc).
        cbn [andb negb withUrls conv_urls].
        rewrite filter_app, (filter_absent _ _ Hinc). cbn.
        rewrite String.eqb_refl. cbn. apply app_nil_r.
  - apply Nat.ltb_ge in Hroom.
    split; [exact Hnd|]. split; [split; [tauto|intros [H|H]; [exact H|lia]]|].
    split; [auto|]. split.
    + pose proof (Hrem url now s c Hfind) as Hr. unfold contextUrls in Hr.
      rewrite Hr. intros Hin. apply filter_In in Hin. destruct Hin as [_ Hne].
      rewrite String.eqb_refl in Hne. discriminate.
    + intros Hnot.
      pose proof (Hrem url now' (handleAddUrl url now s) _ Hfind1) as Hr.
      unfold contextUrls in Hr. rewrite Hr. unfold addUrlUpdater.
      rewrite (proj2 (Nat.ltb_ge _ _) Hroom). cbn [andb].
      apply filter_absent, Hnot.
Qed.

(** X16. A file reader's result replaces entries of the file list and
    never adds or removes one: the ids of every conversation's files are
    the same before and after. A result that arrives after its file was
    removed from the active conversation changes no file list. When a
    file is added to the active conversation under an id no file of the
    conversation has yet, and its reader then succeeds, the file list is
    the old one followed by the loaded file. *)
Theorem file_results_replace_placeholders (s : State) :
  (forall owner updatedFile now l,
      map (fun c => map att_id (conv_files c)) (handleUpdateFile owner updatedFile now l)
      = map (fun c => map att_id (conv_files c)) l)
  /\ (forall fileId updatedFile now now',
        att_id updatedFile = fileId ->
        let removed := handleRemoveFile fileId now s in
        map conv_files
            (handleUpdateFile (activeConversationId s) updatedFile now' (conversations removed))
        = map conv_files (conversations removed))
  /\ (forall file stamp result now,
        knownActive s ->
        (forall f, In f (activeFiles s) -> att_id f <> att_id (kbPlaceholder file stamp)) ->
        let added := handleAddFiles [(file, stamp)] s in
        activeFiles
          (setConversations
             (handleUpdateFile (activeConversationId s)
                (kbLoaded (kbPlaceholder file stamp) result) now (conversations added))
             added)
        = (activeFiles s ++ [kbLoaded (kbPlaceholder file stamp) result])%list).
Proof.
  split; [|split].
  - intros owner updatedFile now l. unfold handleUpdateFile, updateConversation.
    rewrite map_map. apply map_ext. intros c.
    destruct (String.eqb (conv_id c) owner); [|reflexivity].
    cbn [withFiles conv_files]. rewrite map_map. apply map_ext. intros f.
    destruct (String.eqb_spec (att_id f) (att_id updatedFile)) as [He|]; [|reflexivity].
    symmetry. exact He.
  - intros fileId updatedFile now now' Hid. cbv zeta.
    unfold handleRemoveFile, updateActiveConversation, handleUpdateFile, updateConversation.
    cbn [setConversations conversations]. rewrite !map_map. apply map_ext. intros c.
    destruct (String.eqb (conv_id c) (activeConversationId s)) eqn:He.
    + cbn [withFiles conv_id conv_files]. rewrite He. cbn [withFiles conv_files].
      apply replace_absent. intros f Hin. apply filter_In in Hin.
      destruct Hin as [_ Hne]. rewrite Hid. intros Heq. rewrite Heq in Hne.
      rewrite String.eqb_refl in Hne. discriminate.
    + rewrite He. reflexivity.
  - intros file stamp result now Hknown Hfresh. cbv zeta.
    destruct (knownActive_find s Hknown) as (c & Hfind & Hactive).
    unfold activeFiles in Hfresh |- *. rewrite Hactive in Hfresh |- *.
    unfold activeConversation, handleAddFiles, updateActiveConversation, handleUpdateFile.
    cbn [setConversations conversations activeConversationId].
    rewrite !find_updateConversation by reflexivity.
    rewrite Hfind. unfold addFilesUpdater.
    cbn [option_map withFiles conv_files map fst snd].
    rewrite map_app,
      (replace_absent (kbLoaded (kbPlaceholder file stamp) result) _ Hfresh).
    cbn [map kbLoaded att_id].
    rewrite String.eqb_refl. reflexivity.
Qed.

End ContextEdits.

Section ContextEditExamples.
Import Types Repository App Controller.

Lemma url_list_stays_unique_witness :
  contextUrls (handleRemoveUrl "https://b.example/" 99
                 (handleAddUrl "https://b.example/" 98 MoreSamples.workspace))
  = ["https://a.example/"].
Proof.
  assert (Hknown : knownActive MoreSamples.workspace).
  { unfold knownActive. cbn. auto. }
  assert (Hnd : NoDup (contextUrls MoreSamples.workspace)).
  { cbn. repeat constructor. intros []. }
  destruct (url_list_stays_unique "https://b.example/" 98 99 MoreSamples.workspace
              Hknown Hnd) as (_ & _ & _ & _ & Hround).
  rewrite Hround; [reflexivity|].
  cbn. intros [H|[]]. discriminate.
Defined.

Lemma file_results_replace_placeholders_witness :
  map conv_files
      (handleUpdateFile "conv-20"
         (kbLoaded MoreSamples.loadingAttachment "data:application/pdf;base64,JVBERg==") 99
         (conversations (handleRemoveFile "att-big.pdf-7" 98 MoreSamples.workspace)))
  = [[]; [MoreSamples.pngAttachment]; []].
Proof.
  destruct (file_results_replace_placeholders MoreSamples.workspace) as (_ & Hlate & _).
  refine (eq_trans (Hlate "att-big.pdf-7"
                      (kbLoaded MoreSamples.loadingAttachment
                                "data:application/pdf;base64,JVBERg==")
                      98%Z 99%Z eq_refl) _).
  reflexivity.
Defined.

End ContextEditExamples.

(** ** Sending, editing and regenerating *)

Section Requests.
Import Types Repository App Response Controller.

Lemma find_knownActive (s : State) (c : Conversation) :
  List.find (fun c => String.eqb (conv_id c) (activeConversationId s)) (conversations s)
  = Some c ->
  knownActive s.
Proof.
  intros Hfind. apply find_some in Hfind. destruct Hfind as [Hin He].
  apply String.eqb_eq in He. unfold knownActive. rewrite <- He. apply in_map, Hin.
Qed.

Lemma update_active (f : Conversation -> Conversation) (s : State) :
  knownActive s ->
  (forall c, conv_id (f c) = conv_id c) ->
  exists c,
    activeConversation s = Some c
    /\ activeConversation (updateActiveConversation f s) = Some (f c)
    /\ knownActive (updateActiveConversation f s).
Proof.
  intros Hknown Hid.
  destruct (knownActive_find s Hknown) as (c & Hfind & Hactive).
  destruct (activeConversation_update f s c Hid Hfind) as (Hfind' & Hactive').
  exists c. split; [exact Hactive|]. split; [exact Hactive'|].
  exact (find_knownActive _ _ Hfind').
Qed.

Lemma messageIndex_nth (messageId : string) (l : list ChatMessage) :
  forall i target,
    messageIndex messageId l = Some (i, target) ->
    nth_error l i = Some target /\ msg_id target = messageId.
Proof.
  induction l as [|m l IH]; intros i target; cbn; [discriminate|].
  destruct (String.eqb_spec (msg_id m) messageId) as [He|_].
  - intros H. injection H as <- <-. auto.
  - destruct (messageIndex messageId l) as [[j found]|]; [|discriminate].
    intros H. injection H as <- <-. apply IH. reflexivity.
Qed.

(** What [_triggerModelResponse] does before the stream starts. *)
Lemma trigger_cases (API_KEY : option string) (history : list ChatMessage)
    (idClock : nat) (timestamp updated : Z) (s : State) :
  knownActive s ->
  let r := triggerModelResponse API_KEY history idClock timestamp updated s in
  (isLoading s || isFetchingSuggestions s = true -> r = (s, None))
  /\ (isLoading s || isFetchingSuggestions s = false ->
      Js.truthy_opt API_KEY = false ->
      snd r = None
      /\ chatMessages (fst r) = (chatMessages s ++ [apiKeyError idClock timestamp])%list
      /\ isLoading (fst r) = false)
  /\ (isLoading s || isFetchingSuggestions s = false ->
      Js.truthy_opt API_KEY = true ->
      snd r = Some {| pendingConversation := activeConversationId s;
                      placeholder := modelPlaceholderMessage idClock timestamp;
                      pendingHistory := history;
                      pendingUrls := contextUrls s;
                      pendingFiles := contextFiles s |}
      /\ chatMessages (fst r)
         = (chatMessages s ++ [modelPlaceholderMessage idClock timestamp])%list
      /\ isLoading (fst r) = true
      /\ initialQuerySuggestions (fst r) = []).
Proof.
  intros Hknown. cbv zeta. unfold triggerModelResponse. split; [|split].
  - intros ->. reflexivity.
  - intros Hidle Hkey. rewrite Hidle, Hkey. cbn [negb fst snd].
    destruct (update_active
                (fun c => appendMessage (apiKeyError idClock timestamp) (conv_lastUpdated c) c)
                s Hknown (fun _ => eq_refl)) as (c & Ha & Ha' & _).
    unfold chatMessages. rewrite Ha, Ha'. split; [reflexivity|]. split; [reflexivity|].
    apply orb_false_elim in Hidle. exact (proj1 Hidle).
  - intros Hidle Hkey. rewrite Hidle, Hkey. cbn [negb fst snd].
    destruct (update_active
                (appendMessage (modelPlaceholderMessage idClock timestamp) updated)
                (setInitialQuerySuggestions [] (setIsLoading true s))
                Hknown (fun _ => eq_refl)) as (c & Ha & Ha' & _).
    change (activeConversation (setInitialQuerySuggestions [] (setIsLoading true s)))
      with (activeConversation s) in Ha.
    unfold chatMessages. rewrite Ha, Ha'. repeat split; reflexivity.
Qed.

(** X17. A send with a blank query and no attachment, or while a
    response or the suggestions are being fetched, changes nothing.
    Otherwise the question is appended to the messages of the active
    conversation with the attachments that are loaded; with an API key
    the empty placeholder of the answer follows it, the loading flag is
    raised, and the request that is prepared carries the messages up to
    and including the question (not the placeholder) with the urls and
    loaded files of the conversation; without a key the question is
    followed by an error message of the system and nothing is
    requested. *)
Theorem send_appends_question_and_placeholder (API_KEY : option string) (query : string)
    (attachments : list Attachment) (userClock : nat) (userTimestamp : Z)
    (idClock : nat) (timestamp updated : Z) (s : State) :
  knownActive s ->
  let r := handleSendMessage API_KEY query attachments userClock userTimestamp
             idClock timestamp updated s in
  let question := userMessage query attachments userClock userTimestamp in
  ((Js.truthy (Js.trim query) = false /\ attachments = [])
   \/ isLoading s = true \/ isFetchingSuggestions s = true ->
   r = (s, None))
  /\ (Js.truthy (Js.trim query) = true \/ attachments <> [] ->
      isLoading s = false ->
      isFetchingSuggestions s = false ->
      (forall a, In a (match msg_attachments question with Some l => l | None => [] end)
                 <-> In a attachments /\ att_status a = StLoaded)
      /\ (Js.truthy_opt API_KEY = true ->
          chatMessages (fst r)
          = (chatMessages s ++ [question; modelPlaceholderMessage idClock timestamp])%list
          /\ isLoading (fst r) = true
          /\ snd r = Some {| pendingConversation := activeConversationId s;
                             placeholder := modelPlaceholderMessage idClock timestamp;
                             pendingHistory := (chatMessages s ++ [question])%list;
                             pendingUrls := contextUrls s;
                             pendingFiles := contextFiles s |})
      /\ (Js.truthy_opt API_KEY = false ->
          chatMessages (fst r)
          = (chatMessages s ++ [question; apiKeyError idClock timestamp])%list
          /\ isLoading (fst r) = false
          /\ snd r = None)).
Proof.
  intros Hknown. cbv zeta. unfold handleSendMessage. split.
  - intros [[Hblank ->]|[Hbusy|Hbusy]].
    + rewrite Hblank. reflexivity.
    + rewrite Hbusy, orb_true_r. reflexivity.
    + rewrite Hbusy, orb_true_r. reflexivity.
  - intros Hcontent Hload Hfetch.
    assert (Hguard : negb (Js.truthy (Js.trim query)) && (List.length attachments =? 0)%nat
                     = false).
    { destruct Hcontent as [->|Hne]; [reflexivity|].
      destruct attachments; [contradiction|]. apply andb_false_r. }
    rewrite Hguard, Hload, Hfetch. cbn [orb].
    set (question := userMessage query attachments userClock userTimestamp).
    set (f := fun c : Conversation =>
                withMessages (chatMessages s ++ [question])%list (conv_lastUpdated c) c).
    destruct (update_active f s Hknown (fun _ => eq_refl)) as (c & Ha & Ha' & Hknown').
    assert (Hmsgs : chatMessages (updateActiveConversation f s)
                    = (chatMessages s ++ [question])%list).
    { unfold chatMessages at 1. rewrite Ha'. reflexivity. }
    assert (Hurls : contextUrls (updateActiveConversation f s) = contextUrls s).
    { unfold contextUrls. rewrite Ha, Ha'. reflexivity. }
    assert (Hfiles : contextFiles (updateActiveConversation f s) = contextFiles s).
    { unfold contextFiles. rewrite Ha, Ha'. reflexivity. }
    assert (Hidle : isLoading (updateActiveConversation f s)
                    || isFetchingSuggestions (updateActiveConversation f s) = false).
    { cbn [updateActiveConversation setConversations isLoading isFetchingSuggestions].
      rewrite Hload, Hfetch. reflexivity. }
    destruct (trigger_cases API_KEY (chatMessages s ++ [question])%list idClock timestamp
                updated (updateActiveConversation f s) Hknown') as (_ & Hnokey & Hkey).
    split.
    { intros a. subst question. cbn [userMessage msg_attachments].
      rewrite filter_In. split; intros [Hin Hst]; (split; [exact Hin|]).
      - destruct (att_status a); try discriminate; reflexivity.
      - rewrite Hst. reflexivity. }
    split.
    + intros Htruthy. destruct (Hkey Hidle Htruthy) as (Hp & Hm & Hl & _).
      rewrite Hm, Hmsgs, <- app_assoc, Hp, Hurls, Hfiles. auto.
    + intros Hfalsy. destruct (Hnokey Hidle Hfalsy) as (Hp & Hm & Hl).
      rewrite Hm, Hmsgs, <- app_assoc. auto.
Qed.

(** X18. Editing a message that is not in the active conversation, or
    that was not written by the user, changes nothing and requests
    nothing. Editing the user's message at position [i] always replaces
    the conversation's messages by the [i] messages before it followed
    by the edited message, so every later message is dropped; this
    happens even while another response is being fetched, in which case
    no new response is requested. When idle and with an API key, the
    placeholder of the new answer is appended and the request carries
    exactly the truncated history ending in the edited message. *)
Theorem edit_truncates_history (API_KEY : option string) (messageId newText : string)
    (editTimestamp editUpdated : Z) (idClock : nat) (timestamp updated : Z) (s : State) :
  knownActive s ->
  let r := handleEditMessage API_KEY messageId newText editTimestamp editUpdated
             idClock timestamp updated s in
  (messageIndex messageId (chatMessages s) = None -> r = (s, None))
  /\ (forall i target,
        messageIndex messageId (chatMessages s) = Some (i, target) ->
        nth_error (chatMessages s) i = Some target
        /\ msg_id target = messageId
        /\ (msg_sender target <> USER -> r = (s, None))
        /\ (msg_sender target = USER ->
            let history :=
              (firstn i (chatMessages s) ++ [editedMessage target newText editTimestamp])%list in
            (isLoading s || isFetchingSuggestions s = true ->
             chatMessages (fst r) = history
             /\ isLoading (fst r) = isLoading s
             /\ snd r = None)
            /\ (isLoading s || isFetchingSuggestions s = false ->
                Js.truthy_opt API_KEY = true ->
                chatMessages (fst r)
                = (history ++ [modelPlaceholderMessage idClock timestamp])%list
                /\ isLoading (fst r) = true
                /\ exists p, snd r = Some p /\ pendingHistory p = history
                             /\ pendingConversation p = activeConversationId s)
            /\ (isLoading s || isFetchingSuggestions s = false ->
                Js.truthy_opt API_KEY = false ->
                chatMessages (fst r) = (history ++ [apiKeyError idClock timestamp])%list
                /\ snd r = None))).
Proof.
  intros Hknown. cbv zeta. unfold handleEditMessage. split.
  - intros ->. reflexivity.
  - intros i target Hfind. rewrite Hfind.
    destruct (messageIndex_nth _ _ _ _ Hfind) as (Hnth & Hid).
    split; [exact Hnth|]. split; [exact Hid|]. split.
    + intros Hne. destruct (msg_sender target); try reflexivity. contradiction.
    + intros Huser. rewrite Huser. cbn [sender_eqb negb].
      set (history := (firstn i (chatMessages s)
                       ++ [editedMessage target newText editTimestamp])%list).
      set (f := withMessages history editUpdated).
      destruct (update_active f s Hknown (fun _ => eq_refl)) as (c & Ha & Ha' & Hknown').
      assert (Hmsgs : chatMessages (updateActiveConversation f s) = history).
      { unfold chatMessages at 1. rewrite Ha'. reflexivity. }
      destruct (trigger_cases API_KEY history idClock timestamp updated
                  (updateActiveConversation f s) Hknown') as (Hbusy & Hnokey & Hkey).
      split; [|split].
      * intros Hb. rewrite (Hbusy Hb). cbn [fst snd]. auto.
      * intros Hidle Htruthy. destruct (Hkey Hidle Htruthy) as (Hp & Hm & Hl & _).
        rewrite Hm, Hmsgs, Hp. repeat split; try assumption.
        eexists. split; [reflexivity|]. split; reflexivity.
      * intros Hidle Hfalsy. destruct (Hnokey Hidle Hfalsy) as (Hp & Hm & _).
        rewrite Hm, Hmsgs. auto.
Qed.

(** X19. Regenerating a message that is not in the active conversation,
    or that is not an answer of the model, changes nothing. Regenerating
    the model's answer at position [i] always cuts the conversation's
    messages down to the [i] messages before it, also while another
    response is being fetched, when no new response is requested. When
    idle and with an API key, the placeholder of the new answer takes
    the place of the old answer and the request carries exactly the [i]
    messages before it. *)
Theorem regenerate_truncates_history (API_KEY : option string) (messageId : string)
    (regenUpdated : Z) (idClock : nat) (timestamp updated : Z) (s : State) :
  knownActive s ->
  let r := handleRegenerateResponse API_KEY messageId regenUpdated
             idClock timestamp updated s in
  (messageIndex messageId (chatMessages s) = None -> r = (s, None))
  /\ (forall i target,
        messageIndex messageId (chatMessages s) = Some (i, target) ->
        nth_error (chatMessages s) i = Some target
        /\ msg_id target = messageId
        /\ (msg_sender target <> MODEL -> r = (s, None))
        /\ (msg_sender target = MODEL ->
            let history := firstn i (chatMessages s) in
            (isLoading s || isFetchingSuggestions s = true ->
             chatMessages (fst r) = history
             /\ isLoading (fst r) = isLoading s
             /\ snd r = None)
            /\ (isLoading s || isFetchingSuggestions s = false ->
                Js.truthy_opt API_KEY = true ->
                chatMessages (fst r)
                = (history ++ [modelPlaceholderMessage idClock timestamp])%list
                /\ nth_error (chatMessages (fst r)) i
                   = Some (modelPlaceholderMessage idClock timestamp)
                /\ isLoading (fst r) = true
                /\ exists p, snd r = Some p /\ pendingHistory p = history
                             /\ pendingConversation p = activeConversationId s)
            /\ (isLoading s || isFetchingSuggestions s = false ->
                Js.truthy_opt API_KEY = false ->
                chatMessages (fst r) = (history ++ [apiKeyError idClock timestamp])%list
                /\ snd r = None))).
Proof.
  intros Hknown. cbv zeta. unfold handleRegenerateResponse. split.
  - intros ->. reflexivity.
  - intros i target Hfind. rewrite Hfind.
    destruct (messageIndex_nth _ _ _ _ Hfind) as (Hnth & Hid).
    split; [exact Hnth|]. split; [exact Hid|]. split.
    + intros Hne. destruct (msg_sender target); try reflexivity. contradiction.
    + intros Hmodel. rewrite Hmodel. cbn [sender_eqb negb].
      set (history := firstn i (chatMessages s)).
      set (f := withMessages history regenUpdated).
      destruct (update_active f s Hknown (fun _ => eq_refl)) as (c & Ha & Ha' & Hknown').
      assert (Hmsgs : chatMessages (updateActiveConversation f s) = history).
      { unfold chatMessages at 1. rewrite Ha'. reflexivity. }
      destruct (trigger_cases API_KEY history idClock timestamp updated
                  (updateActiveConversation f s) Hknown') as (Hbusy & Hnokey & Hkey).
      assert (Hlen : List.length history = i).
      { subst history. rewrite length_firstn.
        assert (i < List.length (chatMessages s))
          by (apply nth_error_Some; rewrite Hnth; discriminate).
        lia. }
      split; [|split].
      * intros Hb. rewrite (Hbusy Hb). cbn [fst snd]. auto.
      * intros Hidle Htruthy. destruct (Hkey Hidle Htruthy) as (Hp & Hm & Hl & _).
        rewrite Hm, Hmsgs, Hp. split; [reflexivity|]. split.
        { rewrite nth_error_app2 by lia. rewrite Hlen, Nat.sub_diag. reflexivity. }
        split; [exact Hl|].
        eexists. split; [reflexivity|]. split; reflexivity.
      * intros Hidle Hfalsy. destruct (Hnokey Hidle Hfalsy) as (Hp & Hm & _).
        rewrite Hm, Hmsgs. auto.
Qed.

End Requests.

Section RequestExamples.
Import Types Repository App Response Controller.

Lemma workspace_known : knownActive MoreSamples.workspace.
Proof. unfold knownActive. cbn. auto. Qed.

Lemma send_appends_question_and_placeholder_witness :
  chatMessages (fst (handleSendMessage (Some "key") "Why?" [] 5 5 6 6 6
                       MoreSamples.workspace))
  = (chatMessages MoreSamples.workspace
     ++ [userMessage "Why?" [] 5 5; modelPlaceholderMessage 6 6])%list.
Proof.
  destruct (send_appends_question_and_placeholder (Some "key") "Why?" [] 5 5 6 6 6
              MoreSamples.workspace workspace_known) as (_ & H).
  destruct (H (or_introl eq_refl) eq_refl eq_refl) as (_ & Hkey & _).
  exact (proj1 (Hkey eq_refl)).
Defined.

Lemma edit_truncates_history_witness :
  chatMessages (fst (handleEditMessage (Some "key") "u1" "Hi again" 7 7 8 8 8
                       (setIsLoading true MoreSamples.workspace)))
  = [MoreSamples.welcomeTurn; editedMessage Samples.userTurn "Hi again" 7].
Proof.
  destruct (edit_truncates_history (Some "key") "u1" "Hi again" 7 7 8 8 8
              (setIsLoading true MoreSamples.workspace) workspace_known) as (_ & H).
  destruct (H 1%nat Samples.userTurn eq_refl) as (_ & _ & _ & Huser).
  destruct (Huser eq_refl) as (Hbusy & _).
  exact (proj1 (Hbusy eq_refl)).
Defined.

Lemma regenerate_truncates_history_witness :
  nth_error (chatMessages (fst (handleRegenerateResponse (Some "key") "m1" 7 8 8 8
                                  MoreSamples.workspace))) 2
  = Some (modelPlaceholderMessage 8 8).
Proof.
  destruct (regenerate_truncates_history (Some "key") "m1" 7 8 8 8
              MoreSamples.workspace workspace_known) as (_ & H).
  destruct (H 2%nat (Samples.messageOf "m1" "Hello" MODEL) eq_refl) as (_ & _ & _ & Hmodel).
  destruct (Hmodel eq_refl) as (_ & Hkey & _).
  exact (proj1 (proj2 (Hkey eq_refl eq_refl))).
Defined.

End RequestExamples.

(** ** Edit and regenerate when nothing is in flight *)

Section Replaying.
Import Types Repository App Response Controller.

Lemma messageIndex_length (messageId : string) (l : list ChatMessage) (i : nat)
    (target : ChatMessage) :
  messageIndex messageId l = Some (i, target) ->
  i < List.length l /\ List.length (firstn i l) = i.
Proof.
  intros Hfind. destruct (messageIndex_nth _ _ _ _ Hfind) as (Hnth & _).
  assert (Hlt : i < List.length l) by (apply nth_error_Some; rewrite Hnth; discriminate).
  split; [exact Hlt|]. rewrite length_firstn. lia.
Qed.

(** What [_triggerModelResponse] appends when nothing is in flight: the
    placeholder of the answer, with the request, when an API key is
    configured, and the error message of the system, without a request,
    when none is. *)
Lemma trigger_appends_one (API_KEY : option string) (history : list ChatMessage)
    (idClock : nat) (timestamp updated : Z) (s : State) :
  knownActive s ->
  isLoading s = false ->
  isFetchingSuggestions s = false ->
  let r := triggerModelResponse API_KEY history idClock timestamp updated s in
  exists added,
    chatMessages (fst r) = (chatMessages s ++ [added])%list
    /\ (Js.truthy_opt API_KEY = true ->
        added = modelPlaceholderMessage idClock timestamp
        /\ isLoading (fst r) = true
        /\ exists p, snd r = Some p /\ pendingHistory p = history /\ placeholder p = added)
    /\ (Js.truthy_opt API_KEY = false ->
        added = apiKeyError idClock timestamp
        /\ isLoading (fst r) = false
        /\ snd r = None).
Proof.
  intros Hknown Hload Hfetch. cbv zeta.
  assert (Hidle : isLoading s || isFetchingSuggestions s = false)
    by (rewrite Hload, Hfetch; reflexivity).
  destruct (trigger_cases API_KEY history idClock timestamp updated s Hknown)
    as (_ & Hnokey & Hkey).
  destruct (Js.truthy_opt API_KEY) eqn:Htruthy.
  - destruct (Hkey Hidle eq_refl) as (Hp & Hm & Hl & _).
    exists (modelPlaceholderMessage idClock timestamp).
    split; [exact Hm|]. split; [|discriminate].
    intros _. split; [reflexivity|]. split; [exact Hl|].
    eexists. split; [exact Hp|]. split; reflexivity.
  - destruct (Hnokey Hidle eq_refl) as (Hp & Hm & Hl).
    exists (apiKeyError idClock timestamp).
    split; [exact Hm|]. split; [discriminate|].
    intros _. auto.
Qed.

(** C6, as amended. Take a state whose active id names a conversation
    and in which neither a response nor the suggestions are being
    fetched. An edit or a regeneration whose message id is not in the
    conversation changes nothing, and so does an edit of a message the
    user did not write and a regeneration of a message the model did not
    write. Editing the user's message at position [i] leaves the [i]
    messages before it, the edited message (same id, still the user's,
    with the new text) and exactly one new message, whatever followed
    position [i]: the history has length [i + 1] plus one. With an API
    key the new message is the empty, loading placeholder of the model
    and a request is prepared whose history is the [i + 1] messages
    ending in the edited one; without a key the new message is an error
    message of the system and nothing is requested. Regenerating the
    model's message at position [i] leaves the [i] messages before it
    and exactly one new message, of the same two kinds, and the request
    carries those [i] messages. *)
Theorem replay_truncates_then_appends (API_KEY : option string)
    (messageId newText : string) (editTimestamp editUpdated regenUpdated : Z)
    (idClock : nat) (timestamp updated : Z) (s : State) :
  knownActive s ->
  isLoading s = false ->
  isFetchingSuggestions s = false ->
  let edit := handleEditMessage API_KEY messageId newText editTimestamp editUpdated
                idClock timestamp updated s in
  let regen := handleRegenerateResponse API_KEY messageId regenUpdated
                 idClock timestamp updated s in
  (messageIndex messageId (chatMessages s) = None ->
   edit = (s, None) /\ regen = (s, None))
  /\ (forall i target,
        messageIndex messageId (chatMessages s) = Some (i, target) ->
        i < List.length (chatMessages s)
        /\ nth_error (chatMessages s) i = Some target
        /\ (msg_sender target <> USER -> edit = (s, None))
        /\ (msg_sender target <> MODEL -> regen = (s, None))
        /\ (msg_sender target = USER ->
            let edited := editedMessage target newText editTimestamp in
            msg_id edited = messageId
            /\ msg_sender edited = USER
            /\ msg_text edited = newText
            /\ exists added,
                chatMessages (fst edit)
                = (firstn i (chatMessages s) ++ [edited; added])%list
                /\ List.length (chatMessages (fst edit)) = i + 1 + 1
                /\ (Js.truthy_opt API_KEY = true ->
                    added = modelPlaceholderMessage idClock timestamp
                    /\ msg_sender added = MODEL
                    /\ msg_text added = ""
                    /\ msg_isLoading added = Some true
                    /\ isLoading (fst edit) = true
                    /\ exists p, snd edit = Some p
                                 /\ pendingHistory p
                                    = (firstn i (chatMessages s) ++ [edited])%list
                                 /\ List.length (pendingHistory p) = i + 1
                                 /\ placeholder p = added)
                /\ (Js.truthy_opt API_KEY = false ->
                    added = apiKeyError idClock timestamp
                    /\ msg_sender added = SYSTEM
                    /\ isLoading (fst edit) = false
                    /\ snd edit = None))
        /\ (msg_sender target = MODEL ->
            exists added,
              chatMessages (fst regen) = (firstn i (chatMessages s) ++ [added])%list
              /\ List.length (chatMessages (fst regen)) = i + 1
              /\ (Js.truthy_opt API_KEY = true ->
                  added = modelPlaceholderMessage idClock timestamp
                  /\ msg_sender added = MODEL
                  /\ msg_text added = ""
                  /\ msg_isLoading added = Some true
                  /\ isLoading (fst regen) = true
                  /\ exists p, snd regen = Some p
                               /\ pendingHistory p = firstn i (chatMessages s)
                               /\ List.length (pendingHistory p) = i
                               /\ placeholder p = added)
              /\ (Js.truthy_opt API_KEY = false ->
                  added = apiKeyError idClock timestamp
                  /\ msg_sender added = SYSTEM
                  /\ isLoading (fst regen) = false
                  /\ snd regen = None))).
Proof.
  intros Hknown Hload Hfetch. cbv zeta.
  unfold handleEditMessage, handleRegenerateResponse. split.
  - intros ->. split; reflexivity.
  - intros i target Hfind. rewrite Hfind.
    destruct (messageIndex_nth _ _ _ _ Hfind) as (Hnth & Hid).
    destruct (messageIndex_length _ _ _ _ Hfind) as (Hlt & Hlen).
    split; [exact Hlt|]. split; [exact Hnth|].
    split; [intros Hne; destruct (msg_sender target); try reflexivity; contradiction|].
    split; [intros Hne; destruct (msg_sender target); try reflexivity; contradiction|].
    split.
    + intros Huser. rewrite Huser. cbn [sender_eqb negb].
      split; [exact Hid|]. split; [exact Huser|]. split; [reflexivity|].
      set (history := (firstn i (chatMessages s)
                       ++ [editedMessage target newText editTimestamp])%list).
      set (f := withMessages history editUpdated).
      destruct (update_active f s Hknown (fun _ => eq_refl)) as (c & Ha & Ha' & Hknown').
      assert (Hmsgs : chatMessages (updateActiveConversation f s) = history).
      { unfold chatMessages at 1. rewrite Ha'. reflexivity. }
      assert (Hhist : List.length history = i + 1).
      { subst history. rewrite length_app, Hlen. reflexivity. }
      destruct (trigger_appends_one API_KEY history idClock timestamp updated
                  (updateActiveConversation f s) Hknown' Hload Hfetch)
        as (added & Hm & Hkey & Hnokey).
      exists added. rewrite Hm, Hmsgs.
      split; [subst history; rewrite <- app_assoc; reflexivity|].
      split; [rewrite length_app, Hhist; reflexivity|].
      split.
      * intros Htruthy. destruct (Hkey Htruthy) as (-> & Hl & p & Hp & Hh & Hph).
        repeat (split; [first [reflexivity|exact Hl]|]).
        exists p. rewrite Hh. auto.
      * intros Hfalsy. destruct (Hnokey Hfalsy) as (-> & Hl & Hp).
        repeat (split; [first [reflexivity|exact Hl]|]). exact Hp.
    + intros Hmodel. rewrite Hmodel. cbn [sender_eqb negb].
      set (history := firstn i (chatMessages s)).
      set (f := withMessages history regenUpdated).
      destruct (update_active f s Hknown (fun _ => eq_refl)) as (c & Ha & Ha' & Hknown').
      assert (Hmsgs : chatMessages (updateActiveConversation f s) = history).
      { unfold chatMessages at 1. rewrite Ha'. reflexivity. }
      destruct (trigger_appends_one API_KEY history idClock timestamp updated
                  (updateActiveConversation f s) Hknown' Hload Hfetch)
        as (added & Hm & Hkey & Hnokey).
      exists added. rewrite Hm, Hmsgs.
      split; [reflexivity|].
      split; [rewrite length_app; fold history in Hlen; rewrite Hlen; reflexivity|].
      split.
      * intros Htruthy. destruct (Hkey Htruthy) as (-> & Hl & p & Hp & Hh & Hph).
        repeat (split; [first [reflexivity|exact Hl]|]).
        exists p. rewrite Hh. auto.
      * intros Hfalsy. destruct (Hnokey Hfalsy) as (-> & Hl & Hp).
        repeat (split; [first [reflexivity|exact Hl]|]). exact Hp.
Qed.

End Replaying.

Section ReplayingExamples.
Import Types Repository App Response Controller.

Lemma workspace_has_active : knownActive MoreSamples.workspace.
Proof. unfold knownActive. cbn. auto. Qed.

Lemma replay_truncates_then_appends_witness :
  chatMessages (fst (handleEditMessage (Some "key") "u1" "Hi again" 7 7 8 8 8
                       MoreSamples.workspace))
  = [MoreSamples.welcomeTurn; editedMessage Samples.userTurn "Hi again" 7;
     modelPlaceholderMessage 8 8]
  /\ handleRegenerateResponse (Some "key") "u1" 9 8 8 8 MoreSamples.workspace
     = (MoreSamples.workspace, None).
Proof.
  destruct (replay_truncates_then_appends (Some "key") "u1" "Hi again" 7 7 9 8 8 8
              MoreSamples.workspace workspace_has_active eq_refl eq_refl) as (_ & H).
  destruct (H 1%nat Samples.userTurn eq_refl) as (_ & _ & _ & Hregen & Hedit & _).
  split; [|apply Hregen; discriminate].
  destruct (Hedit eq_refl) as (_ & _ & _ & added & Hmsgs & _ & Hkey & _).
  destruct (Hkey eq_refl) as (Hadded & _).
  rewrite Hmsgs, Hadded. reflexivity.
Defined.

(** C6, counterexample. Without an API key, editing the user's message
    at position 1 of a conversation in which nothing is in flight leaves
    the message before it, the edited message and an error message of
    the system: no new message of the model is added, and no response is
    requested. *)
Lemma edit_without_key_adds_system_message :
  let r := handleEditMessage None "u1" "Hi again" 7 7 8 8 8 MoreSamples.workspace in
  isLoading MoreSamples.workspace = false
  /\ isFetchingSuggestions MoreSamples.workspace = false
  /\ messageIndex "u1" (chatMessages MoreSamples.workspace) = Some (1%nat, Samples.userTurn)
  /\ msg_sender Samples.userTurn = USER
  /\ chatMessages (fst r)
     = [MoreSamples.welcomeTurn; editedMessage Samples.userTurn "Hi again" 7;
        apiKeyError 8 8]
  /\ map msg_sender (chatMessages (fst r)) = [SYSTEM; USER; SYSTEM]
  /\ snd r = None.
Proof. cbv zeta. repeat split; reflexivity. Qed.

End ReplayingExamples.

(** ** The response loop *)

Section ResponseLoop.
Import Types Repository App Response Controller.

Lemma updatePlaceholder_compose (p : Pending) (f g : ChatMessage -> ChatMessage)
    (l : list Conversation) :
  (forall m, msg_id (g m) = msg_id m) ->
  updatePlaceholder p f (updatePlaceholder p g l)
  = updatePlaceholder p (fun m => f (g m)) l.
Proof.
  intros Hid. unfold updatePlaceholder, updateConversation.
  rewrite map_map. apply map_ext. intros c.
  destruct (String.eqb (conv_id c) (pendingConversation p)) eqn:He.
  - cbn [withMessages conv_id conv_messages conv_lastUpdated]. rewrite He.
    unfold withMessages. cbn. f_equal. rewrite map_map. apply map_ext. intros m.
    destruct (String.eqb (msg_id m) (msg_id (placeholder p))) eqn:Hm.
    + rewrite Hid, Hm. reflexivity.
    + rewrite Hm. reflexivity.
  - rewrite He. reflexivity.
Qed.

Lemma updatePlaceholder_ext (p : Pending) (f g : ChatMessage -> ChatMessage)
    (l : list Conversation) :
  (forall m, f m = g m) -> updatePlaceholder p f l = updatePlaceholder p g l.
Proof.
  intros Hext. unfold updatePlaceholder, updateConversation.
  apply map_ext. intros c. destruct (String.eqb _ _); [|reflexivity].
  f_equal. apply map_ext. intros m. destruct (String.eqb _ _); [apply Hext|reflexivity].
Qed.

Lemma updatePlaceholder_id (p : Pending) (l : list Conversation) :
  updatePlaceholder p (fun m => m) l = l.
Proof.
  unfold updatePlaceholder, updateConversation.
  rewrite <- (map_id l) at 2. apply map_ext. intros c.
  destruct (String.eqb _ _); [|reflexivity].
  rewrite (map_ext _ (fun m => m)) by (intros m; destruct (String.eqb _ _); reflexivity).
  rewrite map_id. destruct c; reflexivity.
Qed.

Lemma textOnly_id : textOnly (fun m => m).
Proof. intros m. exists (msg_text m). destruct m; reflexivity. Qed.

Lemma textOnly_ids (g : ChatMessage -> ChatMessage) :
  textOnly g -> forall m, msg_id (g m) = msg_id m.
Proof. intros Hg m. destruct (Hg m) as (t & ->). reflexivity. Qed.

Lemma onChunk_absorb (p : Pending) (progress : Progress) (convs : list Conversation)
    (item : Gemini.StreamItem) :
  fst (onChunk p (progress, convs) item) = absorbChunk progress item.
Proof. reflexivity. Qed.

(** The updates made while the stream is read change the text of the
    placeholder and nothing else. *)
Lemma fold_onChunk (p : Pending) (convs0 : list Conversation)
    (items : list Gemini.StreamItem) :
  forall progress g,
    textOnly g ->
    exists g',
      textOnly g'
      /\ fold_left (onChunk p) items (progress, updatePlaceholder p g convs0)
         = (fold_left absorbChunk items progress, updatePlaceholder p g' convs0).
Proof.
  induction items as [|item items IH]; intros progress g Hg.
  - exists g. split; [exact Hg|reflexivity].
  - cbn [fold_left].
    destruct (Js.truthy_opt (Gemini.textChunk item)) eqn:Htext.
    + set (text := fullText (absorbChunk progress item)).
      destruct (IH (absorbChunk progress item) (fun m => withTextOf text (g m))) as (g' & Hg' & Heq).
      { intros m. destruct (Hg m) as (t & ->). exists text. reflexivity. }
      exists g'. split; [exact Hg'|]. rewrite <- Heq. f_equal.
      unfold onChunk. rewrite Htext.
      rewrite (updatePlaceholder_compose p _ g convs0 (textOnly_ids g Hg)).
      reflexivity.
    + destruct (IH (absorbChunk progress item) g Hg) as (g' & Hg' & Heq).
      exists g'. split; [exact Hg'|]. rewrite <- Heq. f_equal.
      unfold onChunk. rewrite Htext. reflexivity.
Qed.

Lemma truthy_false_empty (s : string) : Js.truthy s = false -> s = "".
Proof. destruct s; [reflexivity|discriminate]. Qed.

Lemma absorbChunk_deltas (deltas : list string) :
  forall progress,
    fold_left absorbChunk (map Gemini.deltaItem deltas) progress
    = {| fullText := fullText progress ++ String.concat "" deltas;
         finalCitations := finalCitations progress;
         finalUrlContext := finalUrlContext progress |}.
Proof.
  induction deltas as [|t ts IH]; intros progress.
  - cbn. rewrite append_nil_r. destruct progress; reflexivity.
  - cbn [map fold_left]. rewrite IH, concat_empty_cons.
    unfold absorbChunk, Gemini.deltaItem.
    cbn [Gemini.textChunk Gemini.citations Gemini.urlContextMetadata
         fullText finalCitations finalUrlContext].
    destruct (Js.truthy t) eqn:Ht.
    + rewrite append_assoc. reflexivity.
    + rewrite (truthy_false_empty t Ht). reflexivity.
Qed.

Lemma absorbChunk_stream (cs : list Gemini.GenerateContentResponse) :
  fold_left absorbChunk
    (map Gemini.deltaItem (Gemini.deltasOf cs)
     ++ match Gemini.lastChunk cs with
        | Some f => [Gemini.terminalItem f]
        | None => []
        end)%list noProgress
  = gathered cs.
Proof.
  rewrite fold_left_app, absorbChunk_deltas. unfold gathered.
  destruct (Gemini.lastChunk cs) as [f|]; [|reflexivity].
  cbn [fold_left]. unfold absorbChunk.
  cbn [fullText finalCitations finalUrlContext noProgress].
  replace (Gemini.textChunk (Gemini.terminalItem f)) with (@None string) by reflexivity.
  destruct (Gemini.citations (Gemini.terminalItem f)),
           (Gemini.urlContextMetadata (Gemini.terminalItem f)); reflexivity.
Qed.

Lemma finalized_textOnly (progress : Progress) (g : ChatMessage -> ChatMessage) :
  textOnly g -> forall m, finalized progress (g m) = finalized progress m.
Proof. intros Hg m. destruct (Hg m) as (t & ->). reflexivity. Qed.

(** X20. When the stream of a pending response ends normally, the state
    is the one obtained from the state before the stream by a single
    update: in the conversation that was active when the response was
    requested, the message with the placeholder's id gets the
    concatenation of all text deltas as its text, is no longer loading,
    and carries the citations and url metadata of the last chunk
    (undefined when it had none); the updates made while streaming leave
    no other trace. Every other message and every other conversation is
    as before, the loading flag is lowered, and the backend was called
    once. *)
Theorem completed_response_fills_placeholder
    (dec : Gemini.Decoders) (API_KEY : option string) (backend : Gemini.Backend)
    (lang : Gemini.Language) (p : Pending) (w : Gemini.World) (s : State)
    (cs : list Gemini.GenerateContentResponse) :
  Gemini.streamOf dec API_KEY backend (pendingHistory p) (pendingUrls p) (pendingFiles p)
                  lang w
  = Some {| Gemini.chunks := cs; Gemini.failure := None |} ->
  let r := completeResponse dec API_KEY backend lang p w s in
  snd r = setIsLoading false
            (setConversations (updatePlaceholder p (finalized (gathered cs)) (conversations s))
                              s)
  /\ List.length (Gemini.calls (fst r)) = S (List.length (Gemini.calls w))
  /\ (forall i c,
        nth_error (conversations s) i = Some c ->
        exists c',
          nth_error (conversations (snd r)) i = Some c'
          /\ conv_id c' = conv_id c
          /\ (conv_id c <> pendingConversation p -> c' = c)
          /\ (conv_id c = pendingConversation p ->
              conv_messages c'
              = map (fun m => if String.eqb (msg_id m) (msg_id (placeholder p))
                              then finalized (gathered cs) m else m)
                    (conv_messages c))).
Proof.
  intros Hs. cbv zeta.
  destruct (forAwait_stream _ _ _ _ _ _ _ w cs None Hs) as (w' & Hcalls & Hrun).
  rewrite drive_loop_completes in Hrun by lia.
  rewrite loopItems_split, loopDeltas_deltasOf in Hrun.
  fold (Gemini.lastChunk cs) in Hrun.
  assert (Hstate : completeResponse dec API_KEY backend lang p w s
                   = (w', setIsLoading false
                            (setConversations
                               (updatePlaceholder p (finalized (gathered cs))
                                                  (conversations s)) s))).
  { unfold completeResponse. rewrite Hrun.
    destruct (fold_onChunk p (conversations s)
                (map Gemini.deltaItem (Gemini.deltasOf cs)
                 ++ match Gemini.lastChunk cs with
                    | Some f => [Gemini.terminalItem f]
                    | None => []
                    end)%list noProgress (fun m => m) textOnly_id) as (g & Hg & Hfold).
    rewrite updatePlaceholder_id in Hfold. rewrite Hfold, absorbChunk_stream.
    rewrite (updatePlaceholder_compose p _ g _ (textOnly_ids g Hg)).
    rewrite (updatePlaceholder_ext p _ (finalized (gathered cs)) _
               (finalized_textOnly (gathered cs) g Hg)).
    reflexivity. }
  rewrite Hstate. cbn [fst snd]. split; [reflexivity|]. split; [exact Hcalls|].
  intros i c Hnth.
  cbn [setIsLoading setConversations conversations].
  unfold updatePlaceholder, updateConversation. rewrite nth_error_map, Hnth.
  cbn [option_map]. eexists. split; [reflexivity|].
  destruct (String.eqb_spec (conv_id c) (pendingConversation p)) as [He|Hne].
  - split; [reflexivity|]. split; [intros Hne; contradiction|]. intros _. reflexivity.
  - split; [reflexivity|]. split; [reflexivity|]. intros He. contradiction.
Qed.

(** X21. When the stream of a pending response fails, whatever text had
    arrived is discarded: the message with the placeholder's id is
    replaced by a system message that keeps the placeholder's id and
    timestamp, is not loading and reads "Error: " followed by the
    message of the error the service rethrew; the loading flag is
    lowered and everything else is as before the stream. *)
Theorem failed_response_becomes_error
    (dec : Gemini.Decoders) (API_KEY : option string) (backend : Gemini.Backend)
    (lang : Gemini.Language) (p : Pending) (w : Gemini.World) (s : State)
    (cs : list Gemini.GenerateContentResponse) (err : Gemini.Thrown) :
  Gemini.streamOf dec API_KEY backend (pendingHistory p) (pendingUrls p) (pendingFiles p)
                  lang w
  = Some {| Gemini.chunks := cs; Gemini.failure := Some err |} ->
  let r := completeResponse dec API_KEY backend lang p w s in
  let notice := failedMessage p (Gemini.rethrowStream err) in
  snd r = setIsLoading false
            (setConversations (updatePlaceholder p (fun _ => notice) (conversations s)) s)
  /\ msg_id notice = msg_id (placeholder p)
  /\ msg_sender notice = SYSTEM
  /\ msg_isLoading notice = Some false
  /\ msg_text notice = "Error: " ++ errorMessageOf (Gemini.rethrowStream err)
  /\ Js.truthy (errorMessageOf (Gemini.rethrowStream err)) = true.
Proof.
  intros Hs. cbv zeta.
  destruct (forAwait_stream _ _ _ _ _ _ _ w cs (Some err) Hs) as (w' & Hcalls & Hrun).
  rewrite drive_loop_fails in Hrun by lia.
  split.
  - unfold completeResponse. rewrite Hrun.
    destruct (fold_onChunk p (conversations s) (Gemini.loopDeltas cs) noProgress
                (fun m => m) textOnly_id) as (g & Hg & Hfold).
    rewrite updatePlaceholder_id in Hfold. rewrite Hfold. cbn [snd].
    rewrite (updatePlaceholder_compose p _ g _ (textOnly_ids g Hg)). reflexivity.
  - repeat split.
    unfold errorMessageOf, Gemini.rethrowStream, Gemini.newError.
    destruct err as [e|]; [|reflexivity].
    destruct (Js.truthy (Gemini.message e)
              && Js.includes "API key not valid" (Gemini.message e)); [reflexivity|].
    destruct (Js.truthy (Gemini.message e) && Js.includes "quota" (Gemini.message e));
      [reflexivity|].
    destruct (match Gemini.errType e with
              | Some ty => String.eqb ty "GoogleGenAIError"
              | None => false
              end && Js.truthy (Gemini.message e)); reflexivity.
Qed.

End ResponseLoop.

Section ResponseLoopExamples.
Import Types Repository App Response Controller.

Lemma completed_response_fills_placeholder_witness :
  chatMessages (snd (completeResponse Samples.decoders (Some "key")
                       (Samples.backendOf Samples.helloChunks) Gemini.en
                       MoreSamples.pendingAnswer Samples.freshWorld MoreSamples.awaiting))
  = (chatMessages MoreSamples.workspace
     ++ [ userMessage "Why?" [] 5 5;
          finalized {| fullText := "Hello";
                       finalCitations := Some [Samples.citationU];
                       finalUrlContext := None |}
                    (modelPlaceholderMessage 6 6) ])%list.
Proof.
  rewrite (proj1 (completed_response_fills_placeholder Samples.decoders (Some "key")
                    (Samples.backendOf Samples.helloChunks) Gemini.en
                    MoreSamples.pendingAnswer Samples.freshWorld MoreSamples.awaiting
                    Samples.helloChunks eq_refl)).
  reflexivity.
Defined.

Lemma failed_response_becomes_error_witness :
  chatMessages (snd (completeResponse Samples.decoders (Some "key")
                       (MoreSamples.failingBackend Samples.helloChunks MoreSamples.quotaError)
                       Gemini.en MoreSamples.pendingAnswer Samples.freshWorld
                       MoreSamples.awaiting))
  = (chatMessages MoreSamples.workspace
     ++ [ userMessage "Why?" [] 5 5;
          failedMessage MoreSamples.pendingAnswer
            (Gemini.newError "API quota exceeded. Please check your Gemini API quota.") ])%list.
Proof.
  rewrite (proj1 (failed_response_becomes_error Samples.decoders (Some "key")
                    (MoreSamples.failingBackend Samples.helloChunks MoreSamples.quotaError)
                    Gemini.en MoreSamples.pendingAnswer Samples.freshWorld
                    MoreSamples.awaiting Samples.helloChunks MoreSamples.quotaError eq_refl)).
  reflexivity.
Defined.

End ResponseLoopExamples.

(** ** The streamed answer *)

Section StreamedAnswer.
Import Types Repository Gemini App Response Controller.

(** C2, as amended. When the backend stream is exhausted without a
    failure, a consumer driving the generator to its end receives the
    non-empty text deltas of the chunks in arrival order, followed, when
    at least one chunk arrived, by exactly one terminal item built from
    the last chunk, and by nothing when no chunk arrived. The loop of
    [_triggerModelResponse] assembles the concatenation of the yielded
    deltas and keeps the citations and url metadata of the terminal
    item, either of which may be undefined; when the loop is over, the
    message with the placeholder's id has that text, [isLoading = false]
    and that metadata, and the loading flag of the controller is
    lowered. *)
Theorem stream_deltas_then_terminal
    (dec : Decoders) (API_KEY : option string) (backend : Backend) (lang : Language)
    (p : Pending) (w : World) (s : State) (cs : list GenerateContentResponse) :
  streamOf dec API_KEY backend (pendingHistory p) (pendingUrls p) (pendingFiles p) lang w
  = Some {| chunks := cs; failure := None |} ->
  let '(_, items, out) :=
    forAwait dec API_KEY backend (pendingHistory p) (pendingUrls p) (pendingFiles p)
             lang w in
  let terminal :=
    match lastChunk cs with Some f => [terminalItem f] | None => [] end in
  let progress := fst (fold_left (onChunk p) items (noProgress, conversations s)) in
  out = Some (Returned tt)
  /\ items = (map deltaItem (deltasOf cs) ++ terminal)%list
  /\ terminalItems items = terminal
  /\ List.length terminal = (match cs with [] => 0 | _ :: _ => 1 end)
  /\ fullText progress = String.concat "" (deltasOf cs)
  /\ finalCitations progress
     = match lastChunk cs with Some f => citations (terminalItem f) | None => None end
  /\ finalUrlContext progress
     = match lastChunk cs with Some f => urlContextMetadata (terminalItem f) | None => None end
  /\ snd (completeResponse dec API_KEY backend lang p w s)
     = setIsLoading false
         (setConversations (updatePlaceholder p (finalized progress) (conversations s)) s)
  /\ (forall m,
        msg_id (finalized progress m) = msg_id m
        /\ msg_sender (finalized progress m) = msg_sender m
        /\ msg_text (finalized progress m) = String.concat "" (deltasOf cs)
        /\ msg_isLoading (finalized progress m) = Some false
        /\ msg_citations (finalized progress m)
           = match lastChunk cs with Some f => citations (terminalItem f) | None => None end
        /\ msg_urlContext (finalized progress m)
           = match lastChunk cs with
             | Some f => urlContextMetadata (terminalItem f)
             | None => None
             end).
Proof.
  intros Hs.
  destruct (forAwait_stream _ _ _ _ _ _ _ w cs None Hs) as (w' & _ & Hrun).
  rewrite drive_loop_completes in Hrun by lia.
  rewrite loopItems_split, loopDeltas_deltasOf in Hrun.
  fold (lastChunk cs) in Hrun.
  assert (Hcomplete : snd (completeResponse dec API_KEY backend lang p w s)
                      = setIsLoading false
                          (setConversations
                             (updatePlaceholder p (finalized (gathered cs)) (conversations s))
                             s)).
  { unfold completeResponse. rewrite Hrun.
    destruct (fold_onChunk p (conversations s)
                (map deltaItem (deltasOf cs)
                 ++ match lastChunk cs with
                    | Some f => [terminalItem f]
                    | None => []
                    end)%list noProgress (fun m => m) textOnly_id) as (g & Hg & Hfold).
    rewrite updatePlaceholder_id in Hfold. rewrite Hfold, absorbChunk_stream. cbn [snd].
    rewrite (updatePlaceholder_compose p _ g _ (textOnly_ids g Hg)).
    rewrite (updatePlaceholder_ext p _ (finalized (gathered cs)) _
               (finalized_textOnly (gathered cs) g Hg)).
    reflexivity. }
  rewrite Hrun in *. cbv zeta.
  assert (Hprogress : fst (fold_left (onChunk p)
                             (map deltaItem (deltasOf cs)
                              ++ match lastChunk cs with
                                 | Some f => [terminalItem f]
                                 | None => []
                                 end)%list (noProgress, conversations s))
                      = gathered cs).
  { destruct (fold_onChunk p (conversations s)
                (map deltaItem (deltasOf cs)
                 ++ match lastChunk cs with
                    | Some f => [terminalItem f]
                    | None => []
                    end)%list noProgress (fun m => m) textOnly_id) as (g & Hg & Hfold).
    rewrite updatePlaceholder_id in Hfold. rewrite Hfold, absorbChunk_stream. reflexivity. }
  rewrite Hprogress.
  assert (Hterm : terminalItems
                    (match lastChunk cs with Some f => [terminalItem f] | None => [] end)
                  = match lastChunk cs with Some f => [terminalItem f] | None => [] end).
  { destruct (lastChunk cs); reflexivity. }
  split; [reflexivity|]. split; [reflexivity|].
  split; [rewrite terminalItems_deltas; exact Hterm|].
  split.
  { destruct cs as [|chunk cs']; [reflexivity|].
    destruct (lastChunk_nonempty chunk cs') as (f & Hf & _). rewrite Hf. reflexivity. }
  split; [reflexivity|]. split; [reflexivity|]. split; [reflexivity|].
  split; [exact Hcomplete|].
  intros m. repeat split.
Qed.

Lemma stream_deltas_then_terminal_witness :
  let '(_, items, out) :=
    forAwait Samples.decoders (Some "key") (Samples.backendOf Samples.helloChunks)
      (pendingHistory MoreSamples.pendingAnswer) (pendingUrls MoreSamples.pendingAnswer)
      (pendingFiles MoreSamples.pendingAnswer) en Samples.freshWorld in
  out = Some (Returned tt)
  /\ List.length items = 3
  /\ map msg_text
         (chatMessages
            (snd (completeResponse Samples.decoders (Some "key")
                    (Samples.backendOf Samples.helloChunks) en MoreSamples.pendingAnswer
                    Samples.freshWorld MoreSamples.awaiting)))
     = ["Welcome"; "Hi"; "Hello"; "Why?"; "Hello"].
Proof.
  pose proof (stream_deltas_then_terminal Samples.decoders (Some "key")
                (Samples.backendOf Samples.helloChunks) en MoreSamples.pendingAnswer
                Samples.freshWorld MoreSamples.awaiting Samples.helloChunks eq_refl) as H.
  destruct (forAwait Samples.decoders (Some "key") (Samples.backendOf Samples.helloChunks)
              (pendingHistory MoreSamples.pendingAnswer)
              (pendingUrls MoreSamples.pendingAnswer)
              (pendingFiles MoreSamples.pendingAnswer) en Samples.freshWorld)
    as [[w' items] out].
  destruct H as (Hout & Hitems & _ & _ & _ & _ & _ & Hcomplete & _).
  split; [exact Hout|].
  split; [rewrite Hitems; reflexivity|].
  rewrite Hcomplete, Hitems. reflexivity.
Defined.

End StreamedAnswer.


(** ** Suggestions *)

Section SuggestionFetch.
Import Types Repository App Response Controller.

(** X22. Fetching suggestions never leaves more than four of them. For
    an empty url list they are cleared and the service is not called.
    Otherwise the fetching flag is lowered when the fetch is over,
    whether it succeeded or failed; a success leaves the conversations
    untouched; a failure leaves no suggestions and appends one system
    message to the conversation with the active id. The effect that
    starts the fetch does not call the service without an API key. *)
Theorem suggestions_are_bounded
    (API_KEY : option string) (backend : Gemini.Backend)
    (parseSuggestions : string -> option (list string)) (lang : Gemini.Language)
    (currentUrls : list string) (idClock : nat) (timestamp : Z)
    (w : Gemini.World) (s : State) :
  let r := fetchAndSetInitialSuggestions API_KEY backend parseSuggestions lang
             currentUrls idClock timestamp w s in
  List.length (initialQuerySuggestions (snd r)) <= 4
  /\ (currentUrls = [] -> r = (w, setInitialQuerySuggestions [] s))
  /\ (currentUrls <> [] ->
      isFetchingSuggestions (snd r) = false
      /\ isLoading (snd r) = isLoading s
      /\ activeConversationId (snd r) = activeConversationId s)
  /\ (forall text,
        snd (Gemini.getInitialSuggestions API_KEY backend w currentUrls lang)
        = Gemini.Returned text ->
        conversations (snd r) = conversations s)
  /\ (forall thrown,
        currentUrls <> [] ->
        snd (Gemini.getInitialSuggestions API_KEY backend w currentUrls lang)
        = Gemini.Threw thrown ->
        initialQuerySuggestions (snd r) = []
        /\ conversations (snd r)
           = updateConversation (activeConversationId s)
               (fun c => appendMessage (suggestionError thrown idClock timestamp)
                                       (conv_lastUpdated c) c)
               (conversations s))
  /\ (Js.truthy_opt API_KEY = false ->
      suggestionsEffect API_KEY backend parseSuggestions lang idClock timestamp w s
      = (w, setInitialQuerySuggestions [] s)).
Proof.
  cbv zeta. unfold fetchAndSetInitialSuggestions.
  destruct currentUrls as [|url urls].
  - cbn [snd setInitialQuerySuggestions initialQuerySuggestions List.length conversations].
    split; [lia|]. split; [reflexivity|]. split; [intros H; contradiction|].
    split; [reflexivity|]. split; [intros thrown H; contradiction|].
    intros Hkey. unfold suggestionsEffect. rewrite Hkey.
    destruct (contextUrls s); reflexivity.
  - destruct (Gemini.getInitialSuggestions API_KEY backend w (url :: urls) lang)
      as [w' [text|thrown]].
    + cbn [snd]. split.
      { destruct (Js.truthy_opt text);
          cbn [setIsFetchingSuggestions setInitialQuerySuggestions initialQuerySuggestions
               List.length]; [|lia].
        rewrite length_firstn. lia. }
      split; [discriminate|].
      split; [intros _; destruct (Js.truthy_opt text); repeat split|].
      split; [intros ? _; destruct (Js.truthy_opt text); reflexivity|].
      split; [intros thrown _; discriminate|].
      intros Hkey. unfold suggestionsEffect. rewrite Hkey.
      destruct (contextUrls s); reflexivity.
    + cbn [snd setIsFetchingSuggestions setInitialQuerySuggestions setConversations
           initialQuerySuggestions List.length conversations isFetchingSuggestions
           isLoading activeConversationId].
      split; [lia|]. split; [discriminate|]. split; [repeat split|].
      split; [intros ?; discriminate|].
      split; [intros thrown' _ H; injection H as <-; split; reflexivity|].
      intros Hkey. unfold suggestionsEffect. rewrite Hkey.
      destruct (contextUrls s); reflexivity.
Qed.

End SuggestionFetch.

(** ** Saved state *)

Section SavedState.
Import Types Repository App Persistence Controller.

Lemma isLoadedWithData_kept (a : Attachment) : isLoadedWithData a = true <-> kept a.
Proof.
  unfold isLoadedWithData, kept. rewrite andb_true_iff.
  destruct (att_status a); cbn; intuition discriminate.
Qed.

Lemma restored_kept (c : Conversation) :
  Forall kept (conv_files (restoreConversation c))
  /\ forall m, In m (conv_messages (restoreConversation c)) -> Forall kept (attachmentsOf m).
Proof.
  split.
  - cbn. rewrite Forall_forall. intros f Hin. apply filter_In in Hin.
    apply isLoadedWithData_kept, Hin.
  - cbn. intros m Hin. apply in_map_iff in Hin. destruct Hin as (m0 & <- & _).
    unfold attachmentsOf at 1. cbn. rewrite Forall_forall. intros f Hin.
    apply filter_In in Hin. apply isLoadedWithData_kept, Hin.
Qed.

Lemma sorted_by_update (l : list Conversation) :
  StronglySorted newestFirst (Js.sort updatedEarlier l).
Proof.
  apply sort_ordered; unfold updatedEarlier, newestFirst.
  - intros x y H. apply Z.ltb_lt in H. lia.
  - intros x y H. apply Z.ltb_ge in H. lia.
  - intros x y z H1 H2. lia.
Qed.

(** X23. Whatever was stored, the state the application starts from has
    at least one conversation, an active id that names one of them, the
    conversations in order of last update (newest first), and only files
    and attachments that are loaded and have data. When the storage
    holds a non-empty array, the conversations are the stored ones (each
    with its unloaded files and attachments filtered out), and the
    stored active id is kept if it is non-empty and names one of them;
    otherwise the first conversation is active. When nothing usable is
    stored, there is exactly one fresh conversation with the default
    name and no urls or files. *)
Theorem loaded_state_is_consistent
    (parsed : option (list Conversation)) (savedActiveId : option string)
    (defaultName : string) (welcome : string -> string)
    (idClock updatedClock : nat) (timestamp : Z) :
  let loaded := fst (loadInitialState parsed savedActiveId defaultName welcome
                       idClock updatedClock timestamp) in
  let activeId := snd (loadInitialState parsed savedActiveId defaultName welcome
                         idClock updatedClock timestamp) in
  loaded <> []
  /\ In activeId (map conv_id loaded)
  /\ StronglySorted newestFirst loaded
  /\ (forall c, In c loaded ->
        Forall kept (conv_files c)
        /\ forall m, In m (conv_messages c) -> Forall kept (attachmentsOf m))
  /\ (forall c cs,
        parsed = Some (c :: cs) ->
        Permutation loaded (map restoreConversation (c :: cs))
        /\ (forall id, savedActiveId = Some id -> Js.truthy id = true ->
                       In id (map conv_id (c :: cs)) -> activeId = id)
        /\ ((forall id, savedActiveId = Some id -> ~ In id (map conv_id (c :: cs))) ->
            exists first, hd_error loaded = Some first /\ activeId = conv_id first))
  /\ (parsed = None \/ parsed = Some [] ->
      exists c, loaded = [c] /\ activeId = conv_id c /\ conv_name c = defaultName
                /\ conv_urls c = [] /\ conv_files c = []).
Proof.
  cbv zeta.
  assert (Hdefault : parsed = None \/ parsed = Some [] ->
            loadInitialState parsed savedActiveId defaultName welcome idClock updatedClock
                             timestamp
            = ([ {| conv_id := "conv-" ++ Js.numberToString idClock;
                    conv_name := defaultName;
                    conv_urls := [];
                    conv_files := [];
                    conv_messages :=
                      [systemMessage ("system-welcome-" ++ "conv-" ++ Js.numberToString idClock)
                                     (welcome defaultName) timestamp];
                    conv_lastUpdated := Z.of_nat updatedClock |} ],
               "conv-" ++ Js.numberToString idClock)).
  { intros [->| ->]; reflexivity. }
  destruct parsed as [[|c cs]|].
  - rewrite (Hdefault (or_intror eq_refl)). cbn [fst snd].
    split; [discriminate|]. split; [left; reflexivity|].
    split; [repeat constructor|]. split.
    { intros c [<-|[]]. split; [constructor|].
      intros m [<-|[]]. constructor. }
    split; [intros ? ? H; discriminate|].
    intros _. eexists. repeat split.
  - set (restored := map restoreConversation (c :: cs)).
    set (sorted := Js.sort updatedEarlier restored).
    assert (Hperm : Permutation sorted restored) by apply sort_permutation.
    assert (Hids : forall id, In id (map conv_id restored) <-> In id (map conv_id (c :: cs))).
    { intros id. unfold restored. rewrite map_map. reflexivity. }
    assert (Hne : sorted <> []).
    { intros Hnil. rewrite Hnil in Hperm. apply Permutation_nil in Hperm. discriminate. }
    assert (Hex : forall id,
               existsb (fun c => String.eqb (conv_id c) id) sorted = true
               <-> In id (map conv_id (c :: cs))).
    { intros id. rewrite existsb_exists, <- Hids, in_map_iff. split.
      - intros (x & Hin & He). apply String.eqb_eq in He. exists x. split; [exact He|].
        apply (Permutation_in _ Hperm), Hin.
      - intros (x & He & Hin). exists x. split.
        + apply (Permutation_in _ (Permutation_sym Hperm)), Hin.
        + apply String.eqb_eq, He. }
    assert (Hload : loadInitialState (Some (c :: cs)) savedActiveId defaultName welcome
                      idClock updatedClock timestamp
                    = (sorted,
                       match savedActiveId with
                       | Some id =>
                           if Js.truthy id
                              && existsb (fun c => String.eqb (conv_id c) id) sorted
                           then id
                           else match sorted with c :: _ => conv_id c | [] => "" end
                       | None => match sorted with c :: _ => conv_id c | [] => "" end
                       end)).
    { reflexivity. }
    rewrite Hload. cbn [fst snd].
    destruct sorted as [|first rest] eqn:Hsorted; [contradiction|].
    split; [discriminate|]. split.
    { destruct savedActiveId as [id|]; [|left; reflexivity].
      destruct (Js.truthy id && existsb _ (first :: rest)) eqn:Hcond; [|left; reflexivity].
      apply andb_prop in Hcond. destruct Hcond as [_ Hin].
      apply existsb_exists in Hin. destruct Hin as (x & Hin & He).
      apply String.eqb_eq in He. rewrite <- He. apply in_map, Hin. }
    split; [rewrite <- Hsorted; apply sorted_by_update|]. split.
    { intros x Hin. apply (Permutation_in _ Hperm) in Hin.
      apply in_map_iff in Hin. destruct Hin as (x0 & <- & _). apply restored_kept. }
    split.
    + intros c0 cs0 H. injection H as <- <-. split; [exact Hperm|]. split.
      * intros id -> Htruthy Hin. rewrite Htruthy, (proj2 (Hex id) Hin). reflexivity.
      * intros Hnone. exists first. split; [reflexivity|].
        destruct savedActiveId as [id|]; [|reflexivity].
        destruct (existsb (fun c => String.eqb (conv_id c) id) (first :: rest)) eqn:He.
        -- exfalso. apply (Hnone id eq_refl). apply Hex, He.
        -- rewrite andb_false_r. reflexivity.
    + intros [H|H]; discriminate.
  - rewrite (Hdefault (or_introl eq_refl)). cbn [fst snd].
    split; [discriminate|]. split; [left; reflexivity|].
    split; [repeat constructor|]. split.
    { intros c [<-|[]]. split; [constructor|].
      intros m [<-|[]]. constructor. }
    split; [intros ? ? H; discriminate|].
    intros _. eexists. repeat split.
Qed.

End SavedState.

Section SaveAndReload.
Import Types Repository App Persistence Controller.

Lemma filter_loaded_with_data (l : list Attachment) :
  filter isLoadedWithData (filter isLoaded l) = filter isLoadedWithData l.
Proof.
  induction l as [|a l IH]; [reflexivity|]. cbn [filter].
  unfold isLoadedWithData at 2, isLoaded at 1.
  destruct (status_eqb (att_status a) StLoaded) eqn:Hst; cbn [andb filter].
  - unfold isLoadedWithData at 1. rewrite Hst. cbn [andb].
    destruct (Js.truthy_opt (att_data a)); rewrite IH; reflexivity.
  - exact IH.
Qed.

Lemma load_nonempty (l : list Conversation) (savedActiveId : option string)
    (defaultName : string) (welcome : string -> string)
    (idClock updatedClock : nat) (timestamp : Z) :
  l <> [] ->
  loadInitialState (Some l) savedActiveId defaultName welcome idClock updatedClock timestamp
  = (Js.sort updatedEarlier (map restoreConversation l),
     match savedActiveId with
     | Some id =>
         if Js.truthy id
            && existsb (fun c => String.eqb (conv_id c) id)
                       (Js.sort updatedEarlier (map restoreConversation l))
         then id
         else match Js.sort updatedEarlier (map restoreConversation l) with
              | c :: _ => conv_id c
              | [] => ""
              end
     | None => match Js.sort updatedEarlier (map restoreConversation l) with
               | c :: _ => conv_id c
               | [] => ""
               end
     end).
Proof.
  intros Hne. destruct l as [|c cs]; [contradiction|].
  unfold loadInitialState.
  assert (Hsorted : Js.sort updatedEarlier (map restoreConversation (c :: cs)) <> []).
  { intros Hnil.
    pose proof (sort_permutation updatedEarlier (map restoreConversation (c :: cs))) as Hp.
    rewrite Hnil in Hp. apply Permutation_nil in Hp. discriminate. }
  cbn [map] in *.
  destruct (Js.sort updatedEarlier (restoreConversation c :: map restoreConversation cs));
    [contradiction|reflexivity].
Qed.

(** What is left of a conversation after it was saved and read back. *)
Lemma reloaded_conversation (c : Conversation) :
  let c' := restoreConversation (savableConversation c) in
  conv_id c' = conv_id c
  /\ conv_name c' = conv_name c
  /\ conv_urls c' = conv_urls c
  /\ conv_lastUpdated c' = conv_lastUpdated c
  /\ conv_files c' = filter isLoadedWithData (conv_files c)
  /\ map msg_id (conv_messages c') = map msg_id (conv_messages c)
  /\ map msg_text (conv_messages c') = map msg_text (conv_messages c)
  /\ map msg_sender (conv_messages c') = map msg_sender (conv_messages c)
  /\ map msg_timestamp (conv_messages c') = map msg_timestamp (conv_messages c)
  /\ map msg_citations (conv_messages c') = map msg_citations (conv_messages c)
  /\ map msg_urlContext (conv_messages c') = map msg_urlContext (conv_messages c)
  /\ map attachmentsOf (conv_messages c')
     = map (fun m => filter isLoadedWithData (attachmentsOf m)) (conv_messages c)
  /\ (forall m, In m (conv_messages c') -> msg_isLoading m = None).
Proof.
  cbv zeta. cbn [restoreConversation savableConversation conv_id conv_name conv_urls
                 conv_lastUpdated conv_files conv_messages].
  repeat (split; [reflexivity|]).
  split; [apply filter_loaded_with_data|].
  repeat (split; [rewrite !map_map; reflexivity|]).
  split.
  - rewrite !map_map. apply map_ext. intros m.
    unfold attachmentsOf at 1. cbn [restoreMessage msg_attachments].
    unfold attachmentsOf at 1. cbn [savableMessage msg_attachments].
    apply filter_loaded_with_data.
  - intros m Hin. rewrite map_map in Hin. apply in_map_iff in Hin.
    destruct Hin as (m0 & <- & _). reflexivity.
Qed.

Lemma display_order_map (g : Conversation -> Conversation) (l : list Conversation) :
  (forall c, conv_lastUpdated (g c) = conv_lastUpdated c) ->
  StronglySorted newestFirst l ->
  StronglySorted (fun a b => updatedEarlier a b = false) (map g l).
Proof.
  intros Hg Hsorted. induction Hsorted as [|a l Hrest IH Hall]; cbn; constructor.
  - exact IH.
  - rewrite Forall_forall in Hall |- *. intros b Hin.
    apply in_map_iff in Hin. destruct Hin as (b0 & <- & Hin).
    unfold updatedEarlier. rewrite !Hg. apply Z.ltb_ge. apply (Hall b0 Hin).
Qed.

(** X24. Reading back what the save effect wrote, for a state whose
    conversations are in display order (newest first) and whose active
    id is non-empty and names one of them, gives the same conversations
    in the same order and the same active id. Each conversation keeps
    its id, name, urls and time of last update, its files that are
    loaded and have data, and all its messages with their ids, texts,
    senders, timestamps, citations and url metadata; no message comes
    back as loading, and of the attachments only those that are loaded
    and have data come back. *)
Theorem reload_after_save
    (s : State) (defaultName : string) (welcome : string -> string)
    (idClock updatedClock : nat) (timestamp : Z) :
  conversations s <> [] ->
  StronglySorted newestFirst (conversations s) ->
  knownActive s ->
  Js.truthy (activeConversationId s) = true ->
  let r := loadInitialState (Some (map savableConversation (conversations s)))
             (savedActive s) defaultName welcome idClock updatedClock timestamp in
  snd r = activeConversationId s
  /\ fst r = map (fun c => restoreConversation (savableConversation c)) (conversations s)
  /\ map conv_id (fst r) = map conv_id (conversations s)
  /\ forall i c,
       nth_error (conversations s) i = Some c ->
       exists c',
         nth_error (fst r) i = Some c'
         /\ conv_id c' = conv_id c
         /\ conv_name c' = conv_name c
         /\ conv_urls c' = conv_urls c
         /\ conv_lastUpdated c' = conv_lastUpdated c
         /\ conv_files c' = filter isLoadedWithData (conv_files c)
         /\ map msg_id (conv_messages c') = map msg_id (conv_messages c)
         /\ map msg_text (conv_messages c') = map msg_text (conv_messages c)
         /\ map msg_sender (conv_messages c') = map msg_sender (conv_messages c)
         /\ map msg_timestamp (conv_messages c') = map msg_timestamp (conv_messages c)
         /\ map msg_citations (conv_messages c') = map msg_citations (conv_messages c)
         /\ map msg_urlContext (conv_messages c') = map msg_urlContext (conv_messages c)
         /\ map attachmentsOf (conv_messages c')
            = map (fun m => filter isLoadedWithData (attachmentsOf m)) (conv_messages c)
         /\ (forall m, In m (conv_messages c') -> msg_isLoading m = None).
Proof.
  intros Hne Hsorted Hknown Htruthy. cbv zeta.
  set (back := map (fun c => restoreConversation (savableConversation c)) (conversations s)).
  assert (Hids : map conv_id back = map conv_id (conversations s)).
  { unfold back. rewrite map_map. reflexivity. }
  assert (Hsort : Js.sort updatedEarlier back = back).
  { apply sort_of_ordered. apply display_order_map; [reflexivity|exact Hsorted]. }
  assert (Hload : loadInitialState (Some (map savableConversation (conversations s)))
                    (savedActive s) defaultName welcome idClock updatedClock timestamp
                  = (back, activeConversationId s)).
  { assert (Hsaved : map savableConversation (conversations s) <> []).
    { destruct (conversations s); [contradiction|discriminate]. }
    rewrite (load_nonempty _ _ defaultName welcome idClock updatedClock timestamp Hsaved).
    rewrite map_map. fold back. rewrite Hsort.
    unfold savedActive. rewrite Htruthy.
    assert (Hex : existsb (fun c => String.eqb (conv_id c) (activeConversationId s)) back
                  = true).
    { apply existsb_exists. unfold knownActive in Hknown. rewrite <- Hids in Hknown.
      apply in_map_iff in Hknown. destruct Hknown as (x & He & Hin).
      exists x. split; [exact Hin|]. apply String.eqb_eq, He. }
    rewrite Hex, Htruthy. reflexivity. }
  rewrite Hload. cbn [fst snd].
  split; [reflexivity|]. split; [reflexivity|]. split; [exact Hids|].
  intros i c Hnth. exists (restoreConversation (savableConversation c)). split.
  - unfold back. rewrite nth_error_map, Hnth. reflexivity.
  - apply reloaded_conversation.
Qed.

End SaveAndReload.

Section SavedStateExamples.
Import Types Repository App Response Persistence Controller.

Lemma suggestions_are_bounded_witness :
  fetchAndSetInitialSuggestions (Some "key") (Samples.backendOf []) (fun _ => None)
    Gemini.en [] 1 1 Samples.freshWorld MoreSamples.workspace
  = (Samples.freshWorld, setInitialQuerySuggestions [] MoreSamples.workspace)
  /\ isFetchingSuggestions
       (snd (fetchAndSetInitialSuggestions (Some "key")
               (MoreSamples.failingBackend [] MoreSamples.quotaError) (fun _ => None)
               Gemini.en ["https://a.example/"] 1 1 Samples.freshWorld
               (setIsFetchingSuggestions true MoreSamples.workspace)))
     = false.
Proof.
  split.
  - destruct (suggestions_are_bounded (Some "key") (Samples.backendOf []) (fun _ => None)
                Gemini.en [] 1 1 Samples.freshWorld MoreSamples.workspace)
      as (_ & Hempty & _).
    exact (Hempty eq_refl).
  - destruct (suggestions_are_bounded (Some "key")
                (MoreSamples.failingBackend [] MoreSamples.quotaError) (fun _ => None)
                Gemini.en ["https://a.example/"] 1 1 Samples.freshWorld
                (setIsFetchingSuggestions true MoreSamples.workspace))
      as (_ & _ & Hflag & _).
    refine (proj1 (Hflag _)). discriminate.
Defined.

Lemma loaded_state_is_consistent_witness :
  snd (loadInitialState (Some (conversations MoreSamples.workspace)) (Some "conv-20")
         "My first conversation" (fun n => n) 1 1 1)
  = "conv-20"
  /\ exists c,
       fst (loadInitialState None None "My first conversation" (fun n => n) 1 1 1) = [c]
       /\ conv_name c = "My first conversation".
Proof.
  split.
  - destruct (loaded_state_is_consistent (Some (conversations MoreSamples.workspace))
                (Some "conv-20") "My first conversation" (fun n => n) 1 1 1)
      as (_ & _ & _ & _ & Hstored & _).
    destruct (Hstored _ _ eq_refl) as (_ & Hactive & _).
    apply (Hactive "conv-20" eq_refl eq_refl). cbn. auto.
  - destruct (loaded_state_is_consistent None None "My first conversation" (fun n => n) 1 1 1)
      as (_ & _ & _ & _ & _ & Hfresh).
    destruct (Hfresh (or_introl eq_refl)) as (c & Hc & _ & Hname & _).
    exists c. split; [exact Hc|exact Hname].
Defined.

Lemma reload_after_save_witness :
  snd (loadInitialState (Some (map savableConversation (conversations MoreSamples.workspace)))
         (savedActive MoreSamples.workspace) "My first conversation" (fun n => n) 1 1 1)
  = "conv-20"
  /\ map conv_files
         (fst (loadInitialState
                 (Some (map savableConversation (conversations MoreSamples.workspace)))
                 (savedActive MoreSamples.workspace) "My first conversation"
                 (fun n => n) 1 1 1))
     = [[]; [MoreSamples.pngAttachment]; []].
Proof.
  assert (Hsorted : StronglySorted newestFirst (conversations MoreSamples.workspace)).
  { repeat constructor; unfold newestFirst; cbn; lia. }
  destruct (reload_after_save MoreSamples.workspace "My first conversation" (fun n => n)
              1 1 1 ltac:(discriminate) Hsorted workspace_known eq_refl)
    as (Hactive & Hconvs & _).
  split; [exact Hactive|]. rewrite Hconvs. reflexivity.
Defined.

End SavedStateExamples.

(** ** Export *)

Section ExportedFile.
Import Types Repository ExportFile Controller.

Lemma safe_character (c : ascii) :
  let c' := if isAsciiLetterOrDigit c then toLowerAscii c else "_"%char in
  safeChar c' = true
  /\ (if isAsciiLetterOrDigit c' then toLowerAscii c' else "_"%char) = c'.
Proof.
  destruct c as [[] [] [] [] [] [] [] []]; vm_compute; split; reflexivity.
Qed.

Lemma fold_export (toLocaleString : Z -> string) (format : Format)
    (messages : list ChatMessage) :
  forall content,
    fold_left (fun content msg => content ++ exportMessage toLocaleString format msg)
              messages content
    = content
      ++ String.concat ""
           (map (exportMessage toLocaleString format)
                (filter (fun m => negb (skipped m)) messages)).
Proof.
  induction messages as [|m messages IH]; intros content.
  - cbn. rewrite append_nil_r. reflexivity.
  - cbn [fold_left filter]. rewrite IH.
    destruct (skipped m) eqn:Hskip; cbn [negb].
    + unfold exportMessage at 1. rewrite Hskip, append_nil_r. reflexivity.
    + cbn [map]. rewrite concat_empty_cons, append_assoc. reflexivity.
Qed.

Lemma allChars_append (p : ascii -> bool) (s t : string) :
  allChars p (s ++ t) = allChars p s && allChars p t.
Proof.
  induction s as [|c s IH]; cbn [append allChars]; [reflexivity|].
  rewrite IH, andb_assoc. reflexivity.
Qed.

Lemma allChars_weaken (p q : ascii -> bool) (s : string) :
  (forall c, p c = true -> q c = true) ->
  allChars p s = true -> allChars q s = true.
Proof.
  intros Hpq. induction s as [|c s IH]; cbn [allChars]; [reflexivity|].
  intros H. apply andb_prop in H. destruct H as [Hc Hs].
  rewrite (Hpq c Hc), (IH Hs). reflexivity.
Qed.

Lemma length_safeFilename (name : string) :
  String.length (safeFilename name) = String.length name.
Proof.
  induction name as [|c s IH]; cbn; [reflexivity|]. rewrite IH. reflexivity.
Qed.

Lemma safeFilename_safe (name : string) :
  allChars safeChar (safeFilename name) = true.
Proof.
  induction name as [|c s IH]; cbn [safeFilename allChars]; [reflexivity|].
  rewrite (proj1 (safe_character c)), IH. reflexivity.
Qed.

Lemma safeFilename_again (name : string) :
  safeFilename (safeFilename name) = safeFilename name.
Proof.
  induction name as [|c s IH]; cbn [safeFilename]; [reflexivity|].
  rewrite (proj2 (safe_character c)), IH. reflexivity.
Qed.

Lemma substring_head (s t : string) :
  substring 0 (String.length s) (s ++ t) = s.
Proof.
  induction s as [|c s IH]; cbn.
  - destruct t; reflexivity.
  - rewrite IH. reflexivity.
Qed.

Lemma substring_tail (s t : string) :
  substring (String.length s) (String.length t) (s ++ t) = t.
Proof.
  induction s as [|c s IH]; cbn; [|exact IH].
  induction t as [|c t IHt]; cbn; [reflexivity|]. rewrite IHt. reflexivity.
Qed.

Lemma prefix_append (s t : string) : String.prefix s (s ++ t) = true.
Proof.
  induction s as [|c s IH]; cbn; [destruct t; reflexivity|].
  destruct (ascii_dec c c) as [_|Hne]; [exact IH|contradiction].
Qed.

(** X25. The name under which a conversation is downloaded,
    [downloadName], starts with the conversation's name in which every
    character other than an ASCII letter or digit is replaced by an
    underscore and the letters are made small; this part has the length
    of the name and consists of digits, small letters and underscores
    only. The rest of the download name is an underscore, the date, a
    dot and the format, so the download name is longer than the
    conversation's name by the length of the date plus 4 for [md] and
    plus 5 for [txt]. When the date consists of digits and hyphens, the
    whole download name consists of digits, small letters, underscores,
    hyphens and dots. A conversation whose name already is the safe
    name of another gets the same download name. The exported text
    starts with the title line; the system messages whose id starts with
    "system-welcome" do not change it, and every other message
    contributes a non-empty text. *)
Theorem export_uses_safe_name (toLocaleString : Z -> string) (format : Format)
    (today : string) (conv : Conversation) :
  let name := downloadName format today conv in
  let extension := match format with md => "md" | txt => "txt" end in
  let stem := String.length (conv_name conv) in
  substring 0 stem name = safeFilename (conv_name conv)
  /\ allChars safeChar (substring 0 stem name) = true
  /\ substring stem (String.length name - stem) name
     = "_" ++ today ++ "." ++ extension
  /\ String.length name
     = stem + String.length today + match format with md => 4 | txt => 5 end
  /\ (allChars dateChar today = true -> allChars fileNameChar name = true)
  /\ (forall conv', conv_name conv' = safeFilename (conv_name conv) ->
                    downloadName format today conv' = name)
  /\ String.prefix ("# Conversation: " ++ conv_name conv ++ Js.nl ++ Js.nl)
                   (exportContent toLocaleString format conv) = true
  /\ (forall conv',
        conv_name conv' = conv_name conv ->
        conv_messages conv' = filter (fun m => negb (skipped m)) (conv_messages conv) ->
        exportContent toLocaleString format conv'
        = exportContent toLocaleString format conv)
  /\ (forall m, skipped m = false ->
                Js.truthy (exportMessage toLocaleString format m) = true).
Proof.
  cbv zeta. unfold downloadName.
  set (extension := match format with md => "md" | txt => "txt" end).
  set (rest := "_" ++ today ++ "." ++ extension).
  pose proof (length_safeFilename (conv_name conv)) as Hlen.
  assert (Hrest : String.length rest
                  = String.length today + match format with md => 4 | txt => 5 end).
  { subst rest extension. cbn [append String.length]. rewrite length_append.
    destruct format; cbn; lia. }
  assert (Hname : String.length (safeFilename (conv_name conv) ++ rest)
                  = String.length (conv_name conv) + String.length rest).
  { rewrite length_append, Hlen. reflexivity. }
  split; [rewrite <- Hlen; apply substring_head|].
  split; [rewrite <- Hlen, substring_head; apply safeFilename_safe|].
  split.
  { rewrite Hname.
    replace (String.length (conv_name conv) + String.length rest
             - String.length (conv_name conv)) with (String.length rest) by lia.
    rewrite <- Hlen. apply substring_tail. }
  split; [rewrite Hname, Hrest; destruct format; lia|].
  split.
  { intros Hdate. rewrite allChars_append.
    rewrite (allChars_weaken safeChar fileNameChar _
               (fun c Hc => ltac:(unfold fileNameChar; rewrite Hc; reflexivity))
               (safeFilename_safe _)).
    subst rest. cbn [append allChars andb]. rewrite allChars_append.
    rewrite (allChars_weaken dateChar fileNameChar _
               (fun c Hc => ltac:(unfold fileNameChar; rewrite Hc;
                                  apply orb_true_iff; left; apply orb_true_r))
               Hdate).
    subst extension. destruct format; reflexivity. }
  split; [intros conv' ->; rewrite safeFilename_again; reflexivity|].
  split.
  { unfold exportContent. rewrite fold_export, !append_assoc.
    rewrite <- !append_assoc. apply prefix_append. }
  split.
  { intros conv' Hsame Hkept. unfold exportContent.
    rewrite !fold_export, Hsame, Hkept. do 3 f_equal. clear Hkept.
    induction (conv_messages conv) as [|m l IH]; cbn [filter]; [reflexivity|].
    destruct (skipped m) eqn:Hskip; cbn [negb]; [exact IH|].
    cbn [filter]. rewrite Hskip. cbn [negb]. rewrite IH. reflexivity. }
  intros m Hskip. unfold exportMessage. rewrite Hskip.
  destruct format; [reflexivity|].
  destruct (msg_sender m); reflexivity.
Qed.

End ExportedFile.

(** ** What the views hand to the controller *)

Section ComposerFacts.
Import Types Composer.

Lemma trimStart_head (s : string) :
  match Js.trimStart s with
  | EmptyString => True
  | String c _ => Js.isWhite c = false
  end.
Proof.
  induction s as [|c s IH]; cbn [Js.trimStart]; [exact I|].
  destruct (Js.isWhite c) eqn:Hc; [exact IH|exact Hc].
Qed.

Lemma trimEnd_head (c : ascii) (s : string) :
  Js.isWhite c = false -> exists r, Js.trimEnd (String c s) = String c r.
Proof.
  intros Hc. cbn [Js.trimEnd]. destruct (Js.trimEnd s).
  - rewrite Hc. eexists. reflexivity.
  - eexists. reflexivity.
Qed.

Lemma trimEnd_idempotent (s : string) : Js.trimEnd (Js.trimEnd s) = Js.trimEnd s.
Proof.
  induction s as [|c s IH]; [reflexivity|]. cbn [Js.trimEnd].
  destruct (Js.trimEnd s) as [|d r] eqn:Hr.
  - destruct (Js.isWhite c) eqn:Hc; [reflexivity|]. cbn [Js.trimEnd]. rewrite Hc. reflexivity.
  - cbn [Js.trimEnd]. fold Js.trimEnd. 
    change (match Js.trimEnd (String d r) with
            | EmptyString => if Js.isWhite c then EmptyString else String c EmptyString
            | String a b => String c (String a b)
            end = String c (String d r)).
    rewrite IH. reflexivity.
Qed.

Lemma trim_idempotent (s : string) : Js.trim (Js.trim s) = Js.trim s.
Proof.
  unfold Js.trim. pose proof (trimStart_head s) as Hhead.
  destruct (Js.trimStart s) as [|c r] eqn:Hs; [reflexivity|].
  destruct (trimEnd_head c r Hhead) as (r' & Hr'). rewrite Hr'.
  cbn [Js.trimStart]. rewrite Hhead, <- Hr'. apply trimEnd_idempotent.
Qed.

Lemma loadedOf_idempotent (l : list Attachment) : loadedOf (loadedOf l) = loadedOf l.
Proof.
  unfold loadedOf. induction l as [|a l IH]; [reflexivity|]. cbn [filter].
  destruct (status_eqb (att_status a) StLoaded) eqn:Hst; [|exact IH].
  cbn [filter]. rewrite Hst, IH. reflexivity.
Qed.

Lemma loadedOf_loaded (l : list Attachment) :
  Forall (fun a => att_status a = StLoaded) (loadedOf l).
Proof.
  rewrite Forall_forall. intros a Hin. apply filter_In in Hin. destruct Hin as [_ Hst].
  destruct (att_status a); try discriminate. reflexivity.
Qed.

(** X26. The composer calls the controller only when it is not loading
    and there is a non-blank query or a loaded attachment; it then hands
    over the trimmed query and exactly the loaded attachments and clears
    its input, and otherwise leaves its input alone. What it hands over
    passes the controller's own blank check, and the controller's filter
    for loaded attachments keeps all of them. The end of a voice
    recognition hands over the same, but without looking at the loading
    state, and clears the input whether or not anything was handed over.
    Saving an edit hands over the message id with the trimmed text, and
    only if that text is not blank. *)
Theorem views_hand_over_clean_input (busy : bool) (c : Input) :
  (snd (handleSend busy c) = None -> fst (handleSend busy c) = c)
  /\ (forall query atts,
        snd (handleSend busy c) = Some (query, atts) ->
        busy = false
        /\ fst (handleSend busy c) = cleared
        /\ query = Js.trim (userQuery c)
        /\ atts = loadedOf (attachments c)
        /\ Forall (fun a => att_status a = StLoaded) atts
        /\ negb (Js.truthy (Js.trim query)) && (List.length atts =? 0)%nat = false
        /\ loadedOf atts = atts)
  /\ fst (onRecognitionEnd c) = cleared
  /\ (forall query atts,
        snd (onRecognitionEnd c) = Some (query, atts) ->
        query = Js.trim (userQuery c)
        /\ atts = loadedOf (attachments c)
        /\ negb (Js.truthy (Js.trim query)) && (List.length atts =? 0)%nat = false)
  /\ (forall messageId editText r,
        handleEditSave messageId editText = Some r ->
        fst r = messageId
        /\ snd r = Js.trim editText
        /\ Js.truthy (snd r) = true
        /\ Js.trim (snd r) = snd r).
Proof.
  assert (Hcontent : forall q l,
             Js.truthy (Js.trim q) || negb (List.length (loadedOf l) =? 0)%nat = true ->
             negb (Js.truthy (Js.trim (Js.trim q))) && (List.length (loadedOf l) =? 0)%nat
             = false).
  { intros q l H. rewrite trim_idempotent.
    destruct (Js.truthy (Js.trim q)); [reflexivity|].
    cbn [orb negb andb] in *. destruct (List.length (loadedOf l) =? 0)%nat;
      [discriminate|reflexivity]. }
  split; [|split; [|split; [|split]]].
  - unfold handleSend. destruct (_ && _); [discriminate|reflexivity].
  - intros query atts. unfold handleSend.
    destruct ((Js.truthy (Js.trim (userQuery c))
               || negb (List.length (loadedOf (attachments c)) =? 0)%nat)
              && negb busy) eqn:Hguard; [|discriminate].
    cbn [snd fst]. intros H. injection H as <- <-.
    apply andb_prop in Hguard. destruct Hguard as [Hcont Hbusy].
    split; [destruct busy; [discriminate|reflexivity]|].
    split; [reflexivity|]. split; [reflexivity|]. split; [reflexivity|].
    split; [apply loadedOf_loaded|].
    split; [apply Hcontent, Hcont|apply loadedOf_idempotent].
  - reflexivity.
  - intros query atts. unfold onRecognitionEnd. cbn [snd].
    destruct (Js.truthy (Js.trim (userQuery c))
              || negb (List.length (loadedOf (attachments c)) =? 0)%nat) eqn:Hcont;
      [|discriminate].
    intros H. injection H as <- <-.
    split; [reflexivity|]. split; [reflexivity|]. apply Hcontent, Hcont.
  - intros messageId editText r. unfold handleEditSave.
    destruct (Js.truthy (Js.trim editText)) eqn:Ht; [|discriminate].
    intros H. injection H as <-. cbn [fst snd].
    split; [reflexivity|]. split; [reflexivity|]. split; [exact Ht|apply trim_idempotent].
Qed.

Lemma views_hand_over_clean_input_witness :
  fst (handleSend false {| userQuery := "  Why?  ";
                           attachments := [MoreSamples.pngAttachment;
                                           MoreSamples.loadingAttachment] |})
  = cleared
  /\ handleSend true {| userQuery := "Why?"; attachments := [] |}
     = ({| userQuery := "Why?"; attachments := [] |}, None).
Proof.
  split.
  - destruct (views_hand_over_clean_input false
                {| userQuery := "  Why?  ";
                   attachments := [MoreSamples.pngAttachment;
                                   MoreSamples.loadingAttachment] |})
      as (_ & Hsent & _).
    exact (proj1 (proj2 (Hsent "Why?" [MoreSamples.pngAttachment] eq_refl))).
  - destruct (views_hand_over_clean_input true {| userQuery := "Why?"; attachments := [] |})
      as (Hkept & _).
    apply injective_projections; [exact (Hkept eq_refl)|reflexivity].
Defined.

End ComposerFacts.

(** ** Feedback *)

Section FeedbackFacts.
Import Feedback.

Lemma handleCheckboxChange_NoDup (option : string) (prev : list string) :
  NoDup prev -> NoDup (handleCheckboxChange option prev).
Proof.
  intros Hnd. unfold handleCheckboxChange.
  destruct (Js.arrayIncludes option prev) eqn:Hinc.
  - apply NoDup_filter, Hnd.
  - apply arrayIncludes_not_In in Hinc.
    apply NoDup_app; [exact Hnd|repeat constructor; intros []|].
    intros x Hx [<-|[]]. contradiction.
Qed.

Lemma step_wellFormed (s : State) (e : Event) :
  wellFormed s -> wellFormed (fst (step s e)).
Proof.
  intros Hwf. pose proof Hwf as (Hopen & Hnd & Hclosed).
  destruct e as [| |option| | |]; cbn [step].
  - destruct (feedback s) eqn:Hf; cbn [fst]; [exact Hwf|].
    unfold wellFormed. cbn. split; [|split; assumption].
    intros Ho. specialize (Hopen Ho). discriminate.
  - destruct (feedback s) eqn:Hf; cbn [fst]; [exact Hwf|].
    unfold wellFormed. cbn. split; [reflexivity|]. split; [exact Hnd|discriminate].
  - destruct (isFeedbackModalOpen s) eqn:Ho; cbn [fst]; [|exact Hwf].
    unfold wellFormed. cbn. split; [intros _; apply Hopen; reflexivity|].
    split; [apply handleCheckboxChange_NoDup, Hnd|discriminate].
  - destruct (isFeedbackModalOpen s) eqn:Ho; cbn [fst]; [|exact Hwf].
    destruct (selectedOptions s) eqn:Hsel; cbn [fst]; [exact Hwf|].
    unfold wellFormed. cbn. split; [discriminate|]. split; [constructor|reflexivity].
  - destruct (isFeedbackModalOpen s) eqn:Ho; cbn [fst]; [|exact Hwf].
    unfold wellFormed. cbn. split; [discriminate|]. split; [constructor|reflexivity].
  - unfold wellFormed. cbn. repeat split; assumption.
Qed.

Lemma run_wellFormed (events : list Event) :
  forall s, wellFormed s -> wellFormed (run s events).
Proof.
  unfold run. induction events as [|e events IH]; intros s Hs; [exact Hs|].
  cbn [fold_left]. apply IH, step_wellFormed, Hs.
Qed.

Lemma run_settled (choice : Choice) (events : list Event) :
  forall s,
    feedback s = Some choice ->
    isFeedbackModalOpen s = false ->
    feedback (run s events) = Some choice
    /\ isFeedbackModalOpen (run s events) = false.
Proof.
  unfold run. induction events as [|e events IH]; intros s Hf Ho; [auto|].
  cbn [fold_left]. apply IH.
  - destruct e; cbn [step]; rewrite ?Hf, ?Ho; cbn [fst feedback]; rewrite ?Hf; reflexivity.
  - destruct e; cbn [step]; rewrite ?Hf, ?Ho; cbn [fst isFeedbackModalOpen]; rewrite ?Ho;
      reflexivity.
Qed.

(** X27. Whatever the user does with the feedback controls of a message,
    the dialog is only open for a dislike that was not yet submitted,
    the selected reasons have no duplicates, and no reason is selected
    while the dialog is closed. A like is final. The reasons that are
    submitted are never empty and have no duplicates; a submission
    closes the dialog and makes the dislike final, while closing the
    dialog without submitting withdraws the dislike, so that the user
    can vote again. *)
Theorem feedback_is_given_once (events : list Event) :
  wellFormed (run initial events)
  /\ (forall s later,
        wellFormed s -> feedback s = Some liked ->
        feedback (run s later) = Some liked)
  /\ (forall s reasons later,
        wellFormed s ->
        snd (step s Submit) = Some reasons ->
        reasons <> [] /\ NoDup reasons
        /\ isFeedbackModalOpen (fst (step s Submit)) = false
        /\ feedback (run (fst (step s Submit)) later) = Some disliked)
  /\ (forall s,
        wellFormed s -> isFeedbackModalOpen s = true ->
        feedback (fst (step s CloseDialog)) = None
        /\ isFeedbackModalOpen (fst (step s CloseDialog)) = false).
Proof.
  split; [|split; [|split]].
  - apply run_wellFormed. unfold wellFormed, initial. cbn.
    split; [discriminate|]. split; [constructor|reflexivity].
  - intros s later (Hopen & _ & _) Hliked.
    apply (run_settled liked later s Hliked).
    destruct (isFeedbackModalOpen s); [|reflexivity].
    rewrite (Hopen eq_refl) in Hliked. discriminate.
  - intros s reasons later (Hopen & Hnd & Hclosed). cbn [step].
    destruct (isFeedbackModalOpen s) eqn:Ho; [|discriminate].
    destruct (selectedOptions s) as [|r rs] eqn:Hsel; [discriminate|].
    cbn [snd fst]. intros H. injection H as <-.
    split; [discriminate|]. split; [exact Hnd|]. split; [reflexivity|].
    apply run_settled; [|reflexivity]. cbn. apply Hopen. reflexivity.
  - intros s (Hopen & _ & _) Ho. cbn [step]. rewrite Ho. cbn.
    rewrite (Hopen Ho). split; reflexivity.
Qed.

Lemma feedback_is_given_once_witness :
  snd (step (run initial [Dislike; Toggle "Inaccurate"; Toggle "Other"; Toggle "Inaccurate"])
            Submit)
  = Some ["Other"]
  /\ feedback (run (fst (step (run initial [Dislike; Toggle "Other"]) Submit))
                   [Like; Dislike; CloseDialog])
     = Some disliked.
Proof.
  split; [reflexivity|].
  destruct (feedback_is_given_once [Dislike; Toggle "Other"]) as (Hwf & _ & Hsubmit & _).
  exact (proj2 (proj2 (proj2 (Hsubmit _ ["Other"] [Like; Dislike; CloseDialog] Hwf eq_refl)))).
Defined.

End FeedbackFacts.

Section ExportedFileExamples.
Import Types Repository ExportFile Controller.

Lemma export_uses_safe_name_witness :
  allChars fileNameChar (downloadName txt "2026-11-03" Samples.twoUrlConversation) = true.
Proof.
  destruct (export_uses_safe_name (fun _ => "now") txt "2026-11-03"
              Samples.twoUrlConversation)
    as (_ & _ & _ & _ & Hchars & _).
  exact (Hchars eq_refl).
Defined.

End ExportedFileExamples.

(** ** Translations *)

Section Translations.
Import Language Controller.

Lemma substring_all (s : string) : substring 0 (String.length s) s = s.
Proof. induction s as [|c s IH]; [reflexivity|]. cbn. rewrite IH. reflexivity. Qed.

Lemma prefix_split (p : string) :
  forall s,
    String.prefix p s = true ->
    s = p ++ substring (String.length p) (String.length s - String.length p) s.
Proof.
  induction p as [|a p IH]; intros s Hp.
  - cbn. rewrite Nat.sub_0_r, substring_all. reflexivity.
  - destruct s as [|b s]; [discriminate|]. cbn in Hp.
    destruct (Ascii.ascii_dec a b) as [<-|]; [|discriminate].
    cbn. f_equal. apply IH, Hp.
Qed.

Lemma splitAtFirst_sound (pattern : string) :
  forall s before after,
    splitAtFirst pattern s = Some (before, after) ->
    s = before ++ pattern ++ after.
Proof.
  induction s as [|c s IH]; intros before after.
  - cbn [splitAtFirst]. destruct (String.prefix pattern "") eqn:Hp; [|discriminate].
    intros H. injection H as <- <-. apply (prefix_split pattern "" Hp).
  - cbn [splitAtFirst]. destruct (String.prefix pattern (String c s)) eqn:Hp.
    + intros H. injection H as <- <-. apply (prefix_split pattern (String c s) Hp).
    + destruct (splitAtFirst pattern s) as [[b a]|]; [|discriminate].
      intros H. injection H as <- <-. cbn. f_equal. apply IH. reflexivity.
Qed.

Lemma getSubstitution_dollarFree (matched before after : string) :
  forall template,
    dollarFree template = true ->
    getSubstitution matched before after template = template.
Proof.
  induction template as [|c rest IH]; [reflexivity|].
  unfold dollarFree. cbn [allChars getSubstitution]. intros H.
  apply andb_prop in H. destruct H as [Hc Hrest].
  apply negb_true_iff in Hc. rewrite Hc. f_equal. apply IH, Hrest.
Qed.

(** X28. While the dictionary of the current language is not loaded, a
    translation is its key, and so is the translation of a key that is
    missing from the dictionary or has an empty text. A placeholder that
    does not occur in the text leaves it unchanged. A placeholder that
    occurs is replaced once: the text around that occurrence stays as it
    is, and a value without a dollar sign is put in literally. A value
    that is two dollar signs is put in as a single one. *)
Theorem translation_fills_placeholder
    (dictionary : string -> option string) (key name value : string) :
  let pattern := "{" ++ name ++ "}" in
  (forall replacements, t None key replacements = key)
  /\ (dictionary key = None \/ dictionary key = Some "" ->
      t (Some dictionary) key None = key)
  /\ (forall text,
        dictionary key = Some text -> Js.truthy text = true ->
        (splitAtFirst pattern text = None ->
         t (Some dictionary) key (Some [(name, value)]) = text)
        /\ (forall before after,
              splitAtFirst pattern text = Some (before, after) ->
              text = before ++ pattern ++ after
              /\ (dollarFree value = true ->
                  t (Some dictionary) key (Some [(name, value)])
                  = before ++ value ++ after)
              /\ t (Some dictionary) key (Some [(name, "$$")]) = before ++ "$" ++ after)).
Proof.
  cbv zeta. split; [reflexivity|]. split.
  - intros [H|H]; unfold t; rewrite H; reflexivity.
  - intros text Hkey Htruthy. unfold t. rewrite Hkey, Htruthy.
    cbn [fold_left fst snd]. unfold replace. split.
    + intros ->. reflexivity.
    + intros before after Hsplit. rewrite Hsplit.
      split; [apply splitAtFirst_sound, Hsplit|]. split.
      * intros Hfree. rewrite (getSubstitution_dollarFree _ _ _ _ Hfree). reflexivity.
      * reflexivity.
Qed.

Lemma translation_fills_placeholder_witness :
  t (Some (fun key => if String.eqb key "newChatCreated"
                      then Some "Started {conversationName}." else None))
    "newChatCreated" (Some [("conversationName", "Notes")])
  = "Started Notes.".
Proof.
  destruct (translation_fills_placeholder
              (fun key => if String.eqb key "newChatCreated"
                          then Some "Started {conversationName}." else None)
              "newChatCreated" "conversationName" "Notes") as (_ & _ & Hfill).
  destruct (Hfill "Started {conversationName}." eq_refl eq_refl) as (_ & Hfound).
  destruct (Hfound "Started " "." eq_refl) as (_ & Hvalue & _).
  exact (Hvalue eq_refl).
Defined.

End Translations.

(** ** The summary dialog *)

Section SummaryDialog.
Import Types Repository Summary.

Lemma conversationText_system (history : list ChatMessage) :
  Forall (fun m => msg_sender m = SYSTEM) history -> conversationText history = "".
Proof.
  intros Hall. unfold conversationText.
  assert (Hnone : filter (fun msg => sender_eqb (msg_sender msg) USER
                                     || sender_eqb (msg_sender msg) MODEL) history = []).
  { induction Hall as [|m l Hm _ IH]; [reflexivity|]. cbn [filter]. rewrite Hm. exact IH. }
  rewrite Hnone. reflexivity.
Qed.

(** X29. Asking for a summary of a conversation with fewer than three
    messages opens the dialog with the notice that the conversation is
    too short and calls no service. With three or more messages nothing
    happens while a summary is already being made; otherwise the dialog
    is opened, the summarizing flag is lowered at the end, and the
    backend is called at most once. Without an API key the dialog shows
    the configuration error and the backend is not called; when the
    conversation holds system messages only, the dialog says there is
    nothing to summarize and the backend is not called either. *)
Theorem summary_dialog_outcomes
    (API_KEY : option string) (backend : Gemini.Backend) (lang : Gemini.Language)
    (tooShort : string) (w : Gemini.World) (s : App.State) (d : Dialog)
    (active : Conversation) :
  App.activeConversation s = Some active ->
  let r := handleSummarize API_KEY backend lang tooShort w s d in
  (List.length (conv_messages active) < 3 ->
   fst r = w
   /\ isSummaryModalOpen (snd r) = true
   /\ summaryContent (snd r) = Some tooShort
   /\ isSummarizing (snd r) = isSummarizing d)
  /\ (3 <= List.length (conv_messages active) -> isSummarizing d = true -> r = (w, d))
  /\ (3 <= List.length (conv_messages active) -> isSummarizing d = false ->
      isSummaryModalOpen (snd r) = true
      /\ isSummarizing (snd r) = false
      /\ (Gemini.calls (fst r) = Gemini.calls w
          \/ exists call, Gemini.calls (fst r) = (Gemini.calls w ++ [call])%list)
      /\ (Js.truthy_opt API_KEY = false ->
          Gemini.calls (fst r) = Gemini.calls w
          /\ summaryContent (snd r)
             = Some ("Error generating summary: "
                     ++ "Gemini API Key not configured. Set process.env.API_KEY."))
      /\ (Js.truthy_opt API_KEY = true ->
          Forall (fun m => msg_sender m = SYSTEM) (conv_messages active) ->
          Gemini.calls (fst r) = Gemini.calls w
          /\ summaryContent (snd r) = Some emptyConversationNotice)).
Proof.
  intros Hactive. cbv zeta. unfold handleSummarize. rewrite Hactive.
  split; [|split].
  - intros Hshort. rewrite (proj2 (Nat.ltb_lt _ _) Hshort). repeat split.
  - intros Hlong Hbusy. rewrite (proj2 (Nat.ltb_ge _ _) Hlong), Hbusy. reflexivity.
  - intros Hlong Hidle. rewrite (proj2 (Nat.ltb_ge _ _) Hlong), Hidle.
    unfold getSummary.
    destruct (Js.truthy_opt API_KEY) eqn:Hkey.
    + destruct (getAiInstance_configured API_KEY (Gemini.ai w) Hkey)
        as (client & ai' & Hai).
      rewrite Hai.
      destruct (Js.truthy (conversationText (conv_messages active))) eqn:Htext;
        cbn [negb].
      * destruct (Gemini.generateContent backend client _);
          cbn [fst snd isSummaryModalOpen isSummarizing Gemini.calls];
          (split; [reflexivity|]); (split; [reflexivity|]);
          (split; [right; eexists; reflexivity|]);
          (split; [discriminate|]);
          intros _ Hsys; rewrite (conversationText_system _ Hsys) in Htext; discriminate.
      * cbn [fst snd isSummaryModalOpen isSummarizing Gemini.calls summaryContent].
        split; [reflexivity|]. split; [reflexivity|]. split; [left; reflexivity|].
        split; [discriminate|]. intros _ _. split; reflexivity.
    + rewrite (getAiInstance_unconfigured API_KEY (Gemini.ai w) Hkey). cbn [fst snd isSummaryModalOpen isSummarizing Gemini.calls summaryContent].
      split; [reflexivity|]. split; [reflexivity|]. split; [left; reflexivity|].
      split; [intros _; split; reflexivity|discriminate].
Qed.

End SummaryDialog.

Section SummaryDialogExamples.
Import Types Repository Summary.

Lemma summary_dialog_outcomes_witness :
  summaryContent
    (snd (handleSummarize None (Samples.backendOf []) Gemini.en "Too short."
            Samples.freshWorld MoreSamples.workspace MoreSamples.closedDialog))
  = Some "Error generating summary: Gemini API Key not configured. Set process.env.API_KEY."
  /\ summaryContent
       (snd (handleSummarize None (Samples.backendOf []) Gemini.en "Too short."
               Samples.freshWorld MoreSamples.singleWorkspace MoreSamples.closedDialog))
     = Some "Too short.".
Proof.
  split.
  - destruct (summary_dialog_outcomes None (Samples.backendOf []) Gemini.en "Too short."
                Samples.freshWorld MoreSamples.workspace MoreSamples.closedDialog
                _ eq_refl) as (_ & _ & Hlong).
    destruct (Hlong ltac:(cbn; lia) eq_refl) as (_ & _ & _ & Hnokey & _).
    exact (proj2 (Hnokey eq_refl)).
  - destruct (summary_dialog_outcomes None (Samples.backendOf []) Gemini.en "Too short."
                Samples.freshWorld MoreSamples.singleWorkspace MoreSamples.closedDialog
                _ eq_refl) as (Hshort & _).
    destruct (Hshort ltac:(cbn; lia)) as (_ & _ & Hcontent & _). exact Hcontent.
Defined.

End SummaryDialogExamples.

(** ** Responses whose placeholder is gone *)

Section OrphanedResponse.
Import Types Repository App Response Controller.

Lemma updatePlaceholder_absent (p : Pending) (f : ChatMessage -> ChatMessage)
    (l : list Conversation) :
  (forall c, In c l -> conv_id c = pendingConversation p ->
             forall m, In m (conv_messages c) -> msg_id m <> msg_id (placeholder p)) ->
  updatePlaceholder p f l = l.
Proof.
  intros Habsent. unfold updatePlaceholder, updateConversation.
  rewrite <- (map_id l) at 2. apply map_ext_in. intros c Hin.
  destruct (String.eqb_spec (conv_id c) (pendingConversation p)) as [He|]; [|reflexivity].
  assert (Hmsgs : map (fun msg => if String.eqb (msg_id msg) (msg_id (placeholder p))
                                  then f msg else msg) (conv_messages c)
                  = conv_messages c).
  { rewrite <- (map_id (conv_messages c)) at 2. apply map_ext_in. intros m Hm.
    destruct (String.eqb_spec (msg_id m) (msg_id (placeholder p))) as [Hid|]; [|reflexivity].
    exfalso. exact (Habsent c Hin He m Hm Hid). }
  rewrite Hmsgs. destruct c; reflexivity.
Qed.

(** X30. When the placeholder of a pending response is no longer among
    the messages of its conversation (the user has edited an earlier
    message, regenerated, or deleted the conversation in the meantime),
    the response is dropped: whether the stream ends normally or fails,
    all that changes is that the loading flag is lowered. No answer and
    no error message appears. *)
Theorem orphaned_response_is_dropped
    (dec : Gemini.Decoders) (API_KEY : option string) (backend : Gemini.Backend)
    (lang : Gemini.Language) (p : Pending) (w : Gemini.World) (s : State)
    (cs : list Gemini.GenerateContentResponse) (fail : option Gemini.Thrown) :
  Gemini.streamOf dec API_KEY backend (pendingHistory p) (pendingUrls p) (pendingFiles p)
                  lang w
  = Some {| Gemini.chunks := cs; Gemini.failure := fail |} ->
  (forall c, In c (conversations s) -> conv_id c = pendingConversation p ->
             forall m, In m (conv_messages c) -> msg_id m <> msg_id (placeholder p)) ->
  snd (completeResponse dec API_KEY backend lang p w s) = setIsLoading false s.
Proof.
  intros Hs Habsent.
  destruct (forAwait_stream _ _ _ _ _ _ _ w cs fail Hs) as (w' & _ & Hrun).
  assert (Hsame : forall l, setIsLoading false (setConversations l s)
                            = setIsLoading false (setConversations (conversations s) s) ->
                            setIsLoading false (setConversations l s) = setIsLoading false s).
  { intros l ->. destruct s; reflexivity. }
  unfold completeResponse. rewrite Hrun.
  destruct fail as [err|].
  - rewrite drive_loop_fails by lia.
    destruct (fold_onChunk p (conversations s) (Gemini.loopDeltas cs) noProgress
                (fun m => m) textOnly_id) as (g & Hg & Hfold).
    rewrite updatePlaceholder_id in Hfold. rewrite Hfold. cbn [snd].
    apply Hsame. rewrite !(updatePlaceholder_absent p _ _ Habsent). reflexivity.
  - rewrite drive_loop_completes by lia.
    destruct (fold_onChunk p (conversations s) (Gemini.loopItems cs None) noProgress
                (fun m => m) textOnly_id) as (g & Hg & Hfold).
    rewrite updatePlaceholder_id in Hfold. rewrite Hfold. cbn [snd].
    apply Hsame. rewrite !(updatePlaceholder_absent p _ _ Habsent). reflexivity.
Qed.

Lemma orphaned_response_is_dropped_witness :
  chatMessages
    (snd (completeResponse Samples.decoders (Some "key")
            (Samples.backendOf Samples.helloChunks) Gemini.en MoreSamples.pendingAnswer
            Samples.freshWorld MoreSamples.editedWhileAwaiting))
  = [ MoreSamples.welcomeTurn; Samples.userTurn; Samples.messageOf "m1" "Hello" MODEL;
      editedMessage (userMessage "Why?" [] 5 5) "Why not?" 7 ].
Proof.
  rewrite (orphaned_response_is_dropped Samples.decoders (Some "key")
             (Samples.backendOf Samples.helloChunks) Gemini.en MoreSamples.pendingAnswer
             Samples.freshWorld MoreSamples.editedWhileAwaiting Samples.helloChunks None
             eq_refl).
  - reflexivity.
  - intros c [<-|[<-|[<-|[]]]] Hid; try discriminate Hid.
    intros m [<-|[<-|[<-|[<-|[]]]]]; discriminate.
Defined.

End OrphanedResponse.
